(** * rasm16: the assembler pipeline of package [assemble]

    A shallow embedding of the Go sources of package [assemble]: the
    preprocessor ([cleanSrc] to [hasDupeSrcLabels]), the structural parser
    ([src_to_struct.go]), the normalizer, validator and resolver
    ([process_struct.go]), the binary encoder ([struct_to_bin.go]) and the
    entry point [Raw], followed by the properties of the pipeline.

    Conventions.
    - A Go [string] is a sequence of bytes: it is a [string] here, one
      [ascii] per byte.  [len], [s[:1]], [[]byte(s)] work on bytes.
    - A Go [byte] and a [uint16] are [Z] with the wrap-around written where
      the code can wrap.  A Go [int] (64 bits) is a [Z]: the counters of the
      program stay far below 2^63 (an address is checked against
      [maxAddressSpace] after every addition, the addend is at most twice
      the length of one source line).
    - A Go [map] read by key only is a [gmap]; the one map that is also
      ranged over takes the order of the range as a parameter.
    - The debug printing ([printSrc], [printStructSrc], [printBin],
      [fmt.Println]) writes to standard output only and is left out. *)

From Stdlib Require Import ZArith NArith String Ascii List Bool Lia.
From stdpp Require Import gmap strings list fin_maps.

Local Open Scope Z_scope.

(** ** Go library functions used by the program *)

Module Go.

Definition byteN (c : ascii) : N := N_of_ascii c.

Definition inRange (lo hi : N) (c : ascii) : bool :=
  ((lo <=? byteN c) && (byteN c <=? hi))%N.

Definition isByte (n : N) (c : ascii) : bool := (byteN c =? n)%N.

Definition fromBytes (l : list N) : string :=
  string_of_list_ascii (map ascii_of_N l).

Definition len (s : string) : Z := Z.of_nat (String.length s).

Fixpoint allBytes (p : ascii -> bool) (s : string) : bool :=
  match s with
  | EmptyString => true
  | String c s' => p c && allBytes p s'
  end.

Fixpoint dropBytes (n : nat) (s : string) : string :=
  match n, s with
  | O, _ => s
  | S n', String _ s' => dropBytes n' s'
  | S _, EmptyString => EmptyString
  end.

Fixpoint takeBytes (n : nat) (s : string) : string :=
  match n, s with
  | S n', String c s' => String c (takeBytes n' s')
  | _, _ => EmptyString
  end.

(** [s[:1]] for a non-empty [s]; the program guards every such slice by
    a test that [s] is not empty. *)
Definition first1 (s : string) : string := takeBytes 1 s.

(** [s[len(s)-1:]] for a non-empty [s]. *)
Definition last1 (s : string) : string :=
  dropBytes (String.length s - 1) s.

Definition nonEmpty (s : string) : bool :=
  match s with EmptyString => false | _ => true end.

(** *** Character classes of the regular expressions (RE2 syntax) *)

Definition isDigit (c : ascii) : bool := inRange 48 57 c.
Definition isUpper (c : ascii) : bool := inRange 65 90 c.
Definition isLower (c : ascii) : bool := inRange 97 122 c.

(** [\w] is [[0-9A-Za-z_]]. *)
Definition isWord (c : ascii) : bool :=
  isDigit c || isUpper c || isLower c || isByte 95 c.

(** [[\w.]] *)
Definition isLabelByte (c : ascii) : bool := isWord c || isByte 46 c.

(** [[0-9A-Fa-f]] *)
Definition isHexByte (c : ascii) : bool :=
  isDigit c || inRange 65 70 c || inRange 97 102 c.

Definition isNewline (c : ascii) : bool := isByte 10 c.

(** *** UTF-8

    [utf8.DecodeRuneInString] reports the width of the first rune; a byte
    that does not start a well-formed sequence is a rune of width 1. *)

Definition isCont (c : ascii) : bool := inRange 128 191 c.

Definition runeWidth (s : string) : nat :=
  match s with
  | EmptyString => 0%nat
  | String b0 r =>
      let two lo hi :=
        match r with
        | String b1 _ => if inRange lo hi b1 then 2%nat else 1%nat
        | _ => 1%nat
        end in
      let three lo hi :=
        match r with
        | String b1 (String b2 _) =>
            if inRange lo hi b1 && isCont b2 then 3%nat else 1%nat
        | _ => 1%nat
        end in
      let four lo hi :=
        match r with
        | String b1 (String b2 (String b3 _)) =>
            if inRange lo hi b1 && isCont b2 && isCont b3 then 4%nat else 1%nat
        | _ => 1%nat
        end in
      if inRange 194 223 b0 then two 128%N 191%N
      else if isByte 224 b0 then three 160%N 191%N
      else if inRange 225 236 b0 then three 128%N 191%N
      else if isByte 237 b0 then three 128%N 159%N
      else if inRange 238 239 b0 then three 128%N 191%N
      else if isByte 240 b0 then four 144%N 191%N
      else if inRange 241 243 b0 then four 128%N 191%N
      else if isByte 244 b0 then four 128%N 143%N
      else 1%nat
  end.

(** The length of the first pattern of [pats] that starts [s], 0 if none
    does.  The patterns are the UTF-8 encodings of the runes of a class;
    each starts with an ASCII byte or a lead byte, which the decoder never
    takes for a continuation byte, so that matching bytes is matching
    runes. *)
Fixpoint matchHead (pats : list string) (s : string) : nat :=
  match pats with
  | [] => 0%nat
  | p :: ps => if String.prefix p s then String.length p else matchHead ps s
  end.

(** White space of the regular expression class [[\s\p{Zs}]]:
    [\s] is [[\t\n\f\r ]], [Zs] is U+0020, U+00A0, U+1680, U+2000..U+200A,
    U+202F, U+205F, U+3000. *)
Definition reSpaces : list string :=
  map fromBytes
    [ [9]; [10]; [12]; [13]; [32]; [194;160]; [225;154;128];
      [226;128;128]; [226;128;129]; [226;128;130]; [226;128;131];
      [226;128;132]; [226;128;133]; [226;128;134]; [226;128;135];
      [226;128;136]; [226;128;137]; [226;128;138];
      [226;128;175]; [226;129;159]; [227;128;128] ]%N.

(** White space of [unicode.IsSpace]: [\t \n \v \f \r], space, U+0085,
    U+00A0, U+1680, U+2000..U+200A, U+2028, U+2029, U+202F, U+205F,
    U+3000. *)
Definition unicodeSpaces : list string :=
  map fromBytes
    [ [9]; [10]; [11]; [12]; [13]; [32]; [194;133]; [194;160];
      [225;154;128];
      [226;128;128]; [226;128;129]; [226;128;130]; [226;128;131];
      [226;128;132]; [226;128;133]; [226;128;134]; [226;128;135];
      [226;128;136]; [226;128;137]; [226;128;138];
      [226;128;168]; [226;128;169];
      [226;128;175]; [226;129;159]; [227;128;128] ]%N.

Definition revString (s : string) : string :=
  string_of_list_ascii (rev (list_ascii_of_string s)).

(** *** package strings *)

(** [strings.TrimSpace]: leading, then trailing white space removed. *)
Fixpoint trimLeft (fuel : nat) (pats : list string) (s : string) : string :=
  match fuel with
  | O => s
  | S f =>
      match matchHead pats s with
      | O => s
      | S k => trimLeft f pats (dropBytes (S k) s)
      end
  end.

Definition TrimSpace (s : string) : string :=
  let l := trimLeft (String.length s) unicodeSpaces s in
  revString (trimLeft (String.length l) (map revString unicodeSpaces) (revString l)).

(** [strings.Split(s, sep)] and [strings.SplitN(s, sep, 2)] for a
    separator of one byte, the only kind the program uses. *)
Fixpoint Split (s : string) (sep : ascii) : list string :=
  match s with
  | EmptyString => [EmptyString]
  | String c s' =>
      if Ascii.eqb c sep then EmptyString :: Split s' sep
      else match Split s' sep with
           | x :: xs => String c x :: xs
           | [] => [String c EmptyString]
           end
  end.

Fixpoint SplitN2 (s : string) (sep : ascii) : list string :=
  match s with
  | EmptyString => [EmptyString]
  | String c s' =>
      if Ascii.eqb c sep then [EmptyString; s']
      else match SplitN2 s' sep with
           | x :: xs => String c x :: xs
           | [] => [String c EmptyString]
           end
  end.

(** [strings.Join] *)
Definition Join (l : list string) (sep : string) : string := String.concat sep l.

(** [strings.Contains(s, sub)] for [sub] of one byte. *)
Fixpoint ContainsByte (s : string) (c : ascii) : bool :=
  match s with
  | EmptyString => false
  | String d s' => Ascii.eqb d c || ContainsByte s' c
  end.

(** [strings.Replace(s, old, new, -1)].  For an empty [old], [new] is put
    before every rune of [s] and at its end. *)
Fixpoint insertAtRunes (fuel : nat) (s new : string) : string :=
  match fuel with
  | O => new
  | S f =>
      match runeWidth s with
      | O => new
      | S k => new +:+ takeBytes (S k) s +:+ insertAtRunes f (dropBytes (S k) s) new
      end
  end.

Fixpoint replaceFrom (s old new : string) (skip : nat) : string :=
  match s with
  | EmptyString => EmptyString
  | String c s' =>
      match skip with
      | S k => replaceFrom s' old new k
      | O => if String.prefix old s
             then new +:+ replaceFrom s' old new (String.length old - 1)
             else String c (replaceFrom s' old new 0)
      end
  end.

Definition ReplaceAll (s old new : string) : string :=
  match old with
  | EmptyString => insertAtRunes (String.length s) s new
  | _ => replaceFrom s old new 0
  end.

(** [strings.Replace(s, old, new, 1)] *)
Fixpoint replaceOnce (s old new : string) : string :=
  match s with
  | EmptyString => EmptyString
  | String c s' =>
      if String.prefix old s then new +:+ dropBytes (String.length old) s
      else String c (replaceOnce s' old new)
  end.

Definition ReplaceFirst (s old new : string) : string :=
  match old with
  | EmptyString => new +:+ s
  | _ => replaceOnce s old new
  end.

Definition upperByte (c : ascii) : ascii :=
  if isLower c then ascii_of_N (byteN c - 32) else c.

Fixpoint mapBytes (f : ascii -> ascii) (s : string) : string :=
  match s with
  | EmptyString => EmptyString
  | String c s' => String (f c) (mapBytes f s')
  end.

Definition isASCII (s : string) : bool := allBytes (inRange 0 127) s.

(** [strings.ToUpper]: an ASCII-only string is mapped byte by byte; any
    other string goes through [unicode.ToUpper] rune by rune, whose case
    tables are the parameter [unicodeUpper]. *)
Definition ToUpper (unicodeUpper : string -> string) (s : string) : string :=
  if isASCII s then mapBytes upperByte s else unicodeUpper s.

(** *** package regexp: the expressions of the program

    Go's matcher takes the leftmost match and, there, the one a
    backtracking matcher finds first; [.] is any rune but a newline, an
    ill-formed byte counting as a rune. *)

(** [regexp.MustCompile(`#.*`)], every match replaced by the empty
    string ([ReplaceAllLiteralString]). *)
Fixpoint removeComments (s : string) (inComment : bool) : string :=
  match s with
  | EmptyString => EmptyString
  | String c s' =>
      if inComment then
        if isNewline c then String c (removeComments s' false)
        else removeComments s' true
      else if isByte 35 c then removeComments s' true
      else String c (removeComments s' false)
  end.

(** The number of white-space runes of [[\s\p{Zs}]] that start [s], and
    what follows them. *)
Fixpoint spaceRun (fuel : nat) (s : string) : nat * string :=
  match fuel with
  | O => (0%nat, s)
  | S f =>
      match matchHead reSpaces s with
      | O => (0%nat, s)
      | S k => let '(n, r) := spaceRun f (dropBytes (S k) s) in (S n, r)
      end
  end.

(** [regexp.MustCompile(`[\s\p{Zs}]{2,}`).ReplaceAllLiteralString(s, " ")] *)
Fixpoint collapseFrom (fuel : nat) (s : string) : string :=
  match fuel with
  | O => s
  | S f =>
      match s with
      | EmptyString => EmptyString
      | String c s' =>
          match matchHead reSpaces s with
          | O => String c (collapseFrom f s')
          | S k =>
              let '(n, r) := spaceRun (String.length s) s in
              if (2 <=? n)%nat then String " " (collapseFrom f r)
              else takeBytes (S k) s +:+ collapseFrom f (dropBytes (S k) s)
          end
      end
  end.

Definition collapseSpaces (s : string) : string :=
  collapseFrom (String.length s) s.

(** The position of the last [']'] of [r] that is at position 1 or later and
    has no newline before it; [pos] is the position of the head of [r]. *)
Fixpoint lastClose (r : string) (pos : nat) (best : option nat) : option nat :=
  match r with
  | EmptyString => best
  | String c r' =>
      if isNewline c then best
      else lastClose r' (S pos)
             (if isByte 93 c && (1 <=? pos)%nat then Some pos else best)
  end.

(** [regexp.MustCompile(`\[.+\]`).FindString(s)], empty without a match. *)
Fixpoint findConstName (s : string) : string :=
  match s with
  | EmptyString => EmptyString
  | String c r =>
      if isByte 91 c then
        match lastClose r 0 None with
        | Some j => String c (takeBytes (S j) r)
        | None => findConstName r
        end
      else findConstName r
  end.

Fixpoint lineRest (r : string) : string :=
  match r with
  | EmptyString => EmptyString
  | String c r' => if isNewline c then EmptyString else String c (lineRest r')
  end.

(** [regexp.MustCompile(`\].+`).FindString(s)], empty without a match. *)
Fixpoint findConstValue (s : string) : string :=
  match s with
  | EmptyString => EmptyString
  | String c r =>
      if isByte 93 c then
        match lineRest r with
        | EmptyString => findConstValue r
        | body => String c body
        end
      else findConstValue r
  end.

(** [regexp.MustCompile(`([\w.]{5,})`)]: the matches are the maximal runs
    of five or more bytes of [[\w.]].  [run] is the run read so far. *)
Fixpoint findLabelFrom (s run : string) : string :=
  match s with
  | EmptyString => if (5 <=? String.length run)%nat then run else EmptyString
  | String c s' =>
      if isLabelByte c then findLabelFrom s' (run +:+ String c EmptyString)
      else if (5 <=? String.length run)%nat then run
      else findLabelFrom s' EmptyString
  end.

(** [FindString] *)
Definition findLabel (s : string) : string := findLabelFrom s EmptyString.

Definition flushRun (f : string -> string) (run : string) : string :=
  if (5 <=? String.length run)%nat then f run else run.

Fixpoint replaceLabelsFrom (f : string -> string) (s run : string) : string :=
  match s with
  | EmptyString => flushRun f run
  | String c s' =>
      if isLabelByte c then replaceLabelsFrom f s' (run +:+ String c EmptyString)
      else flushRun f run +:+ String c (replaceLabelsFrom f s' EmptyString)
  end.

(** [ReplaceAllStringFunc(s, f)] *)
Definition replaceLabels (f : string -> string) (s : string) : string :=
  replaceLabelsFrom f s EmptyString.

(** [regexp.MustCompile(`^[\w.]+$`).MatchString(s)] *)
Definition matchLabelLine (s : string) : bool :=
  nonEmpty s && allBytes isLabelByte s.

(** [regexp.MustCompile(`^[0-9A-Fa-f]{1,n}$`).MatchString(s)] *)
Definition matchHex (n : nat) (s : string) : bool :=
  (1 <=? String.length s)%nat && (String.length s <=? n)%nat && allBytes isHexByte s.

(** *** package strconv *)

Inductive numError : Type := ErrSyntax | ErrRange.

Definition byteZ (c : ascii) : Z := Z.of_N (byteN c).

(** The digit a byte stands for in [ParseUint]: [0-9], then the letters
    of either case from 10. *)
Definition digitVal (c : ascii) : option Z :=
  if isDigit c then Some (byteZ c - 48)
  else if isLower c then Some (byteZ c - 97 + 10)
  else if isUpper c then Some (byteZ c - 65 + 10)
  else None.

Definition maxUint64 : Z := 2 ^ 64 - 1.

Fixpoint parseDigits (s : string) (base maxVal n : Z) : Z * option numError :=
  match s with
  | EmptyString => (n, None)
  | String c s' =>
      match digitVal c with
      | None => (0, Some ErrSyntax)
      | Some d =>
          if base <=? d then (0, Some ErrSyntax)
          else if maxUint64 / base + 1 <=? n then (maxVal, Some ErrRange)
          else
            let n1 := (n * base + d) mod 2 ^ 64 in
            if (n1 <? n * base) || (maxVal <? n1) then (maxVal, Some ErrRange)
            else parseDigits s' base maxVal n1
      end
  end.

(** [strconv.ParseUint(s, base, bitSize)] for [2 <= base <= 36] and
    [1 <= bitSize <= 64]: the value and the error.  The value is 0 with a
    syntax error and the largest [bitSize]-bit value with a range error. *)
Definition ParseUint (s : string) (base bitSize : Z) : Z * option numError :=
  match s with
  | EmptyString => (0, Some ErrSyntax)
  | _ => parseDigits s base (2 ^ bitSize - 1) 0
  end.

Fixpoint decimalFrom (s : string) (n : Z) : option Z :=
  match s with
  | EmptyString => Some n
  | String c s' =>
      if isDigit c then decimalFrom s' (n * 10 + (byteZ c - 48)) else None
  end.

(** [strconv.Atoi(s)] on a 64-bit platform: [Some n] when the error is
    [nil].  The program reads the value only in that case.  The text is an
    optional sign and one or more decimal digits, and the number fits an
    [int]. *)
Definition Atoi (s : string) : option Z :=
  match s with
  | EmptyString => None
  | String c r =>
      let neg := isByte 45 c in
      let body := if isByte 45 c || isByte 43 c then r else s in
      match body with
      | EmptyString => None
      | _ =>
          match decimalFrom body 0 with
          | None => None
          | Some v =>
              let n := if neg then - v else v in
              if (- 2 ^ 63 <=? n) && (n <=? 2 ^ 63 - 1) then Some n else None
          end
      end
  end.

Definition digitByte (d : Z) : ascii :=
  if d <? 10 then ascii_of_N (Z.to_N (48 + d)) else ascii_of_N (Z.to_N (97 + d - 10)).

Fixpoint digitsFrom (fuel : nat) (base n : Z) (acc : string) : string :=
  match fuel with
  | O => acc
  | S f =>
      let acc' := String (digitByte (n mod base)) acc in
      if n / base =? 0 then acc' else digitsFrom f base (n / base) acc'
  end.

(** The digits of [n >= 0] in [base], without padding. *)
Definition digits (base n : Z) : string :=
  digitsFrom (S (Z.to_nat (Z.log2 n))) base n EmptyString.

(** [strconv.Itoa] *)
Definition Itoa (n : Z) : string :=
  if n <? 0 then String "-" (digits 10 (- n)) else digits 10 n.

(** *** package fmt *)

(** [fmt.Sprintf("%x", b)] for a byte [0 <= b < 256]. *)
Definition Sprintf_x (b : Z) : string := digits 16 b.

Fixpoint zeros (n : nat) : string :=
  match n with O => EmptyString | S k => String "0" (zeros k) end.

Definition padLeft (width : nat) (s : string) : string :=
  zeros (width - String.length s) +:+ s.

(** [fmt.Sprintf("%04x", n)] for an [int]: the sign counts in the width. *)
Definition Sprintf_04x (n : Z) : string :=
  if n <? 0 then String "-" (padLeft 3 (digits 16 (- n)))
  else padLeft 4 (digits 16 n).

End Go.

Import Go.

(** ** Errors

    Every error of the program is [errors.New] of a message; [error] keeps
    the parts of the message, [errorString] puts the message together.
    Line numbers in errors are 1-based ([lineNum+1]). *)

Inductive error : Type :=
  | DuplicateConstant (line : Z) (constName : string)
  | UndefinedConstant (line : Z) (found : string)
  | NestedInclude (incName : string)
  | DuplicateLabel (line : Z) (srcLabel : string)
  | UnknownMnemonic (line : Z) (mnemonic : string)
  | InvalidDataWidth (line : Z) (bits : Z)
  | InvalidNullRepeat (line : Z) (data : string)
  | AddressOutOfRange (line : Z)
  | UndefinedLabel (line : Z) (opLabel : string)
  | WrongOperandArity (line : Z) (mnemonic : string) (numOps : Z)
  | InvalidOperand (line : Z) (op : string)
  | HostError (message : string)
  | RuntimePanic.

Inductive result (A : Type) : Type :=
  | Ok (a : A)
  | Err (e : error).

Arguments Ok {A} a.
Arguments Err {A} e.

Definition bind {A B : Type} (r : result A) (k : A -> result B) : result B :=
  match r with
  | Ok a => k a
  | Err e => Err e
  end.

Notation "x <- r ;; k" := (bind r (fun x => k))
  (at level 100, r at next level, right associativity).

Definition isOk {A : Type} (r : result A) : bool :=
  match r with Ok _ => true | Err _ => false end.

Definition tab : string := String (ascii_of_N 9) EmptyString.

Definition errorString (e : error) : string :=
  match e with
  | DuplicateConstant n c =>
      Itoa n +:+ ": Cannot redefine preprocessor constant " +:+ c
  | UndefinedConstant n c =>
      Itoa n +:+ ": Preprocessor constant " +:+ c +:+ " not defined"
  | NestedInclude i =>
      "Inc file " +:+ i +:+ " cannot contain includes of its own"
  | DuplicateLabel n l =>
      "Duplicate label found on line " +:+ Itoa n +:+ ": " +:+ l
  | UnknownMnemonic n m => Itoa n +:+ ":" +:+ tab +:+ "Invalid mnemonic " +:+ m
  | InvalidDataWidth n b =>
      Itoa n +:+ ":" +:+ tab +:+ "Invalid " +:+ Itoa b +:+ "-bit data in directive"
  | InvalidNullRepeat n d =>
      Itoa n +:+ ":" +:+ tab +:+ "Invalid data null repeat " +:+ d
  | AddressOutOfRange n => Itoa n +:+ ":" +:+ tab +:+ "Address out of range"
  | UndefinedLabel n l =>
      Itoa n +:+ ":" +:+ tab +:+ "Label " +:+ l +:+ " not defined"
  | WrongOperandArity n m k =>
      Itoa n +:+ ":" +:+ tab +:+ m +:+ " needs " +:+
      (if k =? 0 then "no operands"
       else if k =? 1 then "one operand" else "two operands")
  | InvalidOperand n o => Itoa n +:+ ":" +:+ tab +:+ "Invalid operand " +:+ o
  | HostError m => m
  | RuntimePanic => "panic: runtime error: slice bounds out of range"
  end.

(** ** The preprocessor *)

Definition constStartToken : string := "[".
Definition incToken : string := "<".
Definition dataLineToken : string := "$".
Definition namespaceDlm : ascii := ".".

(** [file.IncExt] *)
Definition IncExt : string := "._rasm".

(** The literal the package variable [defaultConsts] is initialised with. *)
Definition builtinConsts : list (string * string) :=
  [ ("[SP]", "FFB0"); ("[IO]", "FFB2"); ("[PC]", "FFB4"); ("[ST]", "FFB6");
    ("[UN0]", "FFB8"); ("[UN1]", "FFBA"); ("[UN2]", "FFBC"); ("[UN3]", "FFBE");
    ("[IRQ0]", "FFC0"); ("[IRQ1]", "FFC2"); ("[IRQ2]", "FFC4"); ("[IRQ3]", "FFC6");
    ("[IRQ4]", "FFC8"); ("[IRQ5]", "FFCA"); ("[IRQ6]", "FFCC"); ("[IRQ7]", "FFCE");
    ("[IN0]", "FFD0"); ("[IN1]", "FFD2"); ("[IN2]", "FFD4"); ("[IN3]", "FFD6");
    ("[IN4]", "FFD8"); ("[IN5]", "FFDA"); ("[IN6]", "FFDC"); ("[IN7]", "FFDE");
    ("[OUT0]", "FFE0"); ("[OUT1]", "FFE2"); ("[OUT2]", "FFE4"); ("[OUT3]", "FFE6");
    ("[OUT4]", "FFE8"); ("[OUT5]", "FFEA"); ("[OUT6]", "FFEC"); ("[OUT7]", "FFEE");
    ("[GP0]", "FFF0"); ("[GP0L]", "FFF1"); ("[GP1]", "FFF2"); ("[GP1L]", "FFF3");
    ("[GP2]", "FFF4"); ("[GP2L]", "FFF5"); ("[GP3]", "FFF6"); ("[GP3L]", "FFF7");
    ("[GP4]", "FFF8"); ("[GP4L]", "FFF9"); ("[GP5]", "FFFA"); ("[GP5L]", "FFFB");
    ("[GP6]", "FFFC"); ("[GP6L]", "FFFD"); ("[GP7]", "FFFE"); ("[GP7L]", "FFFF");
    ("[TRUE]", "0001"); ("[FALSE]", "FFFF"); ("[NULL]", "0000") ].

(** The state of the package that outlives a call: the map the variable
    [defaultConsts] refers to, which [getConsts] writes to through its alias
    [consts := defaultConsts], and the number of [range] loops over that map
    run so far.  Go leaves the order of a [range] over a map open and
    changes it from one loop to the next: the order of the loop number [n]
    over the map [m] is the parameter [rangeOrder n m]. *)
Record world : Type := mkWorld {
  defaultConsts : gmap string string;
  ranges : nat
}.

(** The state a process starts with. *)
Definition initialWorld : world :=
  {| defaultConsts := list_to_map builtinConsts; ranges := 0 |}.

(** [consts[key]], the empty string for a missing key. *)
Definition constAt (consts : gmap string string) (key : string) : string :=
  default EmptyString (consts !! key).

Definition startsWith (token srcLine : string) : bool :=
  nonEmpty srcLine && String.eqb (first1 srcLine) token.

(** [cleanSrc] removes comments and extraneous whitespace. *)
Definition cleanLine (srcLine : string) : string :=
  TrimSpace (collapseSpaces (removeComments srcLine false)).

Definition cleanSrc (srcLines : list string) : list string :=
  map cleanLine srcLines.

(** [getConsts]: [consts] is the map of the package itself, not a copy, so
    that every [consts[constName] = constValue] lands in the state; the
    entries written before an error stay.  [constValue[1:]] panics when the
    line has no [`\].+`]. *)
Fixpoint getConstsFrom (lineNum : Z) (srcLines : list string)
    (consts : gmap string string) : result unit * gmap string string :=
  match srcLines with
  | [] => (Ok tt, consts)
  | srcLine :: rest =>
      if nonEmpty srcLine && String.eqb (first1 srcLine) "[" then
        let constName := findConstName srcLine in
        match consts !! constName with
        | Some _ => (Err (DuplicateConstant (lineNum + 1) constName), consts)
        | None =>
            match findConstValue srcLine with
            | EmptyString => (Err RuntimePanic, consts)
            | String _ constValue =>
                getConstsFrom (lineNum + 1) rest
                  (<[constName := TrimSpace constValue]> consts)
            end
        end
      else getConstsFrom (lineNum + 1) rest consts
  end.

Definition getConsts (srcLines : list string) (w : world)
    : result (gmap string string) * world :=
  let '(r, consts) := getConstsFrom 0 srcLines (defaultConsts w) in
  (_ <- r ;; Ok consts, {| defaultConsts := consts; ranges := ranges w |}).

Section Assemble.

(** [file.ReadSrc]: the lines of an include file, or the error of the
    host. *)
Variable ReadSrc : string -> result (list string).

(** The order of each [range] over the constants, see [world]. *)
Variable rangeOrder : nat -> gmap string string -> list (string * string).

(** [unicode.ToUpper] over a string that is not ASCII-only. *)
Variable unicodeUpper : string -> string.

(** The inner loop of [expandConsts] over one line. *)
Definition substConsts (order : list (string * string)) (srcLine : string) : string :=
  fold_left (fun expandedLine kv => ReplaceAll expandedLine (fst kv) (snd kv))
    order srcLine.

Fixpoint expandConstsFrom (lineNum : Z) (srcLines : list string)
    (expandedConsts : gmap string string) (n : nat) : result (list string) * nat :=
  match srcLines with
  | [] => (Ok [], n)
  | srcLine :: rest =>
      if nonEmpty srcLine then
        if negb (String.eqb (first1 srcLine) constStartToken) then
          let expandedLine := substConsts (rangeOrder n expandedConsts) srcLine in
          let foundUnmatched := findConstName expandedLine in
          if nonEmpty foundUnmatched then
            (Err (UndefinedConstant (lineNum + 1) foundUnmatched), S n)
          else
            let '(r, n') := expandConstsFrom (lineNum + 1) rest expandedConsts (S n) in
            (l <- r ;; Ok (expandedLine :: l), n')
        else
          let '(r, n') := expandConstsFrom (lineNum + 1) rest expandedConsts n in
          (l <- r ;; Ok (EmptyString :: l), n')
      else
        let '(r, n') := expandConstsFrom (lineNum + 1) rest expandedConsts n in
        (l <- r ;; Ok (srcLine :: l), n')
  end.

(** [expandConsts] translates preprocessor constants to their values. *)
Definition expandConsts (srcLines : list string) (w : world)
    : result (list string) * world :=
  match getConsts srcLines w with
  | (Err e, w') => (Err e, w')
  | (Ok expandedConsts, w') =>
      let '(r, n) := expandConstsFrom 0 srcLines expandedConsts (ranges w') in
      (r, {| defaultConsts := defaultConsts w'; ranges := n |})
  end.

(** [addSrcLabelNamespaces] *)
Definition qualify (namespace s : string) : string :=
  if ContainsByte s namespaceDlm then s
  else namespace +:+ String namespaceDlm EmptyString +:+ s.

Definition addSrcLabelNamespaces (srcLines : list string) (srcName : string)
    : list string :=
  let namespace := hd EmptyString (SplitN2 srcName namespaceDlm) in
  map (fun srcLine =>
         if nonEmpty srcLine && negb (String.eqb (first1 srcLine) incToken)
            && negb (String.eqb (first1 srcLine) dataLineToken)
         then replaceLabels (qualify namespace) srcLine
         else srcLine) srcLines.

(** [hasInclude] *)
Definition hasInclude (srcLines : list string) : bool :=
  existsb (startsWith incToken) srcLines.

(** [addIncludes] *)
Fixpoint addIncludes (srcLines : list string) (w : world)
    : result (list string) * world :=
  match srcLines with
  | [] => (Ok [], w)
  | srcLine :: rest =>
      if startsWith incToken srcLine then
        let incName := TrimSpace (dropBytes 1 srcLine) +:+ IncExt in
        match ReadSrc incName with
        | Err e => (Err e, w)
        | Ok rawIncLines =>
            match expandConsts (cleanSrc rawIncLines) w with
            | (Err e, w') => (Err e, w')
            | (Ok expanded, w') =>
                if hasInclude expanded then (Err (NestedInclude incName), w')
                else
                  let '(r, w'') := addIncludes rest w' in
                  (l <- r ;; Ok (addSrcLabelNamespaces expanded incName ++ l), w'')
            end
        end
      else
        let '(r, w') := addIncludes rest w in
        (l <- r ;; Ok (srcLine :: l), w')
  end.

(** ** src_to_struct.go: the structural parser *)

Definition mnemonicOpDlm : ascii := " ".
Definition opDlm : ascii := ",".
Definition srcLabelMinLen : nat := 5.

Inductive opType : Type := invalidOp | addressOp | literalOp | pointerOp.

Record srcLine : Type := mkSrcLine {
  lineNum : Z;
  label : string;
  address : Z;
  mnemonic : string;
  op1Type : opType;
  op1 : string;
  op2Type : opType;
  op2 : string;
  data : string;
  bin : list Z
}.

(** [isSrcLabel] *)
Definition isSrcLabel (srcLine : string) : bool :=
  (srcLabelMinLen <=? String.length srcLine)%nat && matchLabelLine srcLine.

(** [hasDupeSrcLabels]: the duplicate and its line index, if any. *)
Fixpoint hasDupeSrcLabelsFrom (lineNum : Z) (srcLines : list string)
    (srcLabels : gset string) : option (string * Z) :=
  match srcLines with
  | [] => None
  | srcLine :: rest =>
      if nonEmpty srcLine && isSrcLabel srcLine then
        if bool_decide (srcLine ∈ srcLabels) then Some (srcLine, lineNum)
        else hasDupeSrcLabelsFrom (lineNum + 1) rest ({[srcLine]} ∪ srcLabels)
      else hasDupeSrcLabelsFrom (lineNum + 1) rest srcLabels
  end.

Definition hasDupeSrcLabels (srcLines : list string) : option (string * Z) :=
  hasDupeSrcLabelsFrom 0 srcLines ∅.

(** [getSrcLabel]: [n] is [currentLineNum + 1]. *)
Fixpoint getSrcLabel (srcLines : list string) (n : nat) : string :=
  match n with
  | O => EmptyString
  | S k =>
      match srcLines !! k with
      | Some l =>
          if nonEmpty l then (if isSrcLabel l then l else EmptyString)
          else getSrcLabel srcLines k
      | None => EmptyString
      end
  end.

(** [splitSrcCodeLine] *)
Definition splitSrcCodeLine (line : string) : string * string * string :=
  match SplitN2 line mnemonicOpDlm with
  | m :: ops :: _ =>
      match SplitN2 ops opDlm with
      | o1 :: o2 :: _ => (m, o1, o2)
      | o1 :: _ => (m, o1, EmptyString)
      | [] => (m, EmptyString, EmptyString)
      end
  | m :: _ => (m, EmptyString, EmptyString)
  | [] => (EmptyString, EmptyString, EmptyString)
  end.

(** [isSrcDataLine] *)
Definition isSrcDataLine (line : string) : bool := startsWith dataLineToken line.

(** [splitSrcDataLine] *)
Definition splitSrcDataLine (line : string) : string * string :=
  match SplitN2 line mnemonicOpDlm with
  | m :: d :: _ => (m, d)
  | m :: _ => (m, EmptyString)
  | [] => (EmptyString, EmptyString)
  end.

(** [opTokens] *)
Definition opTokens (t : opType) : string :=
  match t with
  | literalOp => "$"
  | pointerOp => "*"
  | _ => EmptyString
  end.

(** [getOpType] *)
Definition getOpType (op : string) : opType :=
  if nonEmpty op then
    if String.eqb (first1 op) (opTokens literalOp) then literalOp
    else if String.eqb (first1 op) (opTokens pointerOp) then pointerOp
    else addressOp
  else invalidOp.

(** [splitOp] *)
Definition splitOp (op : string) : opType * string :=
  let cleanOp := TrimSpace op in
  match getOpType cleanOp with
  | literalOp => (literalOp, dropBytes 1 cleanOp)
  | pointerOp => (pointerOp, dropBytes 1 cleanOp)
  | t => (t, cleanOp)
  end.

Definition structLine (srcLines : list string) (i : nat) (srcLineString : string)
    : srcLine :=
  let srcLabel := getSrcLabel srcLines i in
  if isSrcDataLine srcLineString then
    let '(m, d) := splitSrcDataLine srcLineString in
    {| lineNum := Z.of_nat i; label := srcLabel; address := 0; mnemonic := m;
       op1Type := invalidOp; op1 := EmptyString;
       op2Type := invalidOp; op2 := EmptyString; data := d; bin := [] |}
  else
    let '(m, o1, o2) := splitSrcCodeLine srcLineString in
    let '(t1, v1) := splitOp o1 in
    let '(t2, v2) := splitOp o2 in
    {| lineNum := Z.of_nat i; label := srcLabel; address := 0;
       mnemonic := ToUpper unicodeUpper m;
       op1Type := t1; op1 := v1; op2Type := t2; op2 := v2;
       data := EmptyString; bin := [] |}.

Fixpoint buildStructSrcFrom (srcLines : list string) (i : nat) (rest : list string)
    : list srcLine :=
  match rest with
  | [] => []
  | srcLineString :: rest' =>
      if nonEmpty srcLineString && negb (isSrcLabel srcLineString) then
        structLine srcLines i srcLineString :: buildStructSrcFrom srcLines (S i) rest'
      else buildStructSrcFrom srcLines (S i) rest'
  end.

(** [buildStructSrc] *)
Definition buildStructSrc (srcLines : list string) : list srcLine :=
  buildStructSrcFrom srcLines 0 srcLines.

(** ** process_struct.go: normalizer, validator, resolver *)

(** [maxAddressSpace], leaving space for the call stack below the stack
    pointer. *)
Definition maxAddressSpace : Z := 0xFFB0 - 2 * 128.

Definition srcStringToken : string := String "034" EmptyString.
Definition nullRepeatStartToken : string := "(".
Definition nullRepeatEndToken : string := ")".
Definition dataDlm : ascii := ",".

Inductive directiveType : Type :=
  invalidDirective | data8BitDirective | data16BitDirective.

(** [directiveTokens] *)
Definition directiveTokens (d : directiveType) : string :=
  match d with
  | data8BitDirective => "$8"
  | data16BitDirective => "$16"
  | invalidDirective => EmptyString
  end.

(** [mnemonicAliases] *)
Definition mnemonicAliases : gmap string string :=
  list_to_map
    [ ("CO", "CO16"); ("AD", "AD16"); ("SU", "SU16"); ("MU", "MU16");
      ("DV", "DV16"); ("ND", "ND16"); ("OR", "OR16"); ("XR", "XR16");
      ("SL", "SL16"); ("SR", "SR16"); ("CM", "CM16"); ("$", "$16") ].

Record mnemonicT : Type := mkMnemonic {
  descr : string;
  opcode : Z;
  numOps : Z;
  instrLength : Z
}.

Definition mnemonicList : list (string * mnemonicT) :=
  [ ("NO", mkMnemonic "NO OPERATION" 0x00 0 1);
    ("CO8", mkMnemonic "COPY" 0x01 2 5);
    ("CO16", mkMnemonic "COPY" 0x02 2 5);
    ("AD8", mkMnemonic "ADD" 0x03 2 5);
    ("AD16", mkMnemonic "ADD" 0x04 2 5);
    ("SU8", mkMnemonic "SUBTRACT" 0x05 2 5);
    ("SU16", mkMnemonic "SUBTRACT" 0x06 2 5);
    ("MU8", mkMnemonic "MULTIPLY" 0x07 2 5);
    ("MU16", mkMnemonic "MULTIPLY" 0x08 2 5);
    ("DV8", mkMnemonic "DIVIDE" 0x09 2 5);
    ("DV16", mkMnemonic "DIVIDE" 0x0A 2 5);
    ("ND8", mkMnemonic "BITWISE AND" 0x0B 2 5);
    ("ND16", mkMnemonic "BITWISE AND" 0x0C 2 5);
    ("OR8", mkMnemonic "BITWISE OR" 0x0D 2 5);
    ("OR16", mkMnemonic "BITWISE OR" 0x0E 2 5);
    ("XR8", mkMnemonic "BITWISE XOR" 0x0F 2 5);
    ("XR16", mkMnemonic "BITWISE XOR" 0x10 2 5);
    ("SL8", mkMnemonic "BITWISE SHIFT LEFT" 0x11 2 5);
    ("SL16", mkMnemonic "BITWISE SHIFT LEFT" 0x12 2 5);
    ("SR8", mkMnemonic "BITWISE SHIFT RIGHT" 0x13 2 5);
    ("SR16", mkMnemonic "BITWISE SHIFT RIGHT" 0x15 2 5);
    ("CM8", mkMnemonic "COMPARE" 0x15 2 5);
    ("CM16", mkMnemonic "COMPARE" 0x16 2 5);
    ("EQ", mkMnemonic "JUMP IF EQUAL" 0x17 1 3);
    ("NE", mkMnemonic "JUMP IF NOT EQUAL" 0x18 1 3);
    ("LT", mkMnemonic "JUMP IF LESS THAN" 0x19 1 3);
    ("GT", mkMnemonic "JUMP IF GREATER THAN" 0x1A 1 3);
    ("EL", mkMnemonic "JUMP IF EQUAL OR LESS THAN" 0x1B 1 3);
    ("EG", mkMnemonic "JUMP IF EQUAL OR GREATER THAN" 0x1C 1 3);
    ("JM", mkMnemonic "JUMP" 0x1D 0 1);
    ("JS", mkMnemonic "JUMP TO SUBROUTINE" 0x1E 2 5);
    ("RT", mkMnemonic "RETURN" 0x1F 1 3);
    ("$8", mkMnemonic "DATA DIRECTIVE" 0x00 0 0);
    ("$16", mkMnemonic "DATA DIRECTIVE" 0x00 0 0) ].

(** [mnemonics] *)
Definition mnemonics : gmap string mnemonicT := list_to_map mnemonicList.

(** [mnemonics[m]]: the zero value for a missing key. *)
Definition mnemonicAt (m : string) : mnemonicT :=
  default (mkMnemonic EmptyString 0 0 0) (mnemonics !! m).

Definition withMnemonic (s : srcLine) (m : string) : srcLine :=
  {| lineNum := lineNum s; label := label s; address := address s;
     mnemonic := m; op1Type := op1Type s; op1 := op1 s;
     op2Type := op2Type s; op2 := op2 s; data := data s; bin := bin s |}.

Definition withData (s : srcLine) (d : string) : srcLine :=
  {| lineNum := lineNum s; label := label s; address := address s;
     mnemonic := mnemonic s; op1Type := op1Type s; op1 := op1 s;
     op2Type := op2Type s; op2 := op2 s; data := d; bin := bin s |}.

Definition withAddress (s : srcLine) (a : Z) : srcLine :=
  {| lineNum := lineNum s; label := label s; address := a;
     mnemonic := mnemonic s; op1Type := op1Type s; op1 := op1 s;
     op2Type := op2Type s; op2 := op2 s; data := data s; bin := bin s |}.

Definition withOp1 (s : srcLine) (o : string) : srcLine :=
  {| lineNum := lineNum s; label := label s; address := address s;
     mnemonic := mnemonic s; op1Type := op1Type s; op1 := o;
     op2Type := op2Type s; op2 := op2 s; data := data s; bin := bin s |}.

Definition withOp2 (s : srcLine) (o : string) : srcLine :=
  {| lineNum := lineNum s; label := label s; address := address s;
     mnemonic := mnemonic s; op1Type := op1Type s; op1 := op1 s;
     op2Type := op2Type s; op2 := o; data := data s; bin := bin s |}.

Definition withBin (s : srcLine) (b : list Z) : srcLine :=
  {| lineNum := lineNum s; label := label s; address := address s;
     mnemonic := mnemonic s; op1Type := op1Type s; op1 := op1 s;
     op2Type := op2Type s; op2 := op2 s; data := data s; bin := b |}.

(** [unaliasMnemonics] *)
Definition unaliasMnemonic (s : srcLine) : srcLine :=
  match mnemonicAliases !! mnemonic s with
  | Some canonical => withMnemonic s canonical
  | None => s
  end.

Definition unaliasMnemonics (srcLines : list srcLine) : list srcLine :=
  map unaliasMnemonic srcLines.

(** [isValidDataDirective] *)
Definition isValidDataDirective (m : string) : bool :=
  String.eqb m (directiveTokens data8BitDirective)
  || String.eqb m (directiveTokens data16BitDirective).

(** [isDataNullRepeat] *)
Definition isDataNullRepeat (d : string) : bool :=
  (0 <? len d) && String.eqb (first1 d) nullRepeatStartToken
  && String.eqb (last1 d) nullRepeatEndToken.

(** The loop of [expandDataNullRepeats]: [i] runs from 1 while
    [i < num_repeats], then one more value is appended. *)
Fixpoint appendTimes (k : nat) (d piece : string) : string :=
  match k with
  | O => d
  | S k' => appendTimes k' (d +:+ piece) piece
  end.

Definition nullRepeat (null : string) (num_repeats : Z) : string :=
  appendTimes (Z.to_nat (num_repeats - 1)) EmptyString
    (null +:+ String dataDlm EmptyString)
  +:+ null.

(** [expandDataNullRepeats]; [consts] is the map of [defaultConsts], which
    the loop reads at ["[NULL]"]. *)
Fixpoint expandDataNullRepeats (consts : gmap string string)
    (srcLines : list srcLine) : result (list srcLine) :=
  match srcLines with
  | [] => Ok []
  | s :: rest =>
      if isValidDataDirective (mnemonic s) && isDataNullRepeat (data s) then
        match Atoi (takeBytes (String.length (data s) - 2) (dropBytes 1 (data s))) with
        | None => Err (InvalidNullRepeat (lineNum s + 1) (data s))
        | Some num_repeats =>
            l <- expandDataNullRepeats consts rest ;;
            Ok (withData s (nullRepeat (constAt consts "[NULL]") num_repeats) :: l)
        end
      else l <- expandDataNullRepeats consts rest ;; Ok (s :: l)
  end.

(** [isDataString] *)
Definition isDataString (d : string) : bool :=
  (0 <? len d) && String.eqb (first1 d) srcStringToken
  && String.eqb (last1 d) srcStringToken.

(** [dataStringToHex] *)
Definition dataStringToHex (dataString : string) : string :=
  Join (map (fun b => ToUpper unicodeUpper (Sprintf_x (byteZ b)))
          (list_ascii_of_string dataString))
       (String dataDlm EmptyString).

(** [convDataStringsToHex] *)
Definition convDataString (s : srcLine) : srcLine :=
  if String.eqb (mnemonic s) (directiveTokens data8BitDirective)
     && isDataString (data s)
  then withData s (dataStringToHex (data s))
  else s.

Definition convDataStringsToHex (srcLines : list srcLine) : list srcLine :=
  map convDataString srcLines.

(** [validateMnemonics] *)
Fixpoint validateMnemonics (srcLines : list srcLine) : result unit :=
  match srcLines with
  | [] => Ok tt
  | s :: rest =>
      match mnemonics !! mnemonic s with
      | None => Err (UnknownMnemonic (lineNum s + 1) (mnemonic s))
      | Some _ => validateMnemonics rest
      end
  end.

(** [is16BitHexString], [is8BitHexString] and the slice versions *)
Definition is16BitHexString (hex : string) : bool := matchHex 4 hex.
Definition is8BitHexString (hex : string) : bool := matchHex 2 hex.
Definition is16BitHexStrings (hex : list string) : bool := forallb is16BitHexString hex.
Definition is8BitHexStrings (hex : list string) : bool := forallb is8BitHexString hex.

(** [validateDataDirectives] *)
Fixpoint validateDataDirectives (srcLines : list srcLine) : result unit :=
  match srcLines with
  | [] => Ok tt
  | s :: rest =>
      if String.eqb (mnemonic s) (directiveTokens data8BitDirective) then
        if negb (is8BitHexStrings (Split (data s) dataDlm))
        then Err (InvalidDataWidth (lineNum s + 1) 8)
        else validateDataDirectives rest
      else if String.eqb (mnemonic s) (directiveTokens data16BitDirective) then
        if negb (is16BitHexStrings (Split (data s) dataDlm))
        then Err (InvalidDataWidth (lineNum s + 1) 16)
        else validateDataDirectives rest
      else validateDataDirectives rest
  end.

(** What one statement adds to the program counter in [calcAddresses]. *)
Definition stepLength (s : srcLine) : Z :=
  if isValidDataDirective (mnemonic s) then
    let splitData := Split (data s) dataDlm in
    if String.eqb (mnemonic s) (directiveTokens data8BitDirective)
    then Z.of_nat (length splitData)
    else if String.eqb (mnemonic s) (directiveTokens data16BitDirective)
    then 2 * Z.of_nat (length splitData)
    else 0
  else instrLength (mnemonicAt (mnemonic s)).

Fixpoint calcAddressesFrom (programCounter : Z) (srcLines : list srcLine)
    : result (list srcLine) :=
  match srcLines with
  | [] => Ok []
  | s :: rest =>
      let programCounter' := programCounter + stepLength s in
      if maxAddressSpace <=? programCounter'
      then Err (AddressOutOfRange (lineNum s + 1))
      else l <- calcAddressesFrom programCounter' rest ;;
           Ok (withAddress s programCounter :: l)
  end.

(** [calcAddresses]; [programOffset] is a [uint16]. *)
Definition calcAddresses (srcLines : list srcLine) (programOffset : Z)
    : result (list srcLine) :=
  calcAddressesFrom programOffset srcLines.

(** [getLabelAddresses] *)
Definition getLabelAddresses (srcLines : list srcLine) : gmap string Z :=
  fold_left (fun labelAddresses s =>
               if nonEmpty (label s) then <[label s := address s]> labelAddresses
               else labelAddresses)
    srcLines ∅.

(** [getOpLabel] *)
Definition getOpLabel (op : string) : string := findLabel op.

(** One operand of [expandLabels]. *)
Definition expandOp (labelAddresses : gmap string Z) (line : Z) (op : string)
    : result string :=
  if nonEmpty op then
    let opLabel := getOpLabel op in
    if nonEmpty opLabel then
      match labelAddresses !! opLabel with
      | Some a => Ok (ReplaceFirst op opLabel (ToUpper unicodeUpper (Sprintf_04x a)))
      | None => Err (UndefinedLabel line opLabel)
      end
    else Ok op
  else Ok op.

(** [expandLabels] *)
Fixpoint expandLabels (srcLines : list srcLine) (labelAddresses : gmap string Z)
    : result (list srcLine) :=
  match srcLines with
  | [] => Ok []
  | s :: rest =>
      o1 <- expandOp labelAddresses (lineNum s + 1) (op1 s) ;;
      o2 <- expandOp labelAddresses (lineNum s + 1) (op2 s) ;;
      l <- expandLabels rest labelAddresses ;;
      Ok (withOp2 (withOp1 s o1) o2 :: l)
  end.

(** [isValidHexString] *)
Definition isValidHexString (hex : string) : bool :=
  is16BitHexString hex || is8BitHexString hex.

Definition validateOp (s : srcLine) : result unit :=
  if negb (isValidDataDirective (mnemonic s)) then
    let n := numOps (mnemonicAt (mnemonic s)) in
    if (n =? 0) && (nonEmpty (op1 s) || nonEmpty (op2 s))
    then Err (WrongOperandArity (lineNum s + 1) (mnemonic s) 0)
    else if (n =? 1) && (negb (nonEmpty (op1 s)) || nonEmpty (op2 s))
    then Err (WrongOperandArity (lineNum s + 1) (mnemonic s) 1)
    else if (n =? 2) && (negb (nonEmpty (op1 s)) || negb (nonEmpty (op2 s)))
    then Err (WrongOperandArity (lineNum s + 1) (mnemonic s) 2)
    else if nonEmpty (op1 s) && negb (isValidHexString (op1 s))
    then Err (InvalidOperand (lineNum s + 1) (op1 s))
    else if nonEmpty (op2 s) && negb (isValidHexString (op2 s))
    then Err (InvalidOperand (lineNum s + 1) (op2 s))
    else Ok tt
  else Ok tt.

(** [validateOps] *)
Fixpoint validateOps (srcLines : list srcLine) : result unit :=
  match srcLines with
  | [] => Ok tt
  | s :: rest => _ <- validateOp s ;; validateOps rest
  end.

(** ** struct_to_bin.go: the binary encoder *)

(** [binMagicHeader], 0x12311C16 == RELIC16 *)
Definition binMagicHeader : list Z := [0x12; 0x31; 0x1C; 0x16].

(** The conversions [byte(x)] and [uint16(x)]. *)
Definition toByte (x : Z) : Z := x mod 256.
Definition toUint16 (x : Z) : Z := x mod 65536.

(** [splitUint16]: [(high8, low8)] *)
Definition splitUint16 (srcInt : Z) : Z * Z :=
  let low8 := toByte srcInt in
  let high8 := toByte (Z.shiftr srcInt 8) in
  (high8, low8).

(** [appendUint16] *)
Definition appendUint16 (b : list Z) (srcInt : Z) : list Z :=
  let '(high8, low8) := splitUint16 srcInt in
  (b ++ [high8]) ++ [low8].

(** [buildData]: the error of [strconv.ParseUint] is dropped
    ([data64, _ = ...]). *)
Definition buildData (s : srcLine) : srcLine :=
  let splitData := Split (data s) dataDlm in
  if String.eqb (mnemonic s) (directiveTokens data8BitDirective) then
    withBin s
      (fold_left (fun b d => b ++ [toByte (fst (ParseUint d 16 8))]) splitData (bin s))
  else if String.eqb (mnemonic s) (directiveTokens data16BitDirective) then
    withBin s
      (fold_left (fun b d => appendUint16 b (toUint16 (fst (ParseUint d 16 16))))
         splitData (bin s))
  else s.

(** The selector [buildOpcode] ors into the opcode; the last case is the
    chain of [if]s falling through. *)
Definition opSelector (t1 t2 : opType) : Z :=
  match t1, t2 with
  | literalOp, addressOp => 0x00
  | literalOp, pointerOp => 0x01
  | addressOp, addressOp => 0x02
  | addressOp, pointerOp => 0x03
  | pointerOp, addressOp => 0x04
  | pointerOp, pointerOp => 0x05
  | _, _ => 0x00
  end.

(** [buildOpcode]; [opcode <<= 3] is on a [byte]. *)
Definition buildOpcode (s : srcLine) : srcLine :=
  let opcode0 := toByte (Z.shiftl (opcode (mnemonicAt (mnemonic s))) 3) in
  withBin s (bin s ++ [Z.lor opcode0 (opSelector (op1Type s) (op2Type s))]).

(** [buildOps] *)
Definition buildOps (s : srcLine) : srcLine :=
  let n := instrLength (mnemonicAt (mnemonic s)) in
  if n =? 3 then
    withBin s (appendUint16 (bin s) (toUint16 (fst (ParseUint (op1 s) 16 16))))
  else if n =? 5 then
    withBin s
      (appendUint16
         (appendUint16 (bin s) (toUint16 (fst (ParseUint (op1 s) 16 16))))
         (toUint16 (fst (ParseUint (op2 s) 16 16))))
  else s.

(** [buildInstr] *)
Definition buildInstr (s : srcLine) : srcLine := buildOps (buildOpcode s).

(** [buildBinSrcLines] *)
Definition buildBinSrcLine (s : srcLine) : srcLine :=
  if isValidDataDirective (mnemonic s) then buildData s else buildInstr s.

Definition buildBinSrcLines (srcLines : list srcLine) : list srcLine :=
  map buildBinSrcLine srcLines.

(** [buildBin] *)
Definition buildBin (srcLines : list srcLine) (programOffset : Z) : list Z :=
  fold_left (fun b s => b ++ bin s) srcLines
    (appendUint16 binMagicHeader programOffset).

(** ** The entry point *)

(** The steps of [Raw] on the structured source, from [unaliasMnemonics]
    to [buildBin]. *)
Definition assembleStruct (consts : gmap string string) (srcLines : list srcLine)
    (programOffset : Z) : result (list Z) :=
  let srcLines := unaliasMnemonics srcLines in
  let srcLines := convDataStringsToHex srcLines in
  srcLines <- expandDataNullRepeats consts srcLines ;;
  _ <- validateMnemonics srcLines ;;
  _ <- validateDataDirectives srcLines ;;
  srcLines <- calcAddresses srcLines programOffset ;;
  let labelAddresses := getLabelAddresses srcLines in
  srcLines <- expandLabels srcLines labelAddresses ;;
  _ <- validateOps srcLines ;;
  let srcLines := buildBinSrcLines srcLines in
  Ok (buildBin srcLines programOffset).

(** [Raw] orchestrates the complete assembly process; [programOffset] is a
    [uint16]. *)
Definition Raw (rawSrcLines : list string) (srcName : string) (programOffset : Z)
    (w : world) : result (list Z) * world :=
  let rawSrcLines := cleanSrc rawSrcLines in
  match expandConsts rawSrcLines w with
  | (Err e, w1) => (Err e, w1)
  | (Ok rawSrcLines, w1) =>
      let rawSrcLines := addSrcLabelNamespaces rawSrcLines srcName in
      match addIncludes rawSrcLines w1 with
      | (Err e, w2) => (Err e, w2)
      | (Ok rawSrcLines, w2) =>
          match hasDupeSrcLabels rawSrcLines with
          | Some (srcLabel, lineNum) =>
              (Err (DuplicateLabel (lineNum + 1) srcLabel), w2)
          | None =>
              (assembleStruct (defaultConsts w2) (buildStructSrc rawSrcLines)
                 programOffset, w2)
          end
      end
  end.

End Assemble.

(** * Definitions used in the statements *)

(** A constant name as [findConstName] returns it starts with a bracket. *)
Definition bracketed (k : string) : bool :=
  match k with
  | String c _ => isByte 91 c
  | EmptyString => false
  end.

(** The number a hexadecimal numeral denotes, most significant digit
    first. *)
Definition hexDigitValue (c : ascii) : Z :=
  if isDigit c then byteZ c - 48
  else if inRange 97 102 c then byteZ c - 87
  else if inRange 65 70 c then byteZ c - 55
  else 0.

Fixpoint hexFrom (s : string) (n : Z) : Z :=
  match s with
  | EmptyString => n
  | String c s' => hexFrom s' (n * 16 + hexDigitValue c)
  end.

Definition hexValue (s : string) : Z := hexFrom s 0.

(** A 16-bit word as two bytes, the high byte first. *)
Definition be16 (v : Z) : list Z := [v / 256; v mod 256].

(** The operand-type selector as the specification tables it: the six
    legal combinations, and no entry for any other pair. *)
Definition specSelector (t1 t2 : opType) : option Z :=
  match t1, t2 with
  | literalOp, addressOp => Some 0
  | literalOp, pointerOp => Some 1
  | addressOp, addressOp => Some 2
  | addressOp, pointerOp => Some 3
  | pointerOp, addressOp => Some 4
  | pointerOp, pointerOp => Some 5
  | _, _ => None
  end.

(** The operand bytes the specification puts after the opcode byte:
    none for length 1, one 16-bit word for length 3, two for length 5. *)
Definition specOperands (s : srcLine) : list Z :=
  let n := instrLength (mnemonicAt (mnemonic s)) in
  if n =? 3 then be16 (hexValue (op1 s))
  else if n =? 5 then be16 (hexValue (op1 s)) ++ be16 (hexValue (op2 s))
  else [].

(** What holds of every descriptor of [mnemonics]: the opcode has five
    bits, and the length is 0 (directives), 1, 3 or 5 with 0, 0, 1 or 2
    operands. *)
Definition descriptorOk (d : mnemonicT) : bool :=
  (0 <=? opcode d) && (opcode d <? 32)
  && (((instrLength d =? 0) && (numOps d =? 0))
      || ((instrLength d =? 1) && (numOps d =? 0))
      || ((instrLength d =? 3) && (numOps d =? 1))
      || ((instrLength d =? 5) && (numOps d =? 2))).

(** The arguments of the calls of [strconv.ParseUint] the encoder makes
    for one statement, each with its [bitSize]: one per data value in
    [buildData], [op1] or [op1], [op2] in [buildOps]. *)
Definition parseCalls (s : srcLine) : list (string * Z) :=
  if isValidDataDirective (mnemonic s) then
    if String.eqb (mnemonic s) (directiveTokens data8BitDirective)
    then map (fun d => (d, 8)) (Split (data s) dataDlm)
    else if String.eqb (mnemonic s) (directiveTokens data16BitDirective)
    then map (fun d => (d, 16)) (Split (data s) dataDlm)
    else []
  else if instrLength (mnemonicAt (mnemonic s)) =? 3 then [(op1 s, 16)]
  else if instrLength (mnemonicAt (mnemonic s)) =? 5 then [(op1 s, 16); (op2 s, 16)]
  else [].

(** The bytes the statements of [l] take: what [calcAddresses] has added
    to the program counter after them. *)
Definition totalLength (l : list srcLine) : Z :=
  fold_right (fun s n => stepLength s + n) 0 l.

(** A data directive as [buildStructSrc] makes it. *)
Definition dataLine (i : Z) (m d : string) : srcLine :=
  {| lineNum := i; label := EmptyString; address := 0; mnemonic := m;
     op1Type := invalidOp; op1 := EmptyString;
     op2Type := invalidOp; op2 := EmptyString; data := d; bin := [] |}.

(** A byte in upper-case hexadecimal without padding: one digit below
    0x10, two digits from 0x10 on. *)
Definition upperHexDigit (d : Z) : ascii :=
  if d <? 10 then ascii_of_N (Z.to_N (48 + d)) else ascii_of_N (Z.to_N (65 + d - 10)).

Definition hexOfByte (b : Z) : string :=
  if b <? 16 then String (upperHexDigit b) EmptyString
  else String (upperHexDigit (b / 16)) (String (upperHexDigit (b mod 16)) EmptyString).

(** The payload of one quote, one tab and one quote. *)
Definition quotedTab : string := String "034" (String "009" (String "034" EmptyString)).

(** The order of a [range] that follows the keys. *)
Definition keyOrder (n : nat) (m : gmap string string) : list (string * string) :=
  map_to_list m.

(** A host without include files. *)
Definition noFiles (incName : string) : result (list string) :=
  Err (HostError ("open " +:+ incName +:+ ": no such file or directory")).

(** No case mapping beyond ASCII. *)
Definition sameCase (s : string) : string := s.

(** Every name of the constant table starts with a bracket. *)
Definition keysBracketed (m : gmap string string) : Prop :=
  forall k v, m !! k = Some v -> bracketed k = true.

(** A line without an opening bracket: it neither defines nor uses a
    constant. *)
Definition plain (srcLine : string) : bool := negb (ContainsByte srcLine "[").

(** A source that defines one constant and holds one instruction. *)
Definition fooSource : list string := ["[FOO] 1234"; "NO"]%string.

(** The constant table after [fooSource] has been assembled once. *)
Definition fooConsts : gmap string string :=
  <["[FOO]"%string := "1234"%string]> (defaultConsts initialWorld).

(** No label is carried by two statements. *)
Definition uniqueLabels (srcLines : list srcLine) : Prop :=
  forall i j s t,
    srcLines !! i = Some s -> srcLines !! j = Some t ->
    nonEmpty (label s) = true -> label s = label t -> i = j.


(** The source of the label example: a label line, the instruction it is
    attached to, and an instruction that refers to the label. *)
Definition labelSource : list string := ["foo.bar"; "NO"; "CM $1,foo.bar"]%string.



(** The two statements of [labelSource] after parsing and unaliasing. *)
Definition noLine : srcLine :=
  {| lineNum := 1; label := "foo.bar"; address := 0; mnemonic := "NO";
     op1Type := invalidOp; op1 := EmptyString;
     op2Type := invalidOp; op2 := EmptyString; data := EmptyString; bin := [] |}.

Definition cmLine : srcLine :=
  {| lineNum := 2; label := EmptyString; address := 0; mnemonic := "CM16";
     op1Type := literalOp; op1 := "1";
     op2Type := addressOp; op2 := "foo.bar"; data := EmptyString; bin := [] |}.

(** The payload of a quote, the letters A and B, and a quote. *)
Definition quotedAB : string :=
  String "034" (String "A" (String "B" (String "034" EmptyString))).

(** The statement [CO $1,FFF0] as [buildStructSrc] makes it. *)
Definition coLine : srcLine :=
  {| lineNum := 0; label := EmptyString; address := 0; mnemonic := "CO";
     op1Type := literalOp; op1 := "1";
     op2Type := addressOp; op2 := "FFF0"; data := EmptyString; bin := [] |}.

(** What holds of every entry of [mnemonics] that is no data directive:
    its length is 1, 3 or 5. *)
Definition instructionOk (kv : string * mnemonicT) : bool :=
  isValidDataDirective (fst kv)
  || (instrLength (snd kv) =? 1) || (instrLength (snd kv) =? 3)
  || (instrLength (snd kv) =? 5).

(** A byte. *)
Definition isByteValue (b : Z) : Prop := 0 <= b < 256.

(** The statements of [labelSource] with their addresses at the load
    offset 0x0100, before and after [expandLabels]. *)
Definition addressedExample : list srcLine :=
  [withAddress noLine 0x0100; withAddress cmLine 0x0101].

Definition resolvedCm : srcLine := withOp2 (withAddress cmLine 0x0101) "0100".

Definition resolvedExample : list srcLine := [withAddress noLine 0x0100; resolvedCm].

(** A byte that may stand between the brackets of a constant name without
    ending the name or the line. *)
Definition nameByte (c : ascii) : bool := negb (isByte 93 c) && negb (isNewline c).

(** What holds of every entry of [mnemonicAliases]: the canonical mnemonic
    is known and is no alias itself. *)
Definition aliasOk (kv : string * string) : bool :=
  match mnemonics !! snd kv, mnemonicAliases !! snd kv with
  | Some _, None => true
  | _, _ => false
  end.

(** The number of operands a statement has. *)
Definition operandCount (s : srcLine) : Z :=
  (if nonEmpty (op1 s) then 1 else 0) + (if nonEmpty (op2 s) then 1 else 0).

(** Any byte but the comment sign. *)
Definition notHash (c : ascii) : bool := negb (isByte 35 c).

(** The namespace [addSrcLabelNamespaces] takes from the name of a file. *)
Definition namespaceOf (srcName : string) : string :=
  hd EmptyString (SplitN2 srcName namespaceDlm).

(** Two table entries with the same opcode are the same entry, or the pair
    SR16 and CM8; checked over the instructions of the table. *)
Definition opcodeClash (p q : string * mnemonicT) : bool :=
  (instrLength (snd p) =? 0) || (instrLength (snd q) =? 0)
  || negb (opcode (snd p) =? opcode (snd q))
  || String.eqb (fst p) (fst q)
  || (String.eqb (fst p) "SR16" && String.eqb (fst q) "CM8")
  || (String.eqb (fst p) "CM8" && String.eqb (fst q) "SR16").

(** A host with the one include file lib._rasm. *)
Definition libFiles (incName : string) : result (list string) :=
  if String.eqb incName "lib._rasm" then Ok ["start"; "NO  # nothing"]%string
  else noFiles incName.

(** The statement [EQ $1234] as [buildStructSrc] makes it: one operand,
    so that the second operand type is Invalid. *)
Definition eqLine : srcLine :=
  {| lineNum := 0; label := EmptyString; address := 0; mnemonic := "EQ";
     op1Type := literalOp; op1 := "1234";
     op2Type := invalidOp; op2 := EmptyString; data := EmptyString; bin := [] |}.

(** The source line of the directive [$8] with the payload [quotedAB]. *)
Definition quotedABSource : string := String "$" (String "8" (String " " quotedAB)).

(** * Properties of the pipeline *)

(** ** Bytes, numerals and strings *)

Lemma isByte_true n c : isByte n c = true -> c = ascii_of_N n.
Proof.
  unfold isByte, byteN. intros H. apply N.eqb_eq in H.
  rewrite <- H. symmetry. apply ascii_N_embedding.
Qed.

Lemma digitVal_hex c :
  isHexByte c = true ->
  digitVal c = Some (hexDigitValue c)
  /\ (0 <=? hexDigitValue c) && (hexDigitValue c <? 16) = true.
Proof.
  destruct c as [[] [] [] [] [] [] [] []]; intros H;
    try discriminate H; vm_compute; split; reflexivity.
Qed.

Lemma pow16_succ (k : nat) : 16 ^ Z.of_nat (S k) = 16 * 16 ^ Z.of_nat k.
Proof. rewrite Nat2Z.inj_succ. apply Z.pow_succ_r. lia. Qed.

Lemma parseDigits_hex s : forall n maxVal,
  allBytes isHexByte s = true ->
  0 <= n ->
  (n + 1) * 16 ^ Z.of_nat (String.length s) - 1 <= maxVal ->
  maxVal < 2 ^ 60 ->
  parseDigits s 16 maxVal n = (hexFrom s n, None)
  /\ n * 16 ^ Z.of_nat (String.length s) <= hexFrom s n
     <= (n + 1) * 16 ^ Z.of_nat (String.length s) - 1.
Proof.
  induction s as [|c s IH]; intros n maxVal Hall Hn Hmax Hlim.
  - simpl. split; [reflexivity|]. change (16 ^ Z.of_nat 0) with 1. lia.
  - simpl in Hall. apply andb_true_iff in Hall as [Hc Hall].
    destruct (digitVal_hex c Hc) as [Hd Hr].
    apply andb_true_iff in Hr as [Hlo Hhi].
    apply Z.leb_le in Hlo. apply Z.ltb_lt in Hhi.
    cbn [String.length] in *. rewrite pow16_succ in *.
    assert (Hp : 0 < 16 ^ Z.of_nat (String.length s)) by (apply Z.pow_pos_nonneg; lia).
    set (d := hexDigitValue c) in *. set (P := 16 ^ Z.of_nat (String.length s)) in *.
    assert (Hn1 : n * 16 + d <= maxVal) by nia.
    cbn [parseDigits hexFrom]. rewrite Hd. fold d.
    replace (16 <=? d) with false by (symmetry; apply Z.leb_gt; lia).
    replace (maxUint64 / 16 + 1 <=? n) with false.
    2:{ symmetry. apply Z.leb_gt. change (maxUint64 / 16 + 1) with (2 ^ 60). lia. }
    rewrite (Z.mod_small (n * 16 + d)).
    2:{ change (2 ^ 64) with (16 * 2 ^ 60). lia. }
    replace (n * 16 + d <? n * 16) with false by (symmetry; apply Z.ltb_ge; lia).
    replace (maxVal <? n * 16 + d) with false by (symmetry; apply Z.ltb_ge; lia).
    cbn [orb].
    destruct (IH (n * 16 + d) maxVal Hall ltac:(lia) ltac:(nia) Hlim) as [-> Hb].
    split; [reflexivity|]. nia.
Qed.

(** A numeral of one to [k] hexadecimal digits parses without an error to
    the number it denotes, when [k] digits fit [bitSize] bits. *)
Lemma ParseUint_hex (k : nat) (bitSize : Z) s :
  matchHex k s = true ->
  16 ^ Z.of_nat k <= 2 ^ bitSize -> 2 ^ bitSize <= 2 ^ 60 ->
  ParseUint s 16 bitSize = (hexValue s, None) /\ 0 <= hexValue s < 2 ^ bitSize.
Proof.
  unfold matchHex. intros H Hk Hb.
  apply andb_true_iff in H as [H Hall]. apply andb_true_iff in H as [H1 H2].
  apply Nat.leb_le in H1, H2.
  assert (Hpow : 16 ^ Z.of_nat (String.length s) <= 16 ^ Z.of_nat k)
    by (apply Z.pow_le_mono_r; lia).
  destruct (parseDigits_hex s 0 (2 ^ bitSize - 1) Hall ltac:(lia) ltac:(lia) ltac:(lia))
    as [Hp Hr].
  unfold ParseUint, hexValue. destruct s as [|c s]; [simpl in H1; lia|].
  rewrite Hp. split; [reflexivity|]. lia.
Qed.

Lemma ParseUint_hex16 s :
  is16BitHexString s = true ->
  ParseUint s 16 16 = (hexValue s, None) /\ 0 <= hexValue s < 65536.
Proof. intros H. apply (ParseUint_hex 4 16 s H); by vm_compute. Qed.

Lemma ParseUint_hex8 s :
  is8BitHexString s = true ->
  ParseUint s 16 8 = (hexValue s, None) /\ 0 <= hexValue s < 256.
Proof. intros H. apply (ParseUint_hex 2 8 s H); by vm_compute. Qed.

Lemma is8_is16 s : is8BitHexString s = true -> is16BitHexString s = true.
Proof.
  unfold is8BitHexString, is16BitHexString, matchHex. intros H.
  apply andb_true_iff in H as [H Hall]. apply andb_true_iff in H as [H1 H2].
  apply Nat.leb_le in H2. rewrite H1, Hall.
  replace (String.length s <=? 4)%nat with true by (symmetry; apply Nat.leb_le; lia).
  reflexivity.
Qed.

Lemma isValidHexString_16 s : isValidHexString s = true -> is16BitHexString s = true.
Proof.
  unfold isValidHexString. intros H. apply orb_true_iff in H as [H|H]; [done|].
  by apply is8_is16.
Qed.

(** ** The mnemonic table *)

Lemma mnemonicAt_ok m : descriptorOk (mnemonicAt m) = true.
Proof.
  unfold mnemonicAt. destruct (mnemonics !! m) as [d|] eqn:E; [|reflexivity].
  apply elem_of_list_to_map_2, list_elem_of_In in E.
  assert (H : forallb (fun kv => descriptorOk (snd kv)) mnemonicList = true) by reflexivity.
  rewrite forallb_forall in H. apply (H (m, d) E).
Qed.

Lemma opcode_bound m : 0 <= opcode (mnemonicAt m) < 32.
Proof.
  pose proof (mnemonicAt_ok m) as H. unfold descriptorOk in H.
  apply andb_true_iff in H as [H _]. apply andb_true_iff in H as [H1 H2].
  apply Z.leb_le in H1. apply Z.ltb_lt in H2. lia.
Qed.

Lemma numOps_of_length m :
  let d := mnemonicAt m in
  (instrLength d = 3 -> numOps d = 1) /\ (instrLength d = 5 -> numOps d = 2)
  /\ 0 <= instrLength d.
Proof.
  intros d. pose proof (mnemonicAt_ok m) as H. fold d in H. unfold descriptorOk in H.
  apply andb_true_iff in H as [_ H].
  repeat (apply orb_true_iff in H as [H|H]);
    apply andb_true_iff in H as [Hl Hn];
    apply Z.eqb_eq in Hl, Hn; lia.
Qed.

(** ** The encoder *)

Lemma splitUint16_be v : 0 <= v < 65536 -> splitUint16 v = (v / 256, v mod 256).
Proof.
  intros Hv. unfold splitUint16, toByte.
  rewrite Z.shiftr_div_pow2 by lia. change (2 ^ 8) with 256.
  rewrite (Z.mod_small (v / 256)); [reflexivity|].
  split; [apply Z.div_pos; lia | apply Z.div_lt_upper_bound; lia].
Qed.

Lemma appendUint16_be b v : 0 <= v < 65536 -> appendUint16 b v = b ++ be16 v.
Proof.
  intros Hv. unfold appendUint16. rewrite splitUint16_be by done.
  unfold be16. by rewrite <- app_assoc.
Qed.

Lemma appendUint16_hex b s :
  is16BitHexString s = true ->
  appendUint16 b (toUint16 (fst (ParseUint s 16 16))) = b ++ be16 (hexValue s).
Proof.
  intros H. destruct (ParseUint_hex16 s H) as [-> Hr]. cbn [fst].
  unfold toUint16. rewrite Z.mod_small by done. by apply appendUint16_be.
Qed.

Lemma lor_shifted (x y : Z) : 0 <= y < 8 -> Z.lor (x * 8) y = x * 8 + y.
Proof.
  intros Hy. rewrite <- Z.lxor_lor.
  - symmetry. apply Z.add_nocarry_lxor.
    change 8 with (2 ^ 3). rewrite <- Z.shiftl_mul_pow2 by lia.
    apply Z.bits_inj'. intros n Hn. rewrite Z.land_spec, Z.bits_0.
    destruct (Z.ltb_spec n 3) as [Hlt|Hge].
    + by rewrite Z.shiftl_spec_low.
    + rewrite andb_comm. replace (Z.testbit y n) with false; [reflexivity|].
      symmetry. destruct (Z.eq_dec y 0) as [->|Hy0]; [apply Z.bits_0|].
      apply Z.bits_above_log2; [lia|].
      apply Z.lt_le_trans with 3; [|lia]. apply Z.log2_lt_pow2; lia.
  - change 8 with (2 ^ 3). rewrite <- Z.shiftl_mul_pow2 by lia.
    apply Z.bits_inj'. intros n Hn. rewrite Z.land_spec, Z.bits_0.
    destruct (Z.ltb_spec n 3) as [Hlt|Hge].
    + by rewrite Z.shiftl_spec_low.
    + rewrite andb_comm. replace (Z.testbit y n) with false; [reflexivity|].
      symmetry. destruct (Z.eq_dec y 0) as [->|Hy0]; [apply Z.bits_0|].
      apply Z.bits_above_log2; [lia|].
      apply Z.lt_le_trans with 3; [|lia]. apply Z.log2_lt_pow2; lia.
Qed.

Lemma buildOpcode_bin s :
  bin (buildOpcode s)
  = bin s ++ [Z.lor (Z.shiftl (opcode (mnemonicAt (mnemonic s))) 3)
                (opSelector (op1Type s) (op2Type s))].
Proof.
  unfold buildOpcode, toByte. cbn [bin withBin].
  pose proof (opcode_bound (mnemonic s)) as Hb.
  rewrite Z.shiftl_mul_pow2 by lia. change (2 ^ 3) with 8.
  rewrite Z.mod_small by lia. reflexivity.
Qed.

Lemma specSelector_code t1 t2 sel :
  specSelector t1 t2 = Some sel -> opSelector t1 t2 = sel.
Proof. destruct t1, t2; simpl; congruence. Qed.

Lemma specSelector_none t1 t2 : specSelector t1 t2 = None -> opSelector t1 t2 = 0.
Proof. destruct t1, t2; simpl; congruence. Qed.

Lemma validateOps_Forall ls :
  validateOps ls = Ok tt <-> Forall (fun s => validateOp s = Ok tt) ls.
Proof.
  induction ls as [|s ls IH]; simpl.
  - split; [constructor|reflexivity].
  - rewrite Forall_cons, <- IH. destruct (validateOp s) as [[]|e]; simpl.
    + tauto.
    + split; [discriminate|]. intros [? _]. discriminate.
Qed.

(** What [validateOps] leaves of an instruction: the operands [buildOps]
    parses are numerals of one to four hexadecimal digits. *)
Lemma validateOp_operands s :
  validateOp s = Ok tt -> isValidDataDirective (mnemonic s) = false ->
  (instrLength (mnemonicAt (mnemonic s)) = 3 -> is16BitHexString (op1 s) = true)
  /\ (instrLength (mnemonicAt (mnemonic s)) = 5 ->
      is16BitHexString (op1 s) = true /\ is16BitHexString (op2 s) = true).
Proof.
  unfold validateOp. intros H Hd. rewrite Hd in H. cbn [negb] in H.
  destruct (numOps_of_length (mnemonic s)) as (H3 & H5 & _).
  set (d := mnemonicAt (mnemonic s)) in *.
  destruct (nonEmpty (op1 s)) eqn:E1, (nonEmpty (op2 s)) eqn:E2;
    cbn [negb orb andb] in H;
    repeat match type of H with
    | (if ?b && false then _ else _) = _ => rewrite andb_false_r in H
    | (if ?b && true then _ else _) = _ => rewrite andb_true_r in H
    | (if negb ?b then _ else _) = _ => destruct b eqn:?; cbn [negb] in H
    | (if ?b then _ else _) = _ => destruct b eqn:?
    end; try discriminate H;
    repeat match goal with
    | Hq : (_ =? _) = false |- _ => apply Z.eqb_neq in Hq
    | Hq : isValidHexString _ = true |- _ => apply isValidHexString_16 in Hq
    end;
    split; intros; try split; try done; try lia.
Qed.

Lemma buildInstr_bin s :
  validateOp s = Ok tt -> isValidDataDirective (mnemonic s) = false ->
  bin (buildInstr s)
  = bin s ++ Z.lor (Z.shiftl (opcode (mnemonicAt (mnemonic s))) 3)
               (opSelector (op1Type s) (op2Type s)) :: specOperands s.
Proof.
  intros Hv Hd. destruct (validateOp_operands s Hv Hd) as [H3 H5].
  unfold buildInstr, buildOps, specOperands.
  change (mnemonic (buildOpcode s)) with (mnemonic s).
  change (op1 (buildOpcode s)) with (op1 s).
  change (op2 (buildOpcode s)) with (op2 s).
  destruct (instrLength (mnemonicAt (mnemonic s)) =? 3) eqn:E3.
  - apply Z.eqb_eq in E3. cbn [bin withBin]. rewrite appendUint16_hex by auto.
    rewrite buildOpcode_bin, <- app_assoc. reflexivity.
  - destruct (instrLength (mnemonicAt (mnemonic s)) =? 5) eqn:E5.
    + apply Z.eqb_eq in E5. destruct (H5 E5) as [Ho1 Ho2]. cbn [bin withBin].
      rewrite !appendUint16_hex by auto.
      rewrite buildOpcode_bin, <- !app_assoc. reflexivity.
    + rewrite buildOpcode_bin. reflexivity.
Qed.

Lemma buildBin_concat ls : forall b,
  fold_left (fun b s => b ++ bin s) ls b = b ++ concat (map bin ls).
Proof.
  induction ls as [|s ls IH]; intros b; simpl.
  - by rewrite app_nil_r.
  - by rewrite IH, <- app_assoc.
Qed.

(** C2: every instruction statement that has passed [validateOps] is
    encoded as the opcode byte [(base_opcode << 3) | selector] followed by
    the operands as 16-bit big-endian words according to the instruction
    length (none, one or two).  The selector is the one the table gives
    for the six operand-type pairs, 0 to 5; for any other pair, as for an
    instruction written with no or one operand, whose missing operands
    have the type Invalid, the selector bits are 0.  The image is the
    magic header, the big-endian load offset and the bytes of every
    statement in source order. *)
Theorem encoding_layout (srcLines : list srcLine) (programOffset : Z) :
  0 <= programOffset < 65536 ->
  validateOps srcLines = Ok tt ->
  (forall s,
     s ∈ srcLines -> isValidDataDirective (mnemonic s) = false ->
     exists selector,
       bin (buildBinSrcLine s)
       = bin s ++ Z.lor (Z.shiftl (opcode (mnemonicAt (mnemonic s))) 3) selector
                  :: specOperands s
       /\ match specSelector (op1Type s) (op2Type s) with
          | Some sel => selector = sel
          | None => selector = 0
          end
       /\ Z.lor (Z.shiftl (opcode (mnemonicAt (mnemonic s))) 3) selector
          = opcode (mnemonicAt (mnemonic s)) * 8 + selector)
  /\ buildBin (buildBinSrcLines srcLines) programOffset
     = [0x12; 0x31; 0x1C; 0x16] ++ be16 programOffset
       ++ concat (map (fun s => bin (buildBinSrcLine s)) srcLines).
Proof.
  intros Hoff Hv. split.
  - intros s Hin Hd. rewrite validateOps_Forall, Forall_forall in Hv.
    exists (opSelector (op1Type s) (op2Type s)).
    unfold buildBinSrcLine. rewrite Hd, buildInstr_bin by auto.
    split; [reflexivity|]. split.
    + destruct (specSelector (op1Type s) (op2Type s)) as [sel|] eqn:Hsel.
      * by apply specSelector_code.
      * by apply specSelector_none.
    + pose proof (opcode_bound (mnemonic s)) as Hb.
      rewrite Z.shiftl_mul_pow2 by lia. change (2 ^ 3) with 8.
      apply lor_shifted. destruct (op1Type s), (op2Type s); cbn [opSelector]; lia.
  - unfold buildBin, buildBinSrcLines. rewrite buildBin_concat.
    rewrite appendUint16_be by done. rewrite map_map, <- app_assoc. reflexivity.
Qed.

(** C9: when the operand-type pair is none of the six of the table, as for
    the zero-operand instructions NO and JM whose operand types are both
    Invalid, the opcode byte is [base_opcode << 3] with selector bits 0,
    the byte the pair (Literal, Address) gives. *)
Theorem opcode_without_selector (s : srcLine) :
  specSelector (op1Type s) (op2Type s) = None ->
  bin (buildOpcode s) = bin s ++ [Z.shiftl (opcode (mnemonicAt (mnemonic s))) 3]
  /\ Z.land (Z.shiftl (opcode (mnemonicAt (mnemonic s))) 3) 7 = 0
  /\ (forall t : srcLine,
        mnemonic t = mnemonic s -> bin t = bin s ->
        op1Type t = literalOp -> op2Type t = addressOp ->
        bin (buildOpcode t) = bin (buildOpcode s))
  /\ (forall unicodeUpper srcLines i m,
        m = "NO"%string \/ m = "JM"%string ->
        let z := structLine unicodeUpper srcLines i m in
        specSelector (op1Type z) (op2Type z) = None
        /\ op1Type z = invalidOp /\ op2Type z = invalidOp
        /\ bin (buildBinSrcLine z) = [Z.shiftl (opcode (mnemonicAt m)) 3]).
Proof.
  intros Hn. rewrite buildOpcode_bin, (specSelector_none _ _ Hn), Z.lor_0_r.
  split; [reflexivity|]. split; [|split].
  - change 7 with (Z.ones 3). rewrite Z.land_ones by lia.
    rewrite Z.shiftl_mul_pow2 by lia. apply Z.mod_mul. lia.
  - intros t Hm Hb H1 H2. rewrite buildOpcode_bin, Hm, Hb, H1, H2. cbn [opSelector].
    by rewrite Z.lor_0_r.
  - intros up srcLines i m [-> | ->]; repeat split; reflexivity.
Qed.

Lemma validateDataDirectives_Forall ls :
  validateDataDirectives ls = Ok tt ->
  Forall (fun s =>
            (mnemonic s = directiveTokens data8BitDirective ->
             is8BitHexStrings (Split (data s) dataDlm) = true)
            /\ (mnemonic s = directiveTokens data16BitDirective ->
                is16BitHexStrings (Split (data s) dataDlm) = true)) ls.
Proof.
  induction ls as [|s ls IH]; cbn [validateDataDirectives]; intros H; [constructor|].
  destruct (String.eqb (mnemonic s) (directiveTokens data8BitDirective)) eqn:E8.
  - apply String.eqb_eq in E8.
    destruct (is8BitHexStrings (Split (data s) dataDlm)) eqn:Eh; [|discriminate H].
    cbn [negb] in H.
    constructor; [|auto]. split; [done|]. rewrite E8. cbn. discriminate.
  - apply String.eqb_neq in E8.
    destruct (String.eqb (mnemonic s) (directiveTokens data16BitDirective)) eqn:E16.
    + destruct (is16BitHexStrings (Split (data s) dataDlm)) eqn:Eh; [|discriminate H].
      cbn [negb] in H. apply String.eqb_eq in E16. constructor; [|auto]. split; [done|]. done.
    + apply String.eqb_neq in E16. constructor; [|auto]. split; done.
Qed.

Lemma isValidDataDirective_cases m :
  isValidDataDirective m = true ->
  m = directiveTokens data8BitDirective \/ m = directiveTokens data16BitDirective.
Proof.
  unfold isValidDataDirective. intros H. apply orb_true_iff in H as [H|H];
    apply String.eqb_eq in H; auto.
Qed.

Lemma buildData8_fold l : forall b,
  Forall (fun d => is8BitHexString d = true) l ->
  fold_left (fun b d => b ++ [toByte (fst (ParseUint d 16 8))]) l b
  = b ++ map hexValue l.
Proof.
  induction l as [|d l IH]; intros b Hl; simpl.
  - by rewrite app_nil_r.
  - apply Forall_cons in Hl as [Hd Hl]. rewrite IH by done.
    destruct (ParseUint_hex8 d Hd) as [-> Hr]. cbn [fst]. unfold toByte.
    rewrite Z.mod_small by done. by rewrite <- app_assoc.
Qed.

Lemma buildData16_fold l : forall b,
  Forall (fun d => is16BitHexString d = true) l ->
  fold_left (fun b d => appendUint16 b (toUint16 (fst (ParseUint d 16 16)))) l b
  = b ++ concat (map (fun d => be16 (hexValue d)) l).
Proof.
  induction l as [|d l IH]; intros b Hl; simpl.
  - by rewrite app_nil_r.
  - apply Forall_cons in Hl as [Hd Hl]. rewrite IH by done.
    rewrite appendUint16_hex by done. by rewrite <- app_assoc.
Qed.

Lemma forallb_Forall_true {A} (p : A -> bool) l :
  forallb p l = true -> Forall (fun x => p x = true) l.
Proof. rewrite forallb_forall, Forall_forall. intros H x Hx. apply H. by apply list_elem_of_In. Qed.

(** C10: the encoder drops the error of every hexadecimal parse, and after
    [validateDataDirectives] and [validateOps] none of these parses can
    fail: each data value handed to the 8- or 16-bit parse of [buildData]
    and each operand handed to the 16-bit parse of [buildOps] is a numeral
    of one to four (one to two for 8 bits) hexadecimal digits, parses
    without an error to the number it denotes, and that number is in
    range; the bytes of a data directive are those numbers. *)
Theorem parse_errors_unreachable (srcLines : list srcLine) (s : srcLine) :
  validateDataDirectives srcLines = Ok tt ->
  validateOps srcLines = Ok tt ->
  s ∈ srcLines ->
  Forall (fun call =>
            matchHex (if snd call =? 8 then 2 else 4) (fst call) = true
            /\ ParseUint (fst call) 16 (snd call) = (hexValue (fst call), None)
            /\ 0 <= hexValue (fst call) < 2 ^ snd call)
    (parseCalls s)
  /\ (mnemonic s = directiveTokens data8BitDirective ->
      bin (buildBinSrcLine s) = bin s ++ map hexValue (Split (data s) dataDlm))
  /\ (mnemonic s = directiveTokens data16BitDirective ->
      bin (buildBinSrcLine s)
      = bin s ++ concat (map (fun d => be16 (hexValue d)) (Split (data s) dataDlm))).
Proof.
  intros Hdata Hops Hin.
  apply validateDataDirectives_Forall in Hdata.
  rewrite Forall_forall in Hdata. destruct (Hdata s Hin) as [H8 H16].
  rewrite validateOps_Forall, Forall_forall in Hops. specialize (Hops s Hin).
  split; [|split].
  - unfold parseCalls. destruct (isValidDataDirective (mnemonic s)) eqn:Ed.
    + destruct (String.eqb (mnemonic s) (directiveTokens data8BitDirective)) eqn:E8.
      * apply String.eqb_eq in E8. apply Forall_map, Forall_forall.
        intros d Hd. cbn [fst snd Z.eqb Pos.eqb].
        pose proof (forallb_Forall_true _ _ (H8 E8)) as HF.
        rewrite Forall_forall in HF. specialize (HF d Hd).
        split; [exact HF|]. apply ParseUint_hex8, HF.
      * destruct (String.eqb (mnemonic s) (directiveTokens data16BitDirective)) eqn:E16;
          [|constructor].
        apply String.eqb_eq in E16. apply Forall_map, Forall_forall.
        intros d Hd. cbn [fst snd Z.eqb Pos.eqb].
        pose proof (forallb_Forall_true _ _ (H16 E16)) as HF.
        rewrite Forall_forall in HF. specialize (HF d Hd).
        split; [exact HF|]. apply ParseUint_hex16, HF.
    + destruct (validateOp_operands s Hops Ed) as [H3 H5].
      destruct (instrLength (mnemonicAt (mnemonic s)) =? 3) eqn:E3.
      * apply Z.eqb_eq in E3. repeat constructor; cbn [fst snd Z.eqb Pos.eqb];
          [apply H3, E3 | apply ParseUint_hex16, H3, E3 | apply ParseUint_hex16, H3, E3 ..].
      * destruct (instrLength (mnemonicAt (mnemonic s)) =? 5) eqn:E5; [|constructor].
        apply Z.eqb_eq in E5. destruct (H5 E5) as [Ho1 Ho2].
        repeat constructor; cbn [fst snd Z.eqb Pos.eqb];
          first [exact Ho1 | exact Ho2 | apply ParseUint_hex16; assumption].
  - intros E8. unfold buildBinSrcLine, buildData, isValidDataDirective.
    rewrite (proj2 (String.eqb_eq _ _) E8). cbn [orb bin withBin].
    apply buildData8_fold, forallb_Forall_true, H8, E8.
  - intros E16. unfold buildBinSrcLine, buildData, isValidDataDirective.
    assert (Hb : String.eqb (mnemonic s) (directiveTokens data8BitDirective) = false)
      by (rewrite E16; reflexivity).
    rewrite Hb, (proj2 (String.eqb_eq _ _) E16). cbn [orb bin withBin].
    apply buildData16_fold, forallb_Forall_true, H16, E16.
Qed.

(** ** The address resolver *)

#[local] Arguments stepLength : simpl never.
#[local] Arguments maxAddressSpace : simpl never.

Lemma stepLength_nonneg s : 0 <= stepLength s.
Proof.
  unfold stepLength. destruct (isValidDataDirective (mnemonic s)).
  - repeat destruct (String.eqb _ _); lia.
  - apply numOps_of_length.
Qed.

Lemma totalLength_nonneg l : 0 <= totalLength l.
Proof.
  induction l as [|s l IH]; simpl; [lia|]. pose proof (stepLength_nonneg s). lia.
Qed.

Lemma totalLength_app l1 l2 : totalLength (l1 ++ l2) = totalLength l1 + totalLength l2.
Proof. induction l1 as [|s l1 IH]; simpl; lia. Qed.

Lemma calcAddressesFrom_ok ls : forall pc ls',
  calcAddressesFrom pc ls = Ok ls' ->
  length ls' = length ls
  /\ forall i s', ls' !! i = Some s' ->
       exists s, ls !! i = Some s
                 /\ s' = withAddress s (pc + totalLength (take i ls))
                 /\ pc + totalLength (take (S i) ls) < maxAddressSpace.
Proof.
  induction ls as [|s ls IH]; intros pc ls' H; cbn [calcAddressesFrom] in H.
  - injection H as <-. split; [reflexivity|]. intros i s' Hi. by destruct i.
  - destruct (maxAddressSpace <=? pc + stepLength s) eqn:E; [discriminate H|].
    apply Z.leb_gt in E.
    destruct (calcAddressesFrom (pc + stepLength s) ls) as [l|e] eqn:Er;
      [|discriminate H].
    cbn [bind] in H. injection H as <-.
    destruct (IH _ _ Er) as [Hlen Hnth]. split; [simpl; lia|].
    intros [|i] s' Hi.
    + injection Hi as <-. exists s.
      split; [reflexivity|]. cbn [take totalLength fold_right].
      split; [f_equal; lia|]. fold (totalLength (take 0 ls)). rewrite take_0.
      cbn [totalLength fold_right]. lia.
    + destruct (Hnth i s' Hi) as (s0 & Hs0 & -> & Hlt). exists s0.
      split; [exact Hs0|]. cbn [take totalLength fold_right].
      fold (totalLength (take i ls)). fold (totalLength (take (S i) ls)).
      split; [f_equal; lia|lia].
Qed.

Lemma calcAddressesFrom_overflow pre : forall pc s post,
  (forall k, (0 < k <= length pre)%nat -> pc + totalLength (take k pre) < maxAddressSpace) ->
  maxAddressSpace <= pc + totalLength (pre ++ [s]) ->
  calcAddressesFrom pc (pre ++ s :: post) = Err (AddressOutOfRange (lineNum s + 1)).
Proof.
  induction pre as [|p pre IH]; intros pc s post Hpre Hs.
  - cbn [app calcAddressesFrom]. cbn [app totalLength fold_right] in Hs.
    replace (maxAddressSpace <=? pc + stepLength s) with true; [reflexivity|].
    symmetry. apply Z.leb_le. unfold totalLength in Hs. simpl in Hs. lia.
  - cbn [app calcAddressesFrom].
    assert (H1 : pc + stepLength p < maxAddressSpace).
    { specialize (Hpre 1%nat ltac:(simpl; lia)). simpl in Hpre. lia. }
    replace (maxAddressSpace <=? pc + stepLength p) with false
      by (symmetry; apply Z.leb_gt; exact H1).
    rewrite (IH (pc + stepLength p) s post); [reflexivity| |].
    + intros k Hk. specialize (Hpre (S k) ltac:(simpl; lia)). simpl in Hpre. lia.
    + simpl in Hs. lia.
Qed.

Lemma calcAddressesFrom_err ls : forall pc e,
  calcAddressesFrom pc ls = Err e ->
  exists pre s post,
    ls = pre ++ s :: post
    /\ e = AddressOutOfRange (lineNum s + 1)
    /\ maxAddressSpace <= pc + totalLength (pre ++ [s])
    /\ forall k, (0 < k <= length pre)%nat ->
         pc + totalLength (take k pre) < maxAddressSpace.
Proof.
  induction ls as [|s ls IH]; intros pc e H; cbn [calcAddressesFrom] in H;
    [discriminate H|].
  destruct (maxAddressSpace <=? pc + stepLength s) eqn:E.
  - apply Z.leb_le in E. injection H as <-. exists [], s, ls.
    split; [reflexivity|]. split; [reflexivity|]. split; [simpl; lia|].
    intros k Hk. simpl in Hk. lia.
  - apply Z.leb_gt in E.
    destruct (calcAddressesFrom (pc + stepLength s) ls) as [l|e'] eqn:Er;
      [discriminate H|].
    cbn [bind] in H. injection H as <-.
    destruct (IH _ _ Er) as (pre & t & post & -> & -> & Hge & Hlt).
    exists (s :: pre), t, post. split; [reflexivity|]. split; [reflexivity|].
    split; [simpl in *; lia|].
    intros [|k] Hk; [lia|]. cbn [take totalLength fold_right].
    fold (totalLength (take k pre)).
    destruct k as [|k]; [rewrite take_0; simpl; lia|].
    specialize (Hlt (S k) ltac:(simpl in Hk; lia)). lia.
Qed.

(** C3: [calcAddresses] assigns the addresses in one forward pass.  When it
    succeeds, statement [i] has the load offset plus the lengths of the
    statements before it as its address, and that address lies in
    [[load_offset, 0xFFB0 - 256)].  When the counter reaches or exceeds
    0xFFB0 - 256 after the length of a statement is added, and did not
    after any earlier statement, the pass fails with AddressOutOfRange at
    the line of that statement; it fails in no other way, and never
    wraps. *)
Theorem addresses_in_range (srcLines : list srcLine) (programOffset : Z) :
  (forall addressSrcLines,
     calcAddresses srcLines programOffset = Ok addressSrcLines ->
     length addressSrcLines = length srcLines
     /\ forall i s', addressSrcLines !! i = Some s' ->
          exists s, srcLines !! i = Some s
            /\ s' = withAddress s (programOffset + totalLength (take i srcLines))
            /\ programOffset <= address s' < maxAddressSpace)
  /\ (forall pre s post,
        srcLines = pre ++ s :: post ->
        (forall k, (0 < k <= length pre)%nat ->
           programOffset + totalLength (take k pre) < maxAddressSpace) ->
        maxAddressSpace <= programOffset + totalLength (pre ++ [s]) ->
        calcAddresses srcLines programOffset
        = Err (AddressOutOfRange (lineNum s + 1)))
  /\ (forall e,
        calcAddresses srcLines programOffset = Err e ->
        exists pre s post,
          srcLines = pre ++ s :: post
          /\ e = AddressOutOfRange (lineNum s + 1)
          /\ maxAddressSpace <= programOffset + totalLength (pre ++ [s])
          /\ forall k, (0 < k <= length pre)%nat ->
               programOffset + totalLength (take k pre) < maxAddressSpace)
  /\ maxAddressSpace = 0xFFB0 - 256.
Proof.
  unfold calcAddresses. split; [|split; [|split]].
  - intros ls' H. destruct (calcAddressesFrom_ok _ _ _ H) as [Hlen Hnth].
    split; [exact Hlen|]. intros i s' Hi.
    destruct (Hnth i s' Hi) as (s & Hs & -> & Hlt). exists s.
    split; [exact Hs|]. split; [reflexivity|]. cbn [address withAddress].
    pose proof (totalLength_nonneg (take i srcLines)) as H0.
    split; [lia|].
    assert (Hle : totalLength (take i srcLines) <= totalLength (take (S i) srcLines)).
    { rewrite (take_S_r _ _ _ Hs), totalLength_app. simpl.
      pose proof (stepLength_nonneg s). lia. }
    lia.
  - intros pre s post -> Hpre Hs. by apply calcAddressesFrom_overflow.
  - intros e H. by apply calcAddressesFrom_err.
  - reflexivity.
Qed.

(** ** Data payloads *)

#[local] Arguments String.append : simpl nomatch.

Lemma Split_no_sep x c : ContainsByte x c = false -> Split x c = [x].
Proof.
  induction x as [|d x IH]; [reflexivity|]. simpl. intros H.
  apply orb_false_iff in H as [Hd Hx]. rewrite Hd, (IH Hx). reflexivity.
Qed.

Lemma Split_app_sep x c r :
  ContainsByte x c = false -> Split (x +:+ String c r) c = x :: Split r c.
Proof.
  induction x as [|d x IH]; simpl.
  - intros _. by rewrite Ascii.eqb_refl.
  - intros H. apply orb_false_iff in H as [Hd Hx]. by rewrite Hd, (IH Hx).
Qed.

Lemma Split_Join l c :
  l <> [] -> Forall (fun x => ContainsByte x c = false) l ->
  Split (Join l (String c EmptyString)) c = l.
Proof.
  unfold Join. induction l as [|x l IH]; [done|]. intros _ Hl.
  apply Forall_cons in Hl as [Hx Hl]. destruct l as [|y l].
  - simpl. by apply Split_no_sep.
  - change (String.concat (String c EmptyString) (x :: y :: l))
      with (x +:+ String c (String.concat (String c EmptyString) (y :: l))).
    rewrite Split_app_sep by done. f_equal. by apply IH.
Qed.

Lemma append_assoc (a b c : string) : (a +:+ b) +:+ c = a +:+ (b +:+ c).
Proof. induction a as [|x a IH]; [reflexivity|]. cbn [append]. f_equal. exact IH. Qed.

Lemma concat_cons sep x (l : list string) :
  l <> [] -> String.concat sep (x :: l) = x +:+ sep +:+ String.concat sep l.
Proof. by destruct l. Qed.

Lemma appendTimes_Join null k : forall d,
  appendTimes k d (null +:+ String dataDlm EmptyString) +:+ null
  = d +:+ Join (repeat null (S k)) (String dataDlm EmptyString).
Proof.
  unfold Join. induction k as [|k IH]; intros d; [reflexivity|].
  cbn [appendTimes]. rewrite IH, append_assoc. f_equal.
  change (repeat null (S (S k))) with (null :: repeat null (S k)).
  rewrite concat_cons by discriminate. by rewrite append_assoc.
Qed.

(** The loop of [expandDataNullRepeats] joins [n] copies when [n >= 1]. *)
Lemma nullRepeat_Join null n :
  1 <= n ->
  nullRepeat null n = Join (repeat null (Z.to_nat n)) (String dataDlm EmptyString).
Proof.
  intros Hn. unfold nullRepeat.
  replace (Z.to_nat n) with (S (Z.to_nat (n - 1))) by lia.
  by rewrite appendTimes_Join.
Qed.

Lemma repeat_no_sep (null : string) c k :
  ContainsByte null c = false ->
  Forall (fun x => ContainsByte x c = false) (repeat null k).
Proof. intros H. induction k; simpl; constructor; auto. Qed.

Lemma length_append (x y : string) :
  String.length (x +:+ y) = (String.length x + String.length y)%nat.
Proof. induction x as [|c x IH]; simpl; [reflexivity|]. by rewrite IH. Qed.

Lemma dropBytes_app (x y : string) : dropBytes (String.length x) (x +:+ y) = y.
Proof. induction x as [|c x IH]; simpl; [by destruct y|exact IH]. Qed.

Lemma takeBytes_app (x y : string) : takeBytes (String.length x) (x +:+ y) = x.
Proof. induction x as [|c x IH]; simpl; [by destruct y|by rewrite IH]. Qed.

Lemma last1_app_byte (x : string) c :
  last1 (x +:+ String c EmptyString) = String c EmptyString.
Proof.
  unfold last1. rewrite length_append. cbn [String.length].
  replace (String.length x + 1 - 1)%nat with (String.length x) by lia.
  apply dropBytes_app.
Qed.

(** X13: For a count [n >= 1] the payload [(n)] of a data directive becomes [n]
    comma-separated copies of the value of [[NULL]]. *)
Lemma expandDataNullRepeats_copies consts (s : srcLine) (digits : string) (n : Z) :
  isValidDataDirective (mnemonic s) = true ->
  data s = "(" +:+ digits +:+ ")" ->
  Atoi digits = Some n -> 1 <= n ->
  consts !! "[NULL]"%string = Some "0000"%string ->
  expandDataNullRepeats consts [s]
  = Ok [withData s (Join (repeat "0000"%string (Z.to_nat n)) ",")]
  /\ Split (Join (repeat "0000"%string (Z.to_nat n)) ",") dataDlm
     = repeat "0000"%string (Z.to_nat n).
Proof.
  intros Hm Hd Ha Hn Hc. split.
  - cbn [expandDataNullRepeats]. rewrite Hm.
    assert (Hr : isDataNullRepeat (data s) = true).
    { rewrite Hd. unfold isDataNullRepeat, len.
      change ("(" +:+ digits +:+ ")") with (String "(" (digits +:+ ")")) at 1 2.
      rewrite <- append_assoc, last1_app_byte. reflexivity. }
    rewrite Hr. cbn [andb].
    assert (Hi : takeBytes (String.length (data s) - 2) (dropBytes 1 (data s)) = digits).
    { rewrite Hd. change ("(" +:+ digits +:+ ")") with (String "(" (digits +:+ ")")).
      cbn [dropBytes String.length]. rewrite length_append. cbn [String.length].
      replace (S (String.length digits + 1) - 2)%nat with (String.length digits) by lia.
      apply takeBytes_app. }
    rewrite Hi, Ha. cbn [bind]. unfold constAt. rewrite Hc. cbn [default].
    by rewrite nullRepeat_Join.
  - apply Split_Join.
    + replace (Z.to_nat n) with (S (Z.to_nat (n - 1))) by lia. discriminate.
    + by apply repeat_no_sep.
Qed.

(** C4 (what the code does at the count 0): the directive [$16 (0)]
    expands to one copy of 0000, not to none, and assembles to one null
    word after the header; [$16 (3)] expands to three copies, as
    [$16 0000,0000,0000] reads. *)
Theorem null_repeat_zero_gives_one :
  expandDataNullRepeats (defaultConsts initialWorld) [dataLine 0 "$16" "(0)"]
  = Ok [dataLine 0 "$16" "0000"]
  /\ Split "0000" dataDlm = ["0000"%string]
  /\ fst (Raw noFiles keyOrder sameCase ["$16 (0)"%string] "main.rasm" 0 initialWorld)
     = Ok [0x12; 0x31; 0x1C; 0x16; 0; 0; 0; 0]
  /\ expandDataNullRepeats (defaultConsts initialWorld) [dataLine 0 "$16" "(3)"]
     = Ok [dataLine 0 "$16" "0000,0000,0000"]
  /\ Split "0000,0000,0000" dataDlm = ["0000"; "0000"; "0000"]%string.
Proof. repeat split; vm_compute; reflexivity. Qed.

Lemma asciiByte_entry unicodeUpper (b : ascii) :
  ToUpper unicodeUpper (Sprintf_x (byteZ b)) = hexOfByte (byteZ b)
  /\ ContainsByte (hexOfByte (byteZ b)) dataDlm = false
  /\ ParseUint (hexOfByte (byteZ b)) 16 8 = (byteZ b, None)
  /\ String.length (hexOfByte (byteZ b)) = (if byteZ b <? 16 then 1%nat else 2%nat).
Proof.
  destruct b as [[] [] [] [] [] [] [] []]; vm_compute; repeat split; reflexivity.
Qed.

Lemma length_list_ascii s : length (list_ascii_of_string s) = String.length s.
Proof. induction s as [|c s IH]; simpl; [reflexivity|]. by rewrite IH. Qed.

Lemma isDataString_nonEmpty d : isDataString d = true -> list_ascii_of_string d <> [].
Proof. destruct d; [discriminate|]. intros _. discriminate. Qed.

(** What [convDataStringsToHex] makes of a quoted payload: the entries of
    [dataStringToHex] of the payload as written, one for each of its
    bytes, each the byte in upper-case hexadecimal without padding and
    parsing back to the byte. *)
Lemma dataStringToHex_entries unicodeUpper (s : srcLine) :
  mnemonic s = directiveTokens data8BitDirective ->
  isDataString (data s) = true ->
  let bytes := list_ascii_of_string (data s) in
  let entries := Split (data (convDataString unicodeUpper s)) dataDlm in
  data (convDataString unicodeUpper s)
  = Join (map (fun b => hexOfByte (byteZ b)) bytes) (String dataDlm EmptyString)
  /\ entries = map (fun b => hexOfByte (byteZ b)) bytes
  /\ length entries = String.length (data s)
  /\ Forall (fun b => ParseUint (hexOfByte (byteZ b)) 16 8 = (byteZ b, None)
                      /\ String.length (hexOfByte (byteZ b))
                         = (if byteZ b <? 16 then 1%nat else 2%nat)) bytes.
Proof.
  intros Hm Hs bytes entries.
  assert (Hd : data (convDataString unicodeUpper s)
               = Join (map (fun b => hexOfByte (byteZ b)) bytes) (String dataDlm EmptyString)).
  { unfold convDataString. rewrite (proj2 (String.eqb_eq _ _) Hm), Hs. cbn [andb data withData].
    unfold dataStringToHex. f_equal. apply map_ext. intros b.
    apply (asciiByte_entry unicodeUpper b). }
  assert (He : entries = map (fun b => hexOfByte (byteZ b)) bytes).
  { unfold entries. rewrite Hd. apply Split_Join.
    - intros Hnil. apply map_eq_nil in Hnil. by apply (isDataString_nonEmpty _ Hs).
    - apply Forall_map, Forall_forall. intros b _. apply (asciiByte_entry unicodeUpper b). }
  split; [exact Hd|]. split; [exact He|]. split.
  - rewrite He, length_map. apply length_list_ascii.
  - apply Forall_forall. intros b _.
    split; apply (asciiByte_entry unicodeUpper b).
Qed.

(** A byte below 0x10 gives an entry of one digit: the payload of a
    quote, a tab and a quote gives the entries 22, 9 and 22. *)
Lemma tab_entry_has_one_digit :
  mnemonic (dataLine 0 "$8" quotedTab) = directiveTokens data8BitDirective
  /\ isDataString (data (dataLine 0 "$8" quotedTab)) = true
  /\ Split (data (convDataString sameCase (dataLine 0 "$8" quotedTab))) dataDlm
     = ["22"; "9"; "22"]%string
  /\ ~ Forall (fun entry => String.length entry = 2%nat)
         (Split (data (convDataString sameCase (dataLine 0 "$8" quotedTab))) dataDlm).
Proof.
  split; [reflexivity|]. split; [reflexivity|]. split; [reflexivity|].
  intros H.
  change (Forall (fun entry => String.length entry = 2%nat) ["22"; "9"; "22"]%string) in H.
  apply Forall_cons in H as [_ H]. apply Forall_cons in H as [H _]. discriminate H.
Qed.

Lemma list_ascii_append (x y : string) :
  list_ascii_of_string (x +:+ y) = list_ascii_of_string x ++ list_ascii_of_string y.
Proof. induction x as [|c x IH]; [reflexivity|]. simpl. by rewrite IH. Qed.

Lemma dropBytes_append (x y : string) : dropBytes (String.length x) (x +:+ y) = y.
Proof. induction x as [|c x IH]; [reflexivity|]. simpl. exact IH. Qed.

Lemma quoted_isDataString (text : string) :
  isDataString (srcStringToken +:+ text +:+ srcStringToken) = true.
Proof.
  unfold isDataString, srcStringToken, last1, len.
  change (String "034" EmptyString +:+ text +:+ String "034" EmptyString)
    with (String "034" (text +:+ String "034" EmptyString)).
  cbn [String.length first1 takeBytes]. rewrite Nat.sub_succ, Nat.sub_0_r, length_append.
  cbn [String.length]. rewrite Nat.add_1_r. cbn [dropBytes]. rewrite dropBytes_append.
  reflexivity.
Qed.

Lemma byteZ_toByte (b : ascii) : toByte (byteZ b) = byteZ b.
Proof. destruct b as [[] [] [] [] [] [] [] []]; reflexivity. Qed.

Lemma buildData8_bytes (l : list ascii) : forall b,
  fold_left (fun b d => b ++ [toByte (fst (ParseUint d 16 8))])
    (map (fun c => hexOfByte (byteZ c)) l) b
  = b ++ map byteZ l.
Proof.
  induction l as [|c l IH]; intros b; cbn [map fold_left].
  - by rewrite app_nil_r.
  - rewrite IH. destruct (asciiByte_entry sameCase c) as (_ & _ & -> & _).
    cbn [fst]. by rewrite byteZ_toByte, <- app_assoc.
Qed.

(** C5 (what the code does): the payload handed to [dataStringToHex] is
    the payload as written, with its two quote characters.  For an 8-bit
    data directive with the payload of a quote, the text and a quote, the
    entries are 22, one entry for each byte of the text, and 22: two
    entries more than the text has bytes, and the statement is encoded
    as the byte 0x22, the bytes of the text and the byte 0x22. *)
Theorem quoted_string_emits_its_quotes unicodeUpper (s : srcLine) (text : string) :
  mnemonic s = directiveTokens data8BitDirective ->
  data s = srcStringToken +:+ text +:+ srcStringToken ->
  let converted := convDataString unicodeUpper s in
  let entries := Split (data converted) dataDlm in
  isDataString (data s) = true
  /\ entries
     = ["22"%string]
       ++ map (fun b => hexOfByte (byteZ b)) (list_ascii_of_string text)
       ++ ["22"%string]
  /\ length entries = (String.length text + 2)%nat
  /\ bin (buildBinSrcLine converted)
     = bin s ++ [0x22] ++ map byteZ (list_ascii_of_string text) ++ [0x22].
Proof.
  intros Hm Hdata converted entries.
  assert (Hs : isDataString (data s) = true)
    by (rewrite Hdata; apply quoted_isDataString).
  destruct (dataStringToHex_entries unicodeUpper s Hm Hs) as (_ & He & _ & _).
  fold converted in He. fold entries in He.
  assert (Hbytes : list_ascii_of_string (data s)
                   = ["034"%char] ++ list_ascii_of_string text ++ ["034"%char]).
  { rewrite Hdata. unfold srcStringToken. by rewrite !list_ascii_append. }
  rewrite Hbytes in He.
  assert (Hc : mnemonic converted = mnemonic s /\ bin converted = bin s).
  { unfold converted, convDataString.
    destruct (String.eqb (mnemonic s) (directiveTokens data8BitDirective)
              && isDataString (data s)); split; reflexivity. }
  destruct Hc as [Hcm Hcb].
  split; [exact Hs|]. split; [|split].
  - rewrite He, !map_app. reflexivity.
  - rewrite He, !length_map, !length_app, length_list_ascii. cbn [length]. lia.
  - unfold buildBinSrcLine, buildData. rewrite Hcm, Hm. cbn [isValidDataDirective].
    change (isValidDataDirective (directiveTokens data8BitDirective)) with true.
    change (String.eqb (directiveTokens data8BitDirective)
              (directiveTokens data8BitDirective)) with true.
    cbv iota. cbn [bin withBin]. fold entries. rewrite He, buildData8_bytes, Hcb.
    rewrite !map_app. reflexivity.
Qed.

(** ** The preprocessor on lines without constants *)

Lemma replaceFrom_no_bracket s k v :
  bracketed k = true -> plain s = true -> replaceFrom s k v 0 = s.
Proof.
  unfold plain. destruct k as [|a k]; [discriminate|]. simpl. intros Ha.
  apply isByte_true in Ha. subst a.
  induction s as [|c s IH]; [reflexivity|]. simpl ContainsByte.
  intros Hc. apply negb_true_iff, orb_false_iff in Hc as [Hc Hs].
  cbn [replaceFrom String.prefix].
  destruct (ascii_dec (ascii_of_N 91) c) as [<-|Hne]; [discriminate|].
  rewrite IH; [reflexivity|]. by rewrite Hs.
Qed.

Lemma ReplaceAll_no_bracket s k v :
  bracketed k = true -> plain s = true -> ReplaceAll s k v = s.
Proof.
  intros Hk Hs. unfold ReplaceAll. destruct k; [discriminate|].
  by apply replaceFrom_no_bracket.
Qed.

Lemma substConsts_no_bracket order s :
  Forall (fun kv => bracketed (fst kv) = true) order ->
  plain s = true -> substConsts order s = s.
Proof.
  unfold substConsts. induction 1 as [|kv order Hk _ IH]; intros Hs; [reflexivity|].
  simpl. rewrite ReplaceAll_no_bracket by done. by apply IH.
Qed.

Lemma findConstName_no_bracket s : plain s = true -> findConstName s = EmptyString.
Proof.
  unfold plain. induction s as [|c s IH]; [reflexivity|]. simpl.
  intros H. apply negb_true_iff, orb_false_iff in H as [Hc Hs].
  replace (isByte 91 c) with false.
  - apply IH. by rewrite Hs.
  - symmetry. apply not_true_iff_false. intros Hb. apply isByte_true in Hb.
    subst c. discriminate Hc.
Qed.

Lemma plain_not_definition s :
  plain s = true -> nonEmpty s && String.eqb (first1 s) "[" = false.
Proof.
  unfold plain. destruct s as [|c s]; [reflexivity|]. simpl.
  intros H. apply negb_true_iff, orb_false_iff in H as [Hc _].
  unfold first1. cbn [takeBytes String.eqb]. rewrite Hc. reflexivity.
Qed.

Lemma getConstsFrom_plain srcLines : forall lineNum consts,
  forallb plain srcLines = true ->
  getConstsFrom lineNum srcLines consts = (Ok tt, consts).
Proof.
  induction srcLines as [|l ls IH]; intros lineNum consts H; [reflexivity|].
  cbn [forallb] in H. apply andb_true_iff in H as [Hl Hls].
  cbn [getConstsFrom]. rewrite (plain_not_definition l Hl). by apply IH.
Qed.

Lemma keysBracketed_initial : keysBracketed (defaultConsts initialWorld).
Proof.
  intros k v Hin. unfold initialWorld in Hin. cbn [defaultConsts] in Hin.
  apply elem_of_list_to_map_2, list_elem_of_In in Hin.
  assert (H : forallb (fun kv => bracketed (fst kv)) builtinConsts = true) by reflexivity.
  rewrite forallb_forall in H. apply (H (k, v) Hin).
Qed.

Lemma keysBracketed_insert m k v :
  keysBracketed m -> bracketed k = true -> keysBracketed (<[k := v]> m).
Proof.
  intros Hm Hk k' v' Hl. apply lookup_insert_Some in Hl as [[<- _]|[_ Hl]]; [done|].
  by apply (Hm k' v').
Qed.

(** ** Addresses in hexadecimal *)

Ltac divlia := Z.to_euclidean_division_equations; lia.





(** ** Labels *)

Lemma isSrcLabel_nonEmpty l : isSrcLabel l = true -> nonEmpty l = true.
Proof. destruct l; [discriminate|reflexivity]. Qed.

Lemma nonEmpty_true s : nonEmpty s = true <-> s <> EmptyString.
Proof. destruct s; simpl; split; congruence. Qed.

(** The label [getSrcLabel] finds for line [n] is the nearest non-empty
    line above it, when that line is a label line. *)
Lemma getSrcLabel_attach (srcLines : list string) (n : nat) (l : string) :
  (getSrcLabel srcLines n = l /\ l <> EmptyString)
  <-> exists k, (k < n)%nat /\ srcLines !! k = Some l /\ isSrcLabel l = true
                /\ forall j, (k < j < n)%nat -> srcLines !! j = Some EmptyString.
Proof.
  induction n as [|n IH].
  - simpl. split; [intros [<- H]; done|intros (k & Hk & _); lia].
  - cbn [getSrcLabel]. destruct (srcLines !! n) as [x|] eqn:En.
    + destruct (nonEmpty x) eqn:Ex.
      * destruct (isSrcLabel x) eqn:Elab.
        -- split.
           ++ intros [<- _]. exists n. repeat split; [lia|done|done|]. intros j Hj. lia.
           ++ intros (k & Hk & Hl & Hlab & Hgap).
              destruct (decide (k = n)) as [->|Hne].
              ** rewrite En in Hl. injection Hl as <-. split; [done|].
                 by apply nonEmpty_true.
              ** specialize (Hgap n ltac:(lia)). rewrite En in Hgap.
                 injection Hgap as ->. discriminate Ex.
        -- split; [intros [<- H]; done|].
           intros (k & Hk & Hl & Hlab & Hgap).
           destruct (decide (k = n)) as [->|Hne].
           ** rewrite En in Hl. injection Hl as <-. congruence.
           ** specialize (Hgap n ltac:(lia)). rewrite En in Hgap.
              injection Hgap as ->. discriminate Ex.
      * destruct x; [|discriminate Ex]. rewrite IH. split.
        -- intros (k & Hk & Hl & Hlab & Hgap). exists k. repeat split; [lia|done|done|].
           intros j Hj. destruct (decide (j = n)) as [->|Hne]; [done|]. apply Hgap. lia.
        -- intros (k & Hk & Hl & Hlab & Hgap).
           assert (k <> n).
           { intros ->. rewrite En in Hl. injection Hl as <-. discriminate Hlab. }
           exists k. repeat split; [lia|done|done|]. intros j Hj. apply Hgap. lia.
    + split; [intros [<- H]; done|].
      intros (k & Hk & Hl & Hlab & Hgap).
      destruct (decide (k = n)) as [->|Hne]; [congruence|].
      specialize (Hgap n ltac:(lia)). congruence.
Qed.

Lemma structLine_label unicodeUpper srcLines i line :
  label (structLine unicodeUpper srcLines i line) = getSrcLabel srcLines i.
Proof.
  unfold structLine. destruct (isSrcDataLine line).
  - by destruct (splitSrcDataLine line).
  - destruct (splitSrcCodeLine line) as [[m o1] o2].
    by destruct (splitOp o1), (splitOp o2).
Qed.





Lemma append_empty_r s : s +:+ EmptyString = s.
Proof. induction s as [|c s IH]; [reflexivity|]. simpl. by rewrite IH. Qed.



Lemma findLabelFrom_whole s : forall run,
  allBytes isLabelByte s = true ->
  (5 <= String.length (run +:+ s))%nat ->
  findLabelFrom s run = run +:+ s.
Proof.
  induction s as [|c s IH]; intros run Hall Hlen.
  - cbn [findLabelFrom]. rewrite append_empty_r in *.
    by replace (5 <=? String.length run)%nat with true by (symmetry; apply Nat.leb_le; lia).
  - cbn [allBytes] in Hall. apply andb_true_iff in Hall as [Hc Hall].
    cbn [findLabelFrom]. rewrite Hc.
    assert (He : (run +:+ String c EmptyString) +:+ s = run +:+ String c s)
      by (by rewrite append_assoc).
    rewrite IH; [exact He|exact Hall|by rewrite He].
Qed.

Lemma getOpLabel_whole l : isSrcLabel l = true -> getOpLabel l = l.
Proof.
  unfold isSrcLabel, matchLabelLine, getOpLabel, findLabel. intros H.
  apply andb_true_iff in H as [Hlen H]. apply andb_true_iff in H as [_ Hall].
  apply Nat.leb_le in Hlen. by apply (findLabelFrom_whole l EmptyString).
Qed.

Section Properties.

Variable ReadSrc : string -> result (list string).
Variable rangeOrder : nat -> gmap string string -> list (string * string).
Variable unicodeUpper : string -> string.

(** A [range] visits every entry of the map once. *)
Hypothesis rangeOrder_perm : forall n m, rangeOrder n m ≡ₚ map_to_list m.

Lemma rangeOrder_lookup n m k v :
  (k, v) ∈ rangeOrder n m -> m !! k = Some v.
Proof. rewrite rangeOrder_perm. apply elem_of_map_to_list. Qed.

Lemma rangeOrder_bracketed n m :
  keysBracketed m ->
  Forall (fun kv => bracketed (fst kv) = true) (rangeOrder n m).
Proof.
  intros Hm. apply Forall_forall. intros [k v] Hin.
  apply rangeOrder_lookup in Hin. by apply (Hm k v).
Qed.

Lemma expandConstsFrom_plain srcLines : forall lineNum consts n,
  keysBracketed consts -> forallb plain srcLines = true ->
  exists n', expandConstsFrom rangeOrder lineNum srcLines consts n = (Ok srcLines, n').
Proof.
  induction srcLines as [|l ls IH]; intros lineNum consts n Hk H; [by eexists|].
  cbn [forallb] in H. apply andb_true_iff in H as [Hl Hls].
  cbn [expandConstsFrom]. pose proof (plain_not_definition l Hl) as Hd.
  destruct (nonEmpty l) eqn:En.
  - cbn [andb] in Hd. unfold constStartToken. rewrite Hd. cbn [negb].
    rewrite substConsts_no_bracket by (by auto using rangeOrder_bracketed).
    rewrite findConstName_no_bracket by done. cbn [nonEmpty].
    destruct (IH (lineNum + 1) consts (S n) Hk Hls) as [n' ->]. by eexists.
  - destruct (IH (lineNum + 1) consts n Hk Hls) as [n' ->]. by eexists.
Qed.

(** Lines without constants go through [expandConsts] unchanged, and the
    constant table stays as it is. *)
Lemma expandConsts_plain srcLines w :
  keysBracketed (defaultConsts w) -> forallb plain srcLines = true ->
  exists n', expandConsts rangeOrder srcLines w
             = (Ok srcLines, {| defaultConsts := defaultConsts w; ranges := n' |}).
Proof.
  intros Hk Hp. unfold expandConsts, getConsts.
  rewrite getConstsFrom_plain by done. cbn [bind ranges defaultConsts].
  destruct (expandConstsFrom_plain srcLines 0 (defaultConsts w) (ranges w) Hk Hp)
    as [n' ->].
  by eexists.
Qed.

(** C1: the single source line NO with load offset 0000 assembles to the
    seven bytes 12 31 1C 16 00 00 00 (the 4-byte magic header, the 2-byte
    big-endian load offset, the 1-byte opcode 0x00 of NO), whatever the
    name of the source and the order of the ranges. *)
Theorem assemble_NO (srcName : string) :
  fst (Raw ReadSrc rangeOrder unicodeUpper ["NO"%string] srcName 0 initialWorld)
  = Ok [0x12; 0x31; 0x1C; 0x16; 0x00; 0x00; 0x00].
Proof.
  unfold Raw. change (cleanSrc ["NO"%string]) with ["NO"%string].
  destruct (expandConsts_plain ["NO"%string] initialWorld keysBracketed_initial eq_refl)
    as [n' ->].
  reflexivity.
Qed.

Lemma getConsts_fooSource :
  getConsts fooSource initialWorld
  = (Ok fooConsts, {| defaultConsts := fooConsts; ranges := 0 |}).
Proof. reflexivity. Qed.

Lemma Raw_fooSource_first (srcName : string) :
  Raw ReadSrc rangeOrder unicodeUpper fooSource srcName 0 initialWorld
  = (Ok [0x12; 0x31; 0x1C; 0x16; 0x00; 0x00; 0x00],
     {| defaultConsts := fooConsts; ranges := 1 |}).
Proof.
  unfold Raw. change (cleanSrc fooSource) with fooSource.
  unfold expandConsts. rewrite getConsts_fooSource.
  cbn [ranges defaultConsts]. unfold fooSource.
  cbn [expandConstsFrom nonEmpty].
  change (String.eqb (first1 "[FOO] 1234") constStartToken) with true.
  change (String.eqb (first1 "NO") constStartToken) with false.
  cbn [negb].
  rewrite substConsts_no_bracket; [reflexivity| |reflexivity].
  apply rangeOrder_bracketed, keysBracketed_insert;
    [apply keysBracketed_initial|reflexivity].
Qed.

(** C7 (what the code does on a second run): assembling [fooSource] in a
    fresh process gives the image of NO and leaves the constant [[FOO]] in
    the table of the package; assembling the same lines, name and offset
    again in that process fails, the constant being taken for a
    redefinition. *)
Theorem second_run_differs (srcName : string) :
  let first := Raw ReadSrc rangeOrder unicodeUpper fooSource srcName 0 initialWorld in
  let second := Raw ReadSrc rangeOrder unicodeUpper fooSource srcName 0 (snd first) in
  fst first = Ok [0x12; 0x31; 0x1C; 0x16; 0x00; 0x00; 0x00]
  /\ defaultConsts (snd first) !! "[FOO]"%string = Some "1234"%string
  /\ defaultConsts initialWorld !! "[FOO]"%string = None
  /\ fst second = Err (DuplicateConstant 1 "[FOO]").
Proof.
  intros first second. unfold second, first. rewrite Raw_fooSource_first.
  cbn [fst snd defaultConsts]. repeat split; reflexivity.
Qed.

Lemma unalias_CO (s : srcLine) :
  mnemonic s = "CO"%string ->
  unaliasMnemonic s = withMnemonic s "CO16"
  /\ unaliasMnemonic (withMnemonic s "CO16") = withMnemonic s "CO16".
Proof.
  intros Hm. unfold unaliasMnemonic. rewrite Hm. cbn [mnemonic withMnemonic].
  split; reflexivity.
Qed.

Lemma structLine_CO (srcLines : list string) (i : nat) (ops : string) :
  unaliasMnemonic (structLine unicodeUpper srcLines i ("CO " +:+ ops))
  = unaliasMnemonic (structLine unicodeUpper srcLines i ("CO16 " +:+ ops)).
Proof.
  unfold structLine.
  change (isSrcDataLine ("CO " +:+ ops)) with false.
  change (isSrcDataLine ("CO16 " +:+ ops)) with false.
  unfold splitSrcCodeLine.
  change (SplitN2 ("CO " +:+ ops) mnemonicOpDlm) with ["CO"%string; ops].
  change (SplitN2 ("CO16 " +:+ ops) mnemonicOpDlm) with ["CO16"%string; ops].
  cbv iota beta.
  destruct (SplitN2 ops opDlm) as [|o1 [|o2 r]]; cbv iota beta;
    repeat match goal with
    | |- context [splitOp ?o] => destruct (splitOp o)
    end; reflexivity.
Qed.

Lemma Raw_plain (srcLines : list string) (srcName : string) (programOffset : Z) :
  forallb plain (cleanSrc srcLines) = true ->
  hasInclude (addSrcLabelNamespaces (cleanSrc srcLines) srcName) = false ->
  fst (Raw ReadSrc rangeOrder unicodeUpper srcLines srcName programOffset initialWorld)
  = match hasDupeSrcLabels (addSrcLabelNamespaces (cleanSrc srcLines) srcName) with
    | Some (srcLabel, lineNum) => Err (DuplicateLabel (lineNum + 1) srcLabel)
    | None =>
        assembleStruct unicodeUpper (defaultConsts initialWorld)
          (buildStructSrc unicodeUpper (addSrcLabelNamespaces (cleanSrc srcLines) srcName))
          programOffset
    end.
Proof.
  intros Hp Hi. unfold Raw.
  destruct (expandConsts_plain (cleanSrc srcLines) initialWorld keysBracketed_initial Hp)
    as [n' ->].
  set (w := {| defaultConsts := defaultConsts initialWorld; ranges := n' |}).
  set (ls := addSrcLabelNamespaces (cleanSrc srcLines) srcName) in *.
  assert (Ha : addIncludes ReadSrc rangeOrder ls w = (Ok ls, w)).
  { clearbody ls. clear Hp. induction ls as [|l ls IH]; [reflexivity|].
    cbn [hasInclude existsb] in Hi. apply orb_false_iff in Hi as [Hl Hls].
    cbn [addIncludes]. rewrite Hl. unfold hasInclude in IH. rewrite (IH Hls).
    reflexivity. }
  rewrite Ha. destruct (hasDupeSrcLabels ls) as [[srcLabel lineNum]|]; reflexivity.
Qed.

(** C8: a statement written with the alias CO is the statement written
    with CO16 once [unaliasMnemonics] has run, whatever its operands: the
    two source lines parse to the same statement, the two programs go
    through the same steps to the same bytes or the same error, and with
    operand types (Literal, Address) the statement is encoded as the
    opcode byte 0x10 and the two operand words. *)
Theorem alias_CO_encodes_as_CO16 (s : srcLine) (pre post : list srcLine)
    (consts : gmap string string) (programOffset : Z)
    (srcLines : list string) (i : nat) (ops : string) :
  mnemonic s = "CO"%string ->
  unaliasMnemonic s = unaliasMnemonic (withMnemonic s "CO16")
  /\ assembleStruct unicodeUpper consts (pre ++ s :: post) programOffset
     = assembleStruct unicodeUpper consts (pre ++ withMnemonic s "CO16" :: post)
         programOffset
  /\ unaliasMnemonic (structLine unicodeUpper srcLines i ("CO " +:+ ops))
     = unaliasMnemonic (structLine unicodeUpper srcLines i ("CO16 " +:+ ops))
  /\ (op1Type s = literalOp -> op2Type s = addressOp ->
      validateOp (unaliasMnemonic s) = Ok tt ->
      bin (buildBinSrcLine (unaliasMnemonic s))
      = bin s ++ 0x10 :: be16 (hexValue (op1 s)) ++ be16 (hexValue (op2 s))
      /\ bin (buildBinSrcLine (unaliasMnemonic s))
         = bin (buildBinSrcLine (withMnemonic s "CO16")))
  /\ fst (Raw ReadSrc rangeOrder unicodeUpper ["CO $1,FFF0"%string] "main.rasm" 0
            initialWorld)
     = Ok [0x12; 0x31; 0x1C; 0x16; 0x00; 0x00; 0x10; 0x00; 0x01; 0xFF; 0xF0]
  /\ fst (Raw ReadSrc rangeOrder unicodeUpper ["CO16 $1,FFF0"%string] "main.rasm" 0
            initialWorld)
     = Ok [0x12; 0x31; 0x1C; 0x16; 0x00; 0x00; 0x10; 0x00; 0x01; 0xFF; 0xF0].
Proof.
  intros Hm. destruct (unalias_CO s Hm) as [Hs Hc].
  split; [by rewrite Hs, Hc|]. split.
  { unfold assembleStruct, unaliasMnemonics. rewrite !map_app. cbn [map].
    by rewrite Hs, Hc. }
  split; [apply structLine_CO|]. split.
  { intros H1 H2 Hv. rewrite Hs in *.
    assert (Hd : isValidDataDirective (mnemonic (withMnemonic s "CO16")) = false)
      by reflexivity.
    unfold buildBinSrcLine. rewrite Hd, (buildInstr_bin _ Hv Hd).
    cbn [op1Type op2Type withMnemonic bin]. rewrite H1, H2.
    split; reflexivity. }
  split; rewrite Raw_plain by reflexivity; reflexivity.
Qed.






End Properties.

(** * Instances of the theorems at concrete inputs *)

Lemma keyOrder_perm : forall n m, keyOrder n m ≡ₚ map_to_list m.
Proof. intros n m. reflexivity. Defined.

Lemma assemble_NO_witness :
  (forall n m, keyOrder n m ≡ₚ map_to_list m)
  /\ fst (Raw noFiles keyOrder sameCase ["NO"%string] "main.rasm" 0 initialWorld)
     = Ok [0x12; 0x31; 0x1C; 0x16; 0x00; 0x00; 0x00].
Proof.
  split; [exact keyOrder_perm|].
  apply (assemble_NO noFiles keyOrder sameCase keyOrder_perm "main.rasm").
Defined.

Lemma encoding_layout_witness :
  0 <= 0x0100 < 65536
  /\ structLine sameCase ["EQ $1234"%string] 0 "EQ $1234" = eqLine
  /\ specSelector (op1Type eqLine) (op2Type eqLine) = None
  /\ validateOps [withMnemonic coLine "CO16"; eqLine] = Ok tt
  /\ bin (buildBinSrcLine (withMnemonic coLine "CO16")) = [0x10; 0x00; 0x01; 0xFF; 0xF0]
  /\ bin (buildBinSrcLine eqLine) = [0xB8; 0x12; 0x34]
  /\ buildBin (buildBinSrcLines [withMnemonic coLine "CO16"; eqLine]) 0x0100
     = [0x12; 0x31; 0x1C; 0x16; 0x01; 0x00; 0x10; 0x00; 0x01; 0xFF; 0xF0;
        0xB8; 0x12; 0x34].
Proof.
  assert (H1 : 0 <= 0x0100 < 65536) by lia.
  assert (H2 : validateOps [withMnemonic coLine "CO16"; eqLine] = Ok tt) by reflexivity.
  destruct (encoding_layout [withMnemonic coLine "CO16"; eqLine] 0x0100 H1 H2) as [Hs Hb].
  split; [exact H1|]. split; [reflexivity|]. split; [reflexivity|]. split; [exact H2|].
  split; [|split; [|exact Hb]].
  - destruct (Hs (withMnemonic coLine "CO16")) as (sel & Hbin & Hsel & _);
      [by left|reflexivity|].
    change (sel = 0) in Hsel. rewrite Hsel in Hbin. exact Hbin.
  - destruct (Hs eqLine) as (sel & Hbin & Hsel & _);
      [right; by left|reflexivity|].
    change (sel = 0) in Hsel. rewrite Hsel in Hbin. exact Hbin.
Defined.

Lemma addresses_in_range_witness :
  maxAddressSpace <= 65199 + totalLength ([] ++ [noLine])
  /\ calcAddresses [noLine] 65199 = Err (AddressOutOfRange 2)
  /\ calcAddresses [noLine] 65198 = Ok [withAddress noLine 65198].
Proof.
  assert (H : maxAddressSpace <= 65199 + totalLength ([] ++ [noLine]))
    by (vm_compute; discriminate).
  destruct (addresses_in_range [noLine] 65199) as (_ & Hover & _).
  split; [exact H|]. split; [|reflexivity].
  apply (Hover [] noLine [] eq_refl); [|exact H].
  intros k Hk. simpl in Hk. lia.
Defined.

Lemma quoted_string_emits_its_quotes_witness :
  structLine sameCase [quotedABSource] 0 quotedABSource = dataLine 0 "$8" quotedAB
  /\ mnemonic (dataLine 0 "$8" quotedAB) = directiveTokens data8BitDirective
  /\ data (dataLine 0 "$8" quotedAB) = srcStringToken +:+ "AB" +:+ srcStringToken
  /\ Split (data (convDataString sameCase (dataLine 0 "$8" quotedAB))) dataDlm
     = ["22"; "41"; "42"; "22"]%string
  /\ bin (buildBinSrcLine (convDataString sameCase (dataLine 0 "$8" quotedAB)))
     = [0x22; 0x41; 0x42; 0x22]
  /\ fst (Raw noFiles keyOrder sameCase [quotedABSource] "main.rasm" 0 initialWorld)
     = Ok [0x12; 0x31; 0x1C; 0x16; 0x00; 0x00; 0x22; 0x41; 0x42; 0x22].
Proof.
  split; [reflexivity|]. split; [reflexivity|]. split; [reflexivity|].
  destruct (quoted_string_emits_its_quotes sameCase (dataLine 0 "$8" quotedAB) "AB"
              eq_refl eq_refl) as (_ & He & _ & Hb).
  split; [exact He|]. split; [exact Hb|]. vm_compute. reflexivity.
Defined.


Lemma second_run_differs_witness :
  (forall n m, keyOrder n m ≡ₚ map_to_list m)
  /\ fst (Raw noFiles keyOrder sameCase fooSource "main.rasm" 0 initialWorld)
     = Ok [0x12; 0x31; 0x1C; 0x16; 0x00; 0x00; 0x00]
  /\ fst (Raw noFiles keyOrder sameCase fooSource "main.rasm" 0
            (snd (Raw noFiles keyOrder sameCase fooSource "main.rasm" 0 initialWorld)))
     = Err (DuplicateConstant 1 "[FOO]").
Proof.
  split; [exact keyOrder_perm|].
  destruct (second_run_differs noFiles keyOrder sameCase keyOrder_perm "main.rasm")
    as (H1 & _ & _ & H2).
  split; [exact H1|exact H2].
Defined.

Lemma alias_CO_witness :
  (forall n m, keyOrder n m ≡ₚ map_to_list m)
  /\ mnemonic coLine = "CO"%string
  /\ assembleStruct sameCase (defaultConsts initialWorld) [coLine] 0
     = assembleStruct sameCase (defaultConsts initialWorld)
         [withMnemonic coLine "CO16"] 0.
Proof.
  split; [exact keyOrder_perm|]. split; [reflexivity|].
  exact (proj1 (proj2 (alias_CO_encodes_as_CO16 noFiles keyOrder sameCase keyOrder_perm
                         coLine [] [] (defaultConsts initialWorld) 0 [] 0 EmptyString
                         eq_refl))).
Defined.

Lemma opcode_without_selector_witness :
  specSelector (op1Type noLine) (op2Type noLine) = None
  /\ bin (buildOpcode noLine) = [0x00].
Proof.
  split; [reflexivity|].
  exact (proj1 (opcode_without_selector noLine eq_refl)).
Defined.

Lemma parse_errors_unreachable_witness :
  validateDataDirectives [dataLine 0 "$8" "1,FF"] = Ok tt
  /\ validateOps [dataLine 0 "$8" "1,FF"] = Ok tt
  /\ dataLine 0 "$8" "1,FF" ∈ [dataLine 0 "$8" "1,FF"]
  /\ bin (buildBinSrcLine (dataLine 0 "$8" "1,FF")) = [0x01; 0xFF].
Proof.
  assert (Hin : dataLine 0 "$8" "1,FF" ∈ [dataLine 0 "$8" "1,FF"]) by (by left).
  split; [reflexivity|]. split; [reflexivity|]. split; [exact Hin|].
  exact (proj1 (proj2 (parse_errors_unreachable [dataLine 0 "$8" "1,FF"]
                         (dataLine 0 "$8" "1,FF") eq_refl eq_refl Hin)) eq_refl).
Defined.

(** * Further properties *)

(** ** The binary encoder *)

(** X1: [splitUint16] cuts a 16-bit value into its high and low byte: both are
    bytes, and [high8 * 256 + low8] is the value. *)
Theorem splitUint16_round_trip (srcInt : Z) :
  0 <= srcInt < 65536 ->
  let '(high8, low8) := splitUint16 srcInt in
  isByteValue high8 /\ isByteValue low8 /\ high8 * 256 + low8 = srcInt.
Proof.
  intros H. rewrite splitUint16_be by done. unfold isByteValue. divlia.
Qed.

Lemma splitUint16_round_trip_witness :
  0 <= 0xFFB0 < 65536
  /\ let '(high8, low8) := splitUint16 0xFFB0 in
     isByteValue high8 /\ isByteValue low8 /\ high8 * 256 + low8 = 0xFFB0.
Proof. split; [lia|]. apply (splitUint16_round_trip 0xFFB0). lia. Defined.

Lemma toByte_isByte x : isByteValue (toByte x).
Proof. unfold isByteValue, toByte. apply Z.mod_pos_bound. lia. Qed.

Lemma appendUint16_bytes b v :
  Forall isByteValue b -> Forall isByteValue (appendUint16 b v).
Proof.
  intros Hb. unfold appendUint16, splitUint16.
  repeat (apply Forall_app; split); auto;
    (constructor; [apply toByte_isByte|constructor]).
Qed.

Lemma opSelector_bound t1 t2 : 0 <= opSelector t1 t2 < 8.
Proof. destruct t1, t2; simpl; lia. Qed.

Lemma lor_byte x y : isByteValue x -> 0 <= y < 8 -> isByteValue (Z.lor x y).
Proof.
  unfold isByteValue. intros Hx Hy.
  assert (Hlor : 0 <= Z.lor x y) by (apply Z.lor_nonneg; lia).
  split; [exact Hlor|].
  destruct (Z.eq_dec (Z.lor x y) 0) as [->|Hne]; [lia|].
  change 256 with (2 ^ 8). apply (proj2 (Z.log2_lt_pow2 (Z.lor x y) 8 ltac:(lia))).
  rewrite Z.log2_lor by lia. apply Z.max_lub_lt.
  - destruct (Z.eq_dec x 0) as [->|Hx0]; [simpl; lia|].
    apply (proj1 (Z.log2_lt_pow2 x 8 ltac:(lia))). change (2 ^ 8) with 256. lia.
  - destruct (Z.eq_dec y 0) as [->|Hy0]; [simpl; lia|].
    apply (proj1 (Z.log2_lt_pow2 y 8 ltac:(lia))). change (2 ^ 8) with 256. lia.
Qed.

Lemma buildBinSrcLine_bytes s :
  Forall isByteValue (bin s) -> Forall isByteValue (bin (buildBinSrcLine s)).
Proof.
  intros Hb. unfold buildBinSrcLine. destruct (isValidDataDirective (mnemonic s)).
  - unfold buildData.
    destruct (String.eqb (mnemonic s) (directiveTokens data8BitDirective)).
    + cbn [bin withBin]. revert Hb. generalize (bin s).
      induction (Split (data s) dataDlm) as [|d l IH]; intros b Hb; [exact Hb|].
      cbn [fold_left]. apply IH. apply Forall_app. split; [exact Hb|].
      constructor; [apply toByte_isByte|constructor].
    + destruct (String.eqb (mnemonic s) (directiveTokens data16BitDirective));
        [|exact Hb].
      cbn [bin withBin]. revert Hb. generalize (bin s).
      induction (Split (data s) dataDlm) as [|d l IH]; intros b Hb; [exact Hb|].
      cbn [fold_left]. apply IH. by apply appendUint16_bytes.
  - unfold buildInstr, buildOps.
    assert (Ho : Forall isByteValue (bin (buildOpcode s))).
    { unfold buildOpcode. cbn [bin withBin]. apply Forall_app. split; [exact Hb|].
      constructor; [|constructor].
      apply lor_byte; [apply toByte_isByte|apply opSelector_bound]. }
    repeat destruct (_ =? _); cbn [bin withBin]; auto using appendUint16_bytes.
Qed.

(** X2: Every element of the image is a byte, whatever the statements hold:
    the conversions [byte(...)] and [uint16(...)] and the three selector
    bits keep each value within 0..255. *)
Theorem image_is_bytes (srcLines : list srcLine) (programOffset : Z) :
  Forall (fun s => Forall isByteValue (bin s)) srcLines ->
  Forall isByteValue (buildBin (buildBinSrcLines srcLines) programOffset).
Proof.
  intros H. unfold buildBin. rewrite buildBin_concat. apply Forall_app. split.
  - apply appendUint16_bytes. unfold binMagicHeader.
    repeat (constructor; [unfold isByteValue; lia|]). constructor.
  - apply Forall_concat, Forall_map. unfold buildBinSrcLines. apply Forall_map.
    eapply Forall_impl; [exact H|]. intros s Hs. by apply buildBinSrcLine_bytes.
Qed.

Lemma image_is_bytes_witness :
  Forall (fun s => Forall isByteValue (bin s)) [noLine; coLine]
  /\ Forall isByteValue (buildBin (buildBinSrcLines [noLine; coLine]) 0x1234).
Proof.
  assert (H : Forall (fun s => Forall isByteValue (bin s)) [noLine; coLine])
    by (constructor; [constructor|constructor; constructor]).
  split; [exact H|]. exact (image_is_bytes [noLine; coLine] 0x1234 H).
Defined.

Lemma instruction_length m d :
  mnemonics !! m = Some d -> isValidDataDirective m = false ->
  instrLength d = 1 \/ instrLength d = 3 \/ instrLength d = 5.
Proof.
  intros E Hd. apply elem_of_list_to_map_2, list_elem_of_In in E.
  assert (H : forallb instructionOk mnemonicList = true) by reflexivity.
  rewrite forallb_forall in H. specialize (H (m, d) E).
  unfold instructionOk in H. cbn [fst snd] in H. rewrite Hd in H. cbn [orb] in H.
  repeat (apply orb_true_iff in H as [H|H]); apply Z.eqb_eq in H; auto.
Qed.

Lemma length_appendUint16 b v : length (appendUint16 b v) = (length b + 2)%nat.
Proof.
  unfold appendUint16. destruct (splitUint16 v). rewrite !length_app. simpl. lia.
Qed.

Lemma validateMnemonics_Forall ls :
  validateMnemonics ls = Ok tt <-> Forall (fun s => is_Some (mnemonics !! mnemonic s)) ls.
Proof.
  induction ls as [|s ls IH]; cbn [validateMnemonics].
  - split; [constructor|reflexivity].
  - rewrite Forall_cons, <- IH. destruct (mnemonics !! mnemonic s) as [d|].
    + split; [intros H; split; [by eexists|exact H]|tauto].
    + split; [discriminate|]. intros [[x Hx] _]. discriminate Hx.
Qed.

(** A statement with a known mnemonic is encoded in as many bytes as
    [calcAddresses] counts for it. *)
Lemma encoded_length s :
  is_Some (mnemonics !! mnemonic s) ->
  Z.of_nat (length (bin (buildBinSrcLine s))) = Z.of_nat (length (bin s)) + stepLength s.
Proof.
  intros [d Hd]. unfold buildBinSrcLine, stepLength.
  destruct (isValidDataDirective (mnemonic s)) eqn:Ed.
  - unfold buildData.
    destruct (String.eqb (mnemonic s) (directiveTokens data8BitDirective)) eqn:E8.
    + cbn [bin withBin]. generalize (bin s).
      induction (Split (data s) dataDlm) as [|x l IH]; intros b; [simpl; lia|].
      cbn [fold_left length]. rewrite IH, length_app. simpl. lia.
    + destruct (String.eqb (mnemonic s) (directiveTokens data16BitDirective)) eqn:E16.
      * cbn [bin withBin]. generalize (bin s).
        induction (Split (data s) dataDlm) as [|x l IH]; intros b; [simpl; lia|].
        cbn [fold_left length]. rewrite IH, length_appendUint16. lia.
      * apply isValidDataDirective_cases in Ed as [Ed|Ed].
        -- rewrite Ed in E8. discriminate E8.
        -- rewrite Ed in E16. discriminate E16.
  - unfold mnemonicAt. unfold buildInstr, buildOps.
    change (mnemonic (buildOpcode s)) with (mnemonic s).
    unfold mnemonicAt. rewrite Hd. cbn [from_option id].
    assert (Ho : length (bin (buildOpcode s)) = (length (bin s) + 1)%nat).
    { unfold buildOpcode. cbn [bin withBin]. rewrite length_app. reflexivity. }
    destruct (instruction_length _ _ Hd Ed) as [E|[E|E]]; rewrite E;
      cbn [Z.eqb Pos.eqb bin withBin]; rewrite ?length_appendUint16, Ho; lia.
Qed.

Lemma calcAddressesFrom_Forall2 ls : forall pc ls',
  calcAddressesFrom pc ls = Ok ls' ->
  Forall2 (fun s s' => exists a, s' = withAddress s a) ls ls'.
Proof.
  induction ls as [|s ls IH]; intros pc ls' H; cbn [calcAddressesFrom] in H.
  - injection H as <-. constructor.
  - destruct (maxAddressSpace <=? pc + stepLength s); [discriminate H|].
    destruct (calcAddressesFrom (pc + stepLength s) ls) as [l|e] eqn:Er;
      [|discriminate H].
    cbn [bind] in H. injection H as <-. constructor; [by eexists|by eapply IH].
Qed.

Lemma expandLabels_Forall2 unicodeUpper ls tbl : forall ls',
  expandLabels unicodeUpper ls tbl = Ok ls' ->
  Forall2 (fun s s' => exists o1 o2, s' = withOp2 (withOp1 s o1) o2) ls ls'.
Proof.
  induction ls as [|s ls IH]; intros ls' H; cbn [expandLabels] in H.
  - injection H as <-. constructor.
  - destruct (expandOp unicodeUpper tbl (lineNum s + 1) (op1 s)) as [o1|]; [|discriminate H].
    destruct (expandOp unicodeUpper tbl (lineNum s + 1) (op2 s)) as [o2|]; [|discriminate H].
    destruct (expandLabels unicodeUpper ls tbl) as [l|]; [|discriminate H].
    cbn [bind] in H. injection H as <-. constructor; [by do 2 eexists|by apply IH].
Qed.

Lemma concat_lengths (enc : srcLine -> list Z) resolved ls :
  Forall2 (fun r s0 => Z.of_nat (length (enc r)) = stepLength s0) resolved ls ->
  forall i, Z.of_nat (length (concat (map enc (take i resolved))))
            = totalLength (take i ls).
Proof.
  induction 1 as [|r s0 resolved ls Hr _ IH]; intros i.
  - by rewrite !take_nil.
  - destruct i as [|i]; [reflexivity|].
    cbn [take map concat totalLength fold_right]. fold (totalLength (take i ls)).
    rewrite length_app, <- IH. lia.
Qed.

(** X3: The addresses agree with the image: after [validateMnemonics],
    [calcAddresses] and [expandLabels], the bytes of a statement start in
    the image at its address minus the load offset, behind the 6 bytes of
    header; the statement takes as many bytes as the resolver counted for
    it, and the image has 6 bytes more than all statements together. *)
Theorem layout_matches_addresses unicodeUpper (srcLines addressed resolved : list srcLine)
    (programOffset : Z) (labelAddresses : gmap string Z) (i : nat) (s : srcLine) :
  validateMnemonics srcLines = Ok tt ->
  Forall (fun s => bin s = []) srcLines ->
  calcAddresses srcLines programOffset = Ok addressed ->
  expandLabels unicodeUpper addressed labelAddresses = Ok resolved ->
  resolved !! i = Some s ->
  let image := buildBin (buildBinSrcLines resolved) programOffset in
  let encoded := bin (buildBinSrcLine s) in
  take (length encoded) (drop (Z.to_nat (6 + (address s - programOffset))) image)
  = encoded
  /\ Z.of_nat (length encoded) = stepLength s
  /\ Z.of_nat (length image) = 6 + totalLength srcLines.
Proof.
  intros Hm Hb Ha He Hi.
  apply validateMnemonics_Forall in Hm.
  pose proof (calcAddressesFrom_Forall2 _ _ _ Ha) as F1.
  pose proof (expandLabels_Forall2 _ _ _ _ He) as F2.
  assert (F : Forall2 (fun r s0 =>
                Z.of_nat (length (bin (buildBinSrcLine r))) = stepLength s0
                /\ stepLength r = stepLength s0) resolved srcLines).
  { clear Hi Ha He. revert resolved F2.
    induction F1 as [|s0 a ls la [x ->] _ IH]; intros resolved F2.
    - inversion F2. constructor.
    - inversion F2 as [|a' r la' lr (o1 & o2 & ->) F2' E1 E2]. subst.
      apply Forall_cons in Hm as [Hs0 Hm]. apply Forall_cons in Hb as [Hb0 Hb].
      constructor; [|by apply IH].
      rewrite encoded_length by exact Hs0.
      cbn [bin withOp2 withOp1 withAddress]. rewrite Hb0. split; reflexivity. }
  assert (Fl : Forall2 (fun r s0 =>
                 Z.of_nat (length (bin (buildBinSrcLine r))) = stepLength s0)
                 resolved srcLines)
    by (eapply Forall2_impl; [exact F|]; by intros ? ? [? _]).
  pose proof (concat_lengths (fun r => bin (buildBinSrcLine r)) _ _ Fl) as Hlen.
  destruct (Forall2_lookup_l _ _ _ _ _ F Hi) as (s0 & Hs0 & Henc & Hstep).
  assert (Haddr : address s = programOffset + totalLength (take i srcLines)).
  { destruct (calcAddressesFrom_ok _ _ _ Ha) as [_ Hnth].
    assert (Hai : exists a, addressed !! i = Some a /\ address s = address a).
    { clear -F2 Hi. revert i Hi. induction F2 as [|a r la lr (o1 & o2 & ->) _ IH];
        intros [|i] Hi; try discriminate.
      - injection Hi as <-. by exists a.
      - by apply IH. }
    destruct Hai as (a & Hai & ->).
    destruct (Hnth i a Hai) as (s1 & _ & -> & _). reflexivity. }
  intros image encoded.
  assert (Himg : image = (appendUint16 binMagicHeader programOffset
                           ++ concat (map (fun r => bin (buildBinSrcLine r)) (take i resolved)))
                          ++ encoded
                          ++ concat (map (fun r => bin (buildBinSrcLine r)) (drop (S i) resolved))).
  { unfold image, buildBin, buildBinSrcLines. rewrite buildBin_concat, map_map.
    rewrite <- (take_drop_middle _ _ _ Hi) at 1.
    rewrite map_app, concat_app. cbn [map concat]. by rewrite <- !app_assoc. }
  split; [|split].
  - rewrite Himg, drop_app_length'.
    + by rewrite take_app_length.
    + rewrite length_app, length_appendUint16. cbn [length binMagicHeader].
      specialize (Hlen i). pose proof (totalLength_nonneg (take i srcLines)). lia.
  - unfold encoded. rewrite Henc. by rewrite Hstep.
  - unfold image, buildBin, buildBinSrcLines. rewrite buildBin_concat, map_map.
    rewrite length_app, length_appendUint16. cbn [length binMagicHeader].
    specialize (Hlen (length resolved)). rewrite take_ge in Hlen by lia.
    rewrite take_ge in Hlen by (rewrite <- (Forall2_length _ _ _ Fl); lia). lia.
Qed.

Lemma layout_matches_addresses_witness :
  validateMnemonics [noLine; cmLine] = Ok tt
  /\ Forall (fun s => bin s = []) [noLine; cmLine]
  /\ calcAddresses [noLine; cmLine] 0x0100 = Ok addressedExample
  /\ expandLabels sameCase addressedExample (getLabelAddresses addressedExample)
     = Ok resolvedExample
  /\ resolvedExample !! 1%nat = Some resolvedCm
  /\ take (length (bin (buildBinSrcLine resolvedCm)))
       (drop (Z.to_nat (6 + (address resolvedCm - 0x0100)))
          (buildBin (buildBinSrcLines resolvedExample) 0x0100))
     = bin (buildBinSrcLine resolvedCm)
  /\ Z.of_nat (length (bin (buildBinSrcLine resolvedCm))) = stepLength resolvedCm
  /\ Z.of_nat (length (buildBin (buildBinSrcLines resolvedExample) 0x0100))
     = 6 + totalLength [noLine; cmLine].
Proof.
  assert (H1 : validateMnemonics [noLine; cmLine] = Ok tt) by reflexivity.
  assert (H2 : Forall (fun s => bin s = []) [noLine; cmLine])
    by (constructor; [reflexivity|constructor; [reflexivity|constructor]]).
  assert (H3 : calcAddresses [noLine; cmLine] 0x0100 = Ok addressedExample)
    by reflexivity.
  assert (H4 : expandLabels sameCase addressedExample (getLabelAddresses addressedExample)
               = Ok resolvedExample) by reflexivity.
  assert (H5 : resolvedExample !! 1%nat = Some resolvedCm) by reflexivity.
  repeat (split; [assumption|]).
  exact (layout_matches_addresses sameCase [noLine; cmLine] addressedExample
           resolvedExample 0x0100 (getLabelAddresses addressedExample) 1 resolvedCm
           H1 H2 H3 H4 H5).
Defined.

(** ** Labels and statements *)

Lemma isSrcLabel_guard l : nonEmpty l && isSrcLabel l = isSrcLabel l.
Proof. destruct l; reflexivity. Qed.

Lemma hasDupeSrcLabelsFrom_None srcLines : forall lineNum (srcLabels : gset string),
  hasDupeSrcLabelsFrom lineNum srcLines srcLabels = None
  <-> (forall i l, srcLines !! i = Some l -> isSrcLabel l = true -> l ∉ srcLabels)
      /\ (forall i j l, srcLines !! i = Some l -> srcLines !! j = Some l ->
            isSrcLabel l = true -> i = j).
Proof.
  induction srcLines as [|x ls IH]; intros lineNum srcLabels.
  - cbn [hasDupeSrcLabelsFrom]. split; [|reflexivity]. intros _.
    split; intros; discriminate.
  - cbn [hasDupeSrcLabelsFrom]. rewrite isSrcLabel_guard.
    destruct (isSrcLabel x) eqn:Ex.
    + destruct (bool_decide (x ∈ srcLabels)) eqn:Ein.
      * apply bool_decide_eq_true in Ein. split; [discriminate|].
        intros [Hseen _]. exfalso. by apply (Hseen 0%nat x).
      * apply bool_decide_eq_false in Ein. rewrite IH. split.
        -- intros [Hseen Huniq]. split.
           ++ intros [|i] l Hl Hlab.
              ** injection Hl as <-. exact Ein.
              ** intros Hin. apply (Hseen i l Hl Hlab). apply elem_of_union. by right.
           ++ intros [|i] [|j] l Hi Hj Hlab; [reflexivity| | |].
              ** injection Hi as <-. exfalso. apply (Hseen j x Hj Hlab).
                 apply elem_of_union. left. by apply elem_of_singleton.
              ** injection Hj as <-. exfalso. apply (Hseen i x Hi Hlab).
                 apply elem_of_union. left. by apply elem_of_singleton.
              ** f_equal. by apply (Huniq i j l).
        -- intros [Hseen Huniq]. split.
           ++ intros i l Hl Hlab Hin. apply elem_of_union in Hin as [Hin|Hin].
              ** apply elem_of_singleton in Hin. subst l.
                 specialize (Huniq (S i) 0%nat x Hl eq_refl Hlab). discriminate.
              ** by apply (Hseen (S i) l).
           ++ intros i j l Hi Hj Hlab.
              specialize (Huniq (S i) (S j) l Hi Hj Hlab). by injection Huniq.
    + rewrite IH. split.
      * intros [Hseen Huniq]. split.
        -- intros [|i] l Hl Hlab; [injection Hl as <-; congruence|].
           by apply (Hseen i l).
        -- intros [|i] [|j] l Hi Hj Hlab; [reflexivity| | |].
           ++ injection Hi as <-. congruence.
           ++ injection Hj as <-. congruence.
           ++ f_equal. by apply (Huniq i j l).
      * intros [Hseen Huniq]. split.
        -- intros i l Hl Hlab. by apply (Hseen (S i) l).
        -- intros i j l Hi Hj Hlab.
           specialize (Huniq (S i) (S j) l Hi Hj Hlab). by injection Huniq.
Qed.

Lemma hasDupeSrcLabelsFrom_Some srcLines : forall lineNum (srcLabels : gset string) l n,
  hasDupeSrcLabelsFrom lineNum srcLines srcLabels = Some (l, n) ->
  exists j, n = lineNum + Z.of_nat j /\ srcLines !! j = Some l /\ isSrcLabel l = true
            /\ (l ∈ srcLabels \/ exists i, (i < j)%nat /\ srcLines !! i = Some l).
Proof.
  induction srcLines as [|x ls IH]; intros lineNum srcLabels l n H;
    cbn [hasDupeSrcLabelsFrom] in H; [discriminate H|].
  rewrite isSrcLabel_guard in H. destruct (isSrcLabel x) eqn:Ex.
  - destruct (bool_decide (x ∈ srcLabels)) eqn:Ein.
    + apply bool_decide_eq_true in Ein. injection H as <- <-.
      exists 0%nat. split_and!; [lia|done|done|by left].
    + destruct (IH _ _ _ _ H) as (j & -> & Hj & Hlab & Hprev).
      exists (S j). split_and!; [lia|done|done|].
      destruct Hprev as [Hin|(i & Hi & Hli)].
      * apply elem_of_union in Hin as [Hin|Hin]; [|by left].
        apply elem_of_singleton in Hin. subst l. right. exists 0%nat. split; [lia|done].
      * right. exists (S i). split; [lia|done].
  - destruct (IH _ _ _ _ H) as (j & -> & Hj & Hlab & Hprev).
    exists (S j). split_and!; [lia|done|done|].
    destruct Hprev as [Hin|(i & Hi & Hli)]; [by left|].
    right. exists (S i). split; [lia|done].
Qed.

(** X4: [hasDupeSrcLabels] finds no duplicate exactly when no label line
    occurs twice, however far apart; the duplicate it reports is a label
    line that repeats an earlier line, with its line index. *)
Theorem duplicate_labels_detected (srcLines : list string) :
  (hasDupeSrcLabels srcLines = None
   <-> forall i j l, srcLines !! i = Some l -> srcLines !! j = Some l ->
         isSrcLabel l = true -> i = j)
  /\ (forall l n, hasDupeSrcLabels srcLines = Some (l, n) ->
        exists i j, n = Z.of_nat j /\ (i < j)%nat /\ isSrcLabel l = true
                    /\ srcLines !! i = Some l /\ srcLines !! j = Some l).
Proof.
  unfold hasDupeSrcLabels. split.
  - rewrite hasDupeSrcLabelsFrom_None. split; [tauto|]. intros H. split; [|exact H].
    intros i l _ _. apply not_elem_of_empty.
  - intros l n H. destruct (hasDupeSrcLabelsFrom_Some _ _ _ _ _ H)
      as (j & -> & Hj & Hlab & [Hin|(i & Hi & Hli)]).
    + by apply not_elem_of_empty in Hin.
    + exists i, j. split_and!; [lia|lia|done|done|done].
Qed.

Lemma structLine_lineNum unicodeUpper srcLines i line :
  lineNum (structLine unicodeUpper srcLines i line) = Z.of_nat i.
Proof.
  unfold structLine. destruct (isSrcDataLine line).
  - by destruct (splitSrcDataLine line).
  - destruct (splitSrcCodeLine line) as [[m o1] o2].
    by destruct (splitOp o1), (splitOp o2).
Qed.

Lemma buildStructSrcFrom_lookup unicodeUpper all rest : forall i p s,
  buildStructSrcFrom unicodeUpper all i rest !! p = Some s ->
  exists j text, rest !! j = Some text /\ nonEmpty text = true
                 /\ isSrcLabel text = false
                 /\ s = structLine unicodeUpper all (i + j) text.
Proof.
  induction rest as [|x rest IH]; intros i p s H; cbn [buildStructSrcFrom] in H;
    [discriminate H|].
  destruct (nonEmpty x && negb (isSrcLabel x)) eqn:E.
  - apply andb_true_iff in E as [En El]. apply negb_true_iff in El.
    destruct p as [|p].
    + injection H as <-. exists 0%nat, x. rewrite Nat.add_0_r. by split_and!.
    + destruct (IH _ _ _ H) as (j & text & Hj & Hn & Hl & ->).
      exists (S j), text. replace (i + S j)%nat with (S i + j)%nat by lia. by split_and!.
  - destruct (IH _ _ _ H) as (j & text & Hj & Hn & Hl & ->).
    exists (S j), text. replace (i + S j)%nat with (S i + j)%nat by lia. by split_and!.
Qed.

Lemma buildStructSrcFrom_sorted unicodeUpper all rest : forall i p q s t,
  (p < q)%nat ->
  buildStructSrcFrom unicodeUpper all i rest !! p = Some s ->
  buildStructSrcFrom unicodeUpper all i rest !! q = Some t ->
  lineNum s < lineNum t.
Proof.
  induction rest as [|x rest IH]; intros i p q s t Hpq Hs Ht;
    cbn [buildStructSrcFrom] in Hs, Ht; [discriminate Hs|].
  destruct (nonEmpty x && negb (isSrcLabel x)).
  - destruct q as [|q]; [lia|]. destruct p as [|p].
    + injection Hs as <-. cbn [lookup list_lookup] in Ht.
      destruct (buildStructSrcFrom_lookup _ _ _ _ _ _ Ht) as (j & text & _ & _ & _ & ->).
      rewrite !structLine_lineNum. lia.
    + apply (IH (S i) p q); [lia|exact Hs|exact Ht].
  - by apply (IH (S i) p q).
Qed.

Lemma buildStructSrcFrom_complete unicodeUpper all rest : forall i j text,
  rest !! j = Some text -> nonEmpty text = true -> isSrcLabel text = false ->
  exists p, buildStructSrcFrom unicodeUpper all i rest !! p
            = Some (structLine unicodeUpper all (i + j) text).
Proof.
  induction rest as [|x rest IH]; intros i j text Hj Hn Hl; [discriminate Hj|].
  cbn [buildStructSrcFrom]. destruct j as [|j].
  - injection Hj as <-. rewrite Hn, Hl. cbn [andb negb]. exists 0%nat.
    by rewrite Nat.add_0_r.
  - destruct (IH (S i) j text Hj Hn Hl) as [p Hp].
    replace (i + S j)%nat with (S i + j)%nat by lia.
    destruct (nonEmpty x && negb (isSrcLabel x)); [by exists (S p)|by exists p].
Qed.

(** X5: [buildStructSrc] makes one statement for each line that is neither
    empty nor a label line, and for no other: every statement is
    [structLine] of such a line and carries its index as [lineNum], the
    statements are in the order of the lines, and no such line is left
    out. *)
Theorem statements_follow_lines unicodeUpper (srcLines : list string) :
  (forall p s, buildStructSrc unicodeUpper srcLines !! p = Some s ->
     exists j text, lineNum s = Z.of_nat j /\ srcLines !! j = Some text
                    /\ text <> EmptyString /\ isSrcLabel text = false
                    /\ s = structLine unicodeUpper srcLines j text)
  /\ (forall p q s t, (p < q)%nat ->
        buildStructSrc unicodeUpper srcLines !! p = Some s ->
        buildStructSrc unicodeUpper srcLines !! q = Some t ->
        lineNum s < lineNum t)
  /\ (forall j text, srcLines !! j = Some text -> text <> EmptyString ->
        isSrcLabel text = false ->
        exists p, buildStructSrc unicodeUpper srcLines !! p
                  = Some (structLine unicodeUpper srcLines j text)).
Proof.
  unfold buildStructSrc. split_and!.
  - intros p s H.
    destruct (buildStructSrcFrom_lookup _ _ _ _ _ _ H) as (j & text & Hj & Hn & Hl & ->).
    exists j, text. rewrite structLine_lineNum. split_and!; try done.
    by apply nonEmpty_true.
  - apply buildStructSrcFrom_sorted.
  - intros j text Hj Hn Hl. apply nonEmpty_true in Hn.
    by apply (buildStructSrcFrom_complete unicodeUpper srcLines srcLines 0 j text).
Qed.

(** X6: Once [hasDupeSrcLabels] has found no duplicate, no two statements of
    [buildStructSrc] carry the same label. *)
Theorem labels_unique_after_check unicodeUpper (srcLines : list string) :
  hasDupeSrcLabels srcLines = None ->
  uniqueLabels (buildStructSrc unicodeUpper srcLines).
Proof.
  intros Hd. unfold hasDupeSrcLabels in Hd.
  apply hasDupeSrcLabelsFrom_None in Hd as [_ Hd]. unfold buildStructSrc.
  assert (Hlt : forall p q s t, (p < q)%nat ->
            buildStructSrcFrom unicodeUpper srcLines 0 srcLines !! p = Some s ->
            buildStructSrcFrom unicodeUpper srcLines 0 srcLines !! q = Some t ->
            nonEmpty (label s) = true -> label s = label t -> False).
  { intros p q s t Hpq Hs Ht Hn Heq.
    pose proof (buildStructSrcFrom_sorted _ _ _ _ p q s t Hpq Hs Ht) as Hnum.
    destruct (buildStructSrcFrom_lookup _ _ _ _ _ _ Hs) as (j1 & x1 & Hx1 & Hne1 & Hl1 & ->).
    destruct (buildStructSrcFrom_lookup _ _ _ _ _ _ Ht) as (j2 & x2 & Hx2 & Hne2 & Hl2 & ->).
    cbn [Nat.add] in *.
    rewrite !structLine_lineNum in Hnum. rewrite !structLine_label in *.
    apply nonEmpty_true in Hn.
    destruct (proj1 (getSrcLabel_attach srcLines j1 _) (conj eq_refl Hn))
      as (k1 & Hk1 & Hlk1 & Hlab1 & _).
    rewrite Heq in Hn.
    destruct (proj1 (getSrcLabel_attach srcLines j2 _) (conj eq_refl Hn))
      as (k2 & Hk2 & Hlk2 & Hlab2 & Hgap2).
    rewrite <- Heq in Hlk2.
    assert (k1 = k2) by (by apply (Hd k1 k2 _ Hlk1 Hlk2)). subst k2.
    assert (Hx : srcLines !! j1 = Some EmptyString) by (apply Hgap2; lia).
    rewrite Hx1 in Hx. injection Hx as ->. discriminate Hne1. }
  intros i j s t Hs Ht Hn Heq.
  destruct (lt_eq_lt_dec i j) as [[Hlt' | Heq' ] | Hgt]; [|exact Heq'|].
  - exfalso. by apply (Hlt i j s t).
  - exfalso. apply (Hlt j i t s); [done|done|done|by rewrite <- Heq|done].
Qed.

Lemma labels_unique_after_check_witness :
  hasDupeSrcLabels labelSource = None
  /\ uniqueLabels (buildStructSrc sameCase labelSource).
Proof.
  assert (H : hasDupeSrcLabels labelSource = None) by (vm_compute; reflexivity).
  split; [exact H|]. exact (labels_unique_after_check sameCase labelSource H).
Defined.

(** ** The constant table *)

Lemma getConstsFrom_grows srcLines : forall lineNum (consts : gmap string string),
  consts ⊆ snd (getConstsFrom lineNum srcLines consts).
Proof.
  induction srcLines as [|l ls IH]; intros lineNum consts; cbn [getConstsFrom];
    [done|].
  destruct (nonEmpty l && String.eqb (first1 l) "["); [|apply IH].
  destruct (consts !! findConstName l) eqn:E; [done|].
  destruct (findConstValue l) as [|c v]; [done|].
  etrans; [|apply IH]. by apply insert_subseteq.
Qed.

Lemma getConsts_grows srcLines w :
  defaultConsts w ⊆ defaultConsts (snd (getConsts srcLines w)).
Proof.
  unfold getConsts. pose proof (getConstsFrom_grows srcLines 0 (defaultConsts w)) as H.
  destruct (getConstsFrom 0 srcLines (defaultConsts w)) as [r consts]. exact H.
Qed.

Section Package.

Variable ReadSrc : string -> result (list string).
Variable rangeOrder : nat -> gmap string string -> list (string * string).
Variable unicodeUpper : string -> string.

Lemma expandConsts_grows srcLines w :
  defaultConsts w ⊆ defaultConsts (snd (expandConsts rangeOrder srcLines w)).
Proof.
  unfold expandConsts. pose proof (getConsts_grows srcLines w) as H.
  destruct (getConsts srcLines w) as [[expandedConsts|e] w']; [|exact H].
  destruct (expandConstsFrom rangeOrder 0 srcLines expandedConsts (ranges w')).
  exact H.
Qed.

Lemma addIncludes_grows srcLines : forall w,
  defaultConsts w ⊆ defaultConsts (snd (addIncludes ReadSrc rangeOrder srcLines w)).
Proof.
  induction srcLines as [|l ls IH]; intros w; cbn [addIncludes]; [done|].
  destruct (startsWith incToken l).
  - destruct (ReadSrc (TrimSpace (dropBytes 1 l) +:+ IncExt)) as [rawIncLines|e]; [|done].
    pose proof (expandConsts_grows (cleanSrc rawIncLines) w) as H.
    destruct (expandConsts rangeOrder (cleanSrc rawIncLines) w) as [[expanded|e] w'];
      [|exact H].
    destruct (hasInclude expanded); [exact H|].
    specialize (IH w'). destruct (addIncludes ReadSrc rangeOrder ls w') as [r w''].
    by etrans.
  - specialize (IH w). by destruct (addIncludes ReadSrc rangeOrder ls w) as [r w'].
Qed.

(** X7: [Raw] only adds to the constant table of the package: every entry
    that is there before a call, built in or written by an earlier call, is
    there with the same value after it, whether the call succeeds or
    fails. *)
Theorem constants_are_never_overwritten (rawSrcLines : list string)
    (srcName : string) (programOffset : Z) (w : world) :
  defaultConsts w
  ⊆ defaultConsts
      (snd (Raw ReadSrc rangeOrder unicodeUpper rawSrcLines srcName programOffset w)).
Proof.
  unfold Raw.
  pose proof (expandConsts_grows (cleanSrc rawSrcLines) w) as H1.
  destruct (expandConsts rangeOrder (cleanSrc rawSrcLines) w) as [[expanded|e] w1];
    [|exact H1].
  pose proof (addIncludes_grows (addSrcLabelNamespaces expanded srcName) w1) as H2.
  destruct (addIncludes ReadSrc rangeOrder (addSrcLabelNamespaces expanded srcName) w1)
    as [[included|e] w2]; [|by etrans].
  destruct (hasDupeSrcLabels included) as [[srcLabel lineNum]|]; by etrans.
Qed.

Lemma expandConstsFrom_lines srcLines : forall lineNum consts n expandedSrcLines,
  fst (expandConstsFrom rangeOrder lineNum srcLines consts n) = Ok expandedSrcLines ->
  length expandedSrcLines = length srcLines
  /\ forall i l, srcLines !! i = Some l ->
       l = EmptyString \/ String.eqb (first1 l) constStartToken = true ->
       expandedSrcLines !! i = Some EmptyString.
Proof.
  induction srcLines as [|x ls IH]; intros lineNum consts n out H;
    cbn [expandConstsFrom] in H.
  - injection H as <-. split; [reflexivity|]. intros i l Hl. discriminate Hl.
  - destruct (nonEmpty x) eqn:En.
    + destruct (String.eqb (first1 x) constStartToken) eqn:Ed; cbn [negb] in H.
      * destruct (expandConstsFrom rangeOrder (lineNum + 1) ls consts n) as [r n'] eqn:Er.
        cbn [fst] in H. destruct r as [l0|e]; [|discriminate H].
        cbn [bind] in H. injection H as <-.
        destruct (IH (lineNum + 1) consts n l0) as [Hlen Hnth]; [by rewrite Er|].
        split; [simpl; lia|]. intros [|i] l Hl Hc; [reflexivity|]. by apply (Hnth i l).
      * destruct (nonEmpty (findConstName _)); [discriminate H|].
        destruct (expandConstsFrom rangeOrder (lineNum + 1) ls consts (S n))
          as [r n'] eqn:Er.
        cbn [fst] in H. destruct r as [l0|e]; [|discriminate H].
        cbn [bind] in H. injection H as <-.
        destruct (IH (lineNum + 1) consts (S n) l0) as [Hlen Hnth]; [by rewrite Er|].
        split; [simpl; lia|]. intros [|i] l Hl Hc; [|by apply (Hnth i l)].
        injection Hl as <-. destruct Hc as [->|Hc]; [discriminate En|congruence].
    + destruct x; [|discriminate En].
      destruct (expandConstsFrom rangeOrder (lineNum + 1) ls consts n) as [r n'] eqn:Er.
      cbn [fst] in H. destruct r as [l0|e]; [|discriminate H].
      cbn [bind] in H. injection H as <-.
      destruct (IH (lineNum + 1) consts n l0) as [Hlen Hnth]; [by rewrite Er|].
      split; [simpl; lia|]. intros [|i] l Hl Hc; [reflexivity|]. by apply (Hnth i l).
Qed.

(** X8: When [expandConsts] succeeds it returns as many lines as it was given,
    so that line numbers stay what they were; a line that defines a
    constant and an empty line both come out empty. *)
Theorem expandConsts_keeps_line_numbers (srcLines expandedSrcLines : list string)
    (w : world) :
  fst (expandConsts rangeOrder srcLines w) = Ok expandedSrcLines ->
  length expandedSrcLines = length srcLines
  /\ forall i l, srcLines !! i = Some l ->
       l = EmptyString \/ String.eqb (first1 l) constStartToken = true ->
       expandedSrcLines !! i = Some EmptyString.
Proof.
  unfold expandConsts. destruct (getConsts srcLines w) as [[consts|e] w']; [|discriminate].
  destruct (expandConstsFrom rangeOrder 0 srcLines consts (ranges w')) as [r n] eqn:E.
  cbn [fst]. intros ->. apply (expandConstsFrom_lines srcLines 0 consts (ranges w')).
  by rewrite E.
Qed.

End Package.

Lemma expandConsts_keeps_line_numbers_witness :
  fst (expandConsts keyOrder ["[FOO] 1234"; ""; "CO $[FOO],[GP0]"]%string initialWorld)
  = Ok [""; ""; "CO $1234,FFF0"]%string
  /\ length [""; ""; "CO $1234,FFF0"]%string
     = length ["[FOO] 1234"; ""; "CO $[FOO],[GP0]"]%string.
Proof.
  assert (H : fst (expandConsts keyOrder ["[FOO] 1234"; ""; "CO $[FOO],[GP0]"]%string
                     initialWorld) = Ok [""; ""; "CO $1234,FFF0"]%string)
    by (vm_compute; reflexivity).
  split; [exact H|].
  exact (proj1 (expandConsts_keeps_line_numbers keyOrder _ _ initialWorld H)).
Defined.

Lemma lastClose_name name : forall pos best,
  allBytes nameByte name = true ->
  lastClose (name +:+ "]") pos best
  = if (1 <=? pos + String.length name)%nat then Some (pos + String.length name)%nat
    else best.
Proof.
  induction name as [|c name IH]; intros pos best H.
  - cbn [append lastClose String.length]. rewrite Nat.add_0_r.
    change (isNewline "]") with false. change (isByte 93 "]") with true.
    cbn [andb]. reflexivity.
  - cbn [allBytes] in H. apply andb_true_iff in H as [Hc H].
    unfold nameByte in Hc. apply andb_true_iff in Hc as [H93 Hnl].
    apply negb_true_iff in H93, Hnl.
    cbn [append lastClose String.length]. rewrite Hnl, H93. cbn [andb].
    rewrite IH by done.
    replace (S pos + String.length name)%nat with (pos + S (String.length name))%nat by lia.
    replace (1 <=? pos + S (String.length name))%nat with true
      by (symmetry; apply Nat.leb_le; lia).
    reflexivity.
Qed.

Lemma findConstValue_name name :
  allBytes nameByte name = true -> findConstValue (name +:+ "]") = EmptyString.
Proof.
  induction name as [|c name IH]; intros H; [reflexivity|].
  cbn [allBytes] in H. apply andb_true_iff in H as [Hc H].
  unfold nameByte in Hc. apply andb_true_iff in Hc as [H93 _].
  apply negb_true_iff in H93. cbn [append findConstValue]. rewrite H93. by apply IH.
Qed.

(** X9: A line that only names a constant, [[NAME]] with nothing behind the
    closing bracket, makes [getConsts] panic when the name is new: the
    value is cut with [constValue[1:]] from an empty match.  No error is
    returned, and the lines that follow are not read. *)
Theorem definition_without_value_panics (name : string) (rest : list string)
    (w : world) :
  name <> EmptyString -> allBytes nameByte name = true ->
  defaultConsts w !! ("[" +:+ name +:+ "]") = None ->
  getConsts (("[" +:+ name +:+ "]") :: rest) w = (Err RuntimePanic, w).
Proof.
  intros Hne Hall Hnew. unfold getConsts. cbn [getConstsFrom].
  change ("[" +:+ name +:+ "]") with (String "[" (name +:+ "]")) in *.
  cbn [nonEmpty first1 takeBytes andb].
  change (String.eqb "[" "[") with true. cbn [andb].
  assert (Hn : findConstName (String "[" (name +:+ "]")) = String "[" (name +:+ "]")).
  { cbn [findConstName]. change (isByte 91 "[") with true. cbv iota.
    rewrite lastClose_name by done. cbn [Nat.add].
    destruct name as [|c name]; [done|]. cbn [String.length Nat.leb].
    f_equal. change (S (S (String.length name))) with (S (String.length (String c name))).
    replace (S (String.length (String c name)))
      with (String.length (String c name +:+ "]"))
      by (rewrite length_append; simpl; lia).
    rewrite <- (append_empty_r (String c name +:+ "]")) at 2.
    apply takeBytes_app. }
  rewrite Hn, Hnew.
  assert (Hv : findConstValue (String "[" (name +:+ "]")) = EmptyString).
  { cbn [findConstValue]. change (isByte 93 "[") with false. cbv iota.
    by apply findConstValue_name. }
  rewrite Hv. cbn [bind]. by destruct w.
Qed.

Lemma definition_without_value_panics_witness :
  "FOO"%string <> EmptyString
  /\ allBytes nameByte "FOO" = true
  /\ defaultConsts initialWorld !! "[FOO]"%string = None
  /\ getConsts ["[FOO]"; "NO"]%string initialWorld = (Err RuntimePanic, initialWorld).
Proof.
  assert (H1 : "FOO"%string <> EmptyString) by discriminate.
  assert (H2 : allBytes nameByte "FOO" = true) by reflexivity.
  assert (H3 : defaultConsts initialWorld !! "[FOO]"%string = None) by reflexivity.
  split_and!; try assumption.
  exact (definition_without_value_panics "FOO" ["NO"%string] initialWorld H1 H2 H3).
Defined.

(** ** The normalizer *)

Lemma alias_target a c :
  mnemonicAliases !! a = Some c ->
  is_Some (mnemonics !! c) /\ mnemonicAliases !! c = None.
Proof.
  intros E. apply elem_of_list_to_map_2, list_elem_of_In in E.
  assert (H : forallb aliasOk
                [ ("CO", "CO16"); ("AD", "AD16"); ("SU", "SU16"); ("MU", "MU16");
                  ("DV", "DV16"); ("ND", "ND16"); ("OR", "OR16"); ("XR", "XR16");
                  ("SL", "SL16"); ("SR", "SR16"); ("CM", "CM16"); ("$", "$16") ]%string
              = true) by (vm_compute; reflexivity).
  rewrite forallb_forall in H. specialize (H (a, c) E).
  unfold aliasOk in H. cbn [snd] in H.
  destruct (mnemonics !! c), (mnemonicAliases !! c); try discriminate H.
  split; [by eexists|reflexivity].
Qed.

(** X10: Unaliasing is done in one pass: the mnemonic an alias stands for is a
    known mnemonic and no alias itself, so that [unaliasMnemonics] changes
    nothing when run a second time, and a mnemonic that is no alias is left
    as it is. *)
Theorem unaliasing_is_idempotent (srcLines : list srcLine) :
  unaliasMnemonics (unaliasMnemonics srcLines) = unaliasMnemonics srcLines
  /\ Forall (fun s => mnemonicAliases !! mnemonic s = None)
       (unaliasMnemonics srcLines)
  /\ Forall2 (fun s s' =>
                match mnemonicAliases !! mnemonic s with
                | Some canonical =>
                    s' = withMnemonic s canonical /\ is_Some (mnemonics !! canonical)
                | None => s' = s
                end) srcLines (unaliasMnemonics srcLines).
Proof.
  assert (Hone : forall s, mnemonicAliases !! mnemonic (unaliasMnemonic s) = None).
  { intros s. unfold unaliasMnemonic.
    destruct (mnemonicAliases !! mnemonic s) as [c|] eqn:E; [|exact E].
    cbn [mnemonic withMnemonic]. by apply (alias_target _ _ E). }
  unfold unaliasMnemonics. split_and!.
  - rewrite map_map. apply map_ext. intros s. unfold unaliasMnemonic at 1.
    by rewrite Hone.
  - apply Forall_map, Forall_forall. intros s _. apply Hone.
  - induction srcLines as [|s ls IH]; cbn [map]; constructor; [|exact IH].
    unfold unaliasMnemonic. destruct (mnemonicAliases !! mnemonic s) as [c|] eqn:E;
      [|reflexivity].
    split; [reflexivity|]. by apply (alias_target _ _ E).
Qed.

(** ** The validator *)

Lemma numOps_cases m :
  let d := mnemonicAt m in numOps d = 0 \/ numOps d = 1 \/ numOps d = 2.
Proof.
  intros d. pose proof (mnemonicAt_ok m) as H. fold d in H. unfold descriptorOk in H.
  apply andb_true_iff in H as [_ H].
  repeat (apply orb_true_iff in H as [H|H]);
    apply andb_true_iff in H as [_ Hn]; apply Z.eqb_eq in Hn; lia.
Qed.

(** X11: An instruction passes [validateOps] only with exactly as many operands
    as its mnemonic declares, the first operand before the second, and
    with every operand a numeral of one to four hexadecimal digits. *)
Theorem accepted_operands_match_arity (s : srcLine) :
  isValidDataDirective (mnemonic s) = false ->
  validateOp s = Ok tt ->
  operandCount s = numOps (mnemonicAt (mnemonic s))
  /\ (op2 s <> EmptyString -> op1 s <> EmptyString)
  /\ (op1 s <> EmptyString -> is16BitHexString (op1 s) = true)
  /\ (op2 s <> EmptyString -> is16BitHexString (op2 s) = true).
Proof.
  unfold validateOp, operandCount. intros Hd H. rewrite Hd in H. cbn [negb] in H.
  destruct (numOps_cases (mnemonic s)) as [E|[E|E]]; rewrite E in *;
    cbn [Z.eqb Pos.eqb andb] in H;
    destruct (nonEmpty (op1 s)) eqn:E1, (nonEmpty (op2 s)) eqn:E2;
    cbn [negb orb andb] in H; try discriminate H;
    repeat match type of H with
    | (if negb ?b then _ else _) = _ => destruct b eqn:?; cbn [negb] in H
    end; try discriminate H;
    repeat match goal with
    | Hq : isValidHexString _ = true |- _ => apply isValidHexString_16 in Hq
    | Hq : nonEmpty _ = false |- _ => apply not_true_iff_false in Hq; rewrite nonEmpty_true in Hq
    end;
    split_and!; try done; try lia; intros; try done; by apply nonEmpty_true.
Qed.

Lemma accepted_operands_match_arity_witness :
  isValidDataDirective (mnemonic (withMnemonic coLine "CO16")) = false
  /\ validateOp (withMnemonic coLine "CO16") = Ok tt
  /\ operandCount (withMnemonic coLine "CO16") = 2.
Proof.
  split; [reflexivity|]. split; [reflexivity|].
  exact (proj1 (accepted_operands_match_arity (withMnemonic coLine "CO16")
                  eq_refl eq_refl)).
Defined.

(** X12: An instruction that has not as many operands as its mnemonic
    declares (a zero-operand mnemonic with an operand, a one-operand
    mnemonic without one or with two) is rejected at its line with the
    count the mnemonic needs, whatever else the statement holds and
    whatever follows it. *)
Theorem wrong_arity_is_rejected (s : srcLine) (rest : list srcLine) :
  isValidDataDirective (mnemonic s) = false ->
  operandCount s <> numOps (mnemonicAt (mnemonic s)) ->
  validateOps (s :: rest)
  = Err (WrongOperandArity (lineNum s + 1) (mnemonic s)
           (numOps (mnemonicAt (mnemonic s)))).
Proof.
  unfold operandCount. intros Hd Hc. cbn [validateOps]. unfold validateOp.
  rewrite Hd. cbn [negb].
  destruct (numOps_cases (mnemonic s)) as [E|[E|E]]; rewrite E in *;
    cbn [Z.eqb Pos.eqb andb];
    destruct (nonEmpty (op1 s)) eqn:E1, (nonEmpty (op2 s)) eqn:E2;
    cbn [negb orb andb bind]; try reflexivity; try lia.
Qed.

Lemma wrong_arity_is_rejected_witness :
  isValidDataDirective (mnemonic (withOp1 noLine "1")) = false
  /\ operandCount (withOp1 noLine "1") <> numOps (mnemonicAt (mnemonic (withOp1 noLine "1")))
  /\ validateOps [withOp1 noLine "1"] = Err (WrongOperandArity 2 "NO" 0).
Proof.
  assert (H : operandCount (withOp1 noLine "1")
              <> numOps (mnemonicAt (mnemonic (withOp1 noLine "1"))))
    by (vm_compute; discriminate).
  split; [reflexivity|]. split; [exact H|].
  exact (wrong_arity_is_rejected (withOp1 noLine "1") [] eq_refl H).
Defined.

(** ** Data directives *)

Lemma expandDataNullRepeats_copies_witness :
  isValidDataDirective (mnemonic (dataLine 0 "$16" "(3)")) = true
  /\ data (dataLine 0 "$16" "(3)") = "(" +:+ "3" +:+ ")"
  /\ Atoi "3" = Some 3
  /\ 1 <= 3
  /\ defaultConsts initialWorld !! "[NULL]"%string = Some "0000"%string
  /\ expandDataNullRepeats (defaultConsts initialWorld) [dataLine 0 "$16" "(3)"]
     = Ok [dataLine 0 "$16" "0000,0000,0000"].
Proof.
  assert (H : 1 <= 3) by lia.
  split; [reflexivity|]. split; [reflexivity|]. split; [reflexivity|].
  split; [exact H|]. split; [reflexivity|].
  exact (proj1 (expandDataNullRepeats_copies (defaultConsts initialWorld)
                  (dataLine 0 "$16" "(3)") "3" 3 eq_refl eq_refl eq_refl H eq_refl)).
Defined.

Lemma isDataNullRepeat_parens (digits : string) :
  isDataNullRepeat ("(" +:+ digits +:+ ")") = true
  /\ takeBytes (String.length ("(" +:+ digits +:+ ")") - 2)
       (dropBytes 1 ("(" +:+ digits +:+ ")")) = digits.
Proof.
  split.
  - unfold isDataNullRepeat, len.
    change ("(" +:+ digits +:+ ")") with (String "(" (digits +:+ ")")) at 1 2.
    rewrite <- append_assoc, last1_app_byte. reflexivity.
  - change ("(" +:+ digits +:+ ")") with (String "(" (digits +:+ ")")).
    cbn [dropBytes String.length]. rewrite length_append. cbn [String.length].
    replace (S (String.length digits + 1) - 2)%nat with (String.length digits) by lia.
    apply takeBytes_app.
Qed.

Lemma Split_nullRepeat_head n :
  exists tail, Split (nullRepeat "0000" n) dataDlm = "0000"%string :: tail.
Proof.
  destruct (Z_le_dec 1 n) as [H|H].
  - rewrite nullRepeat_Join by done.
    rewrite (Split_Join (repeat "0000"%string (Z.to_nat n)) dataDlm).
    + replace (Z.to_nat n) with (S (Z.to_nat (n - 1))) by lia. by eexists.
    + replace (Z.to_nat n) with (S (Z.to_nat (n - 1))) by lia. discriminate.
    + by apply repeat_no_sep.
  - unfold nullRepeat. replace (Z.to_nat (n - 1)) with 0%nat by lia. by eexists.
Qed.

(** X14: The repeat syntax cannot be used on an 8-bit directive: [$8 (N)] is
    expanded to copies of the four-digit null value 0000 like a 16-bit
    directive, and the data validation then rejects the statement as
    invalid 8-bit data, for every count. *)
Theorem null_repeat_on_8bit_is_rejected (consts : gmap string string) (s : srcLine)
    (digits : string) (n : Z) :
  mnemonic s = directiveTokens data8BitDirective ->
  data s = "(" +:+ digits +:+ ")" ->
  Atoi digits = Some n ->
  consts !! "[NULL]"%string = Some "0000"%string ->
  exists expanded,
    expandDataNullRepeats consts [s] = Ok [expanded]
    /\ validateDataDirectives [expanded] = Err (InvalidDataWidth (lineNum s + 1) 8).
Proof.
  intros Hm Hd Ha Hc. exists (withData s (nullRepeat "0000" n)). split.
  - cbn [expandDataNullRepeats]. rewrite Hm, Hd.
    destruct (isDataNullRepeat_parens digits) as [-> ->].
    change (isValidDataDirective (directiveTokens data8BitDirective)) with true.
    cbn [andb]. rewrite Ha. cbn [bind]. unfold constAt. rewrite Hc. reflexivity.
  - cbn [validateDataDirectives mnemonic withData data lineNum]. rewrite Hm.
    change (String.eqb (directiveTokens data8BitDirective)
              (directiveTokens data8BitDirective)) with true.
    cbv iota. destruct (Split_nullRepeat_head n) as [tail ->]. reflexivity.
Qed.

Lemma null_repeat_on_8bit_is_rejected_witness :
  mnemonic (dataLine 4 "$8" "(2)") = directiveTokens data8BitDirective
  /\ data (dataLine 4 "$8" "(2)") = "(" +:+ "2" +:+ ")"
  /\ Atoi "2" = Some 2
  /\ defaultConsts initialWorld !! "[NULL]"%string = Some "0000"%string
  /\ exists expanded,
       expandDataNullRepeats (defaultConsts initialWorld) [dataLine 4 "$8" "(2)"]
       = Ok [expanded]
       /\ validateDataDirectives [expanded] = Err (InvalidDataWidth (4 + 1) 8).
Proof.
  split; [reflexivity|]. split; [reflexivity|]. split; [reflexivity|].
  split; [reflexivity|].
  exact (null_repeat_on_8bit_is_rejected (defaultConsts initialWorld)
           (dataLine 4 "$8" "(2)") "2" 2 eq_refl eq_refl eq_refl eq_refl).
Defined.

Lemma matchHex_bad_head n c x : isHexByte c = false -> matchHex n (String c x) = false.
Proof.
  intros H. unfold matchHex. cbn [allBytes]. rewrite H. cbn [andb].
  apply andb_false_r.
Qed.

Lemma Split_head_quote rest :
  exists x tail, Split (String "034" rest) dataDlm = String "034" x :: tail.
Proof.
  cbn [Split]. change (Ascii.eqb "034" dataDlm) with false. cbv iota.
  destruct (Split rest dataDlm) as [|x tail]; by do 2 eexists.
Qed.

(** X15: A quoted string is converted on an 8-bit directive only: on a 16-bit
    directive [convDataStringsToHex] and [expandDataNullRepeats] leave the
    payload as it is, and the data validation rejects the statement as
    invalid 16-bit data. *)
Theorem string_on_16bit_is_rejected unicodeUpper (consts : gmap string string)
    (s : srcLine) :
  mnemonic s = directiveTokens data16BitDirective ->
  isDataString (data s) = true ->
  convDataStringsToHex unicodeUpper [s] = [s]
  /\ expandDataNullRepeats consts [s] = Ok [s]
  /\ validateDataDirectives [s] = Err (InvalidDataWidth (lineNum s + 1) 16).
Proof.
  intros Hm Hs. unfold isDataString in Hs.
  apply andb_true_iff in Hs as [Hs _]. apply andb_true_iff in Hs as [_ Hq].
  destruct (data s) as [|c rest] eqn:Ed; [discriminate Hq|].
  unfold first1 in Hq. cbn [takeBytes] in Hq. apply String.eqb_eq in Hq.
  injection Hq as ->. split_and!.
  - cbn [convDataStringsToHex map]. unfold convDataString. rewrite Hm. reflexivity.
  - cbn [expandDataNullRepeats]. rewrite Ed. unfold isDataNullRepeat, first1.
    cbn [takeBytes]. change (String.eqb "034" nullRepeatStartToken) with false.
    rewrite andb_false_r. by destruct (isValidDataDirective (mnemonic s)).
  - cbn [validateDataDirectives]. rewrite Hm, Ed.
    change (String.eqb (directiveTokens data16BitDirective)
              (directiveTokens data8BitDirective)) with false.
    change (String.eqb (directiveTokens data16BitDirective)
              (directiveTokens data16BitDirective)) with true.
    cbv iota. destruct (Split_head_quote rest) as (x & tail & ->).
    unfold is16BitHexStrings, is16BitHexString. cbn [forallb].
    rewrite matchHex_bad_head by reflexivity. reflexivity.
Qed.

Lemma string_on_16bit_is_rejected_witness :
  mnemonic (dataLine 0 "$16" quotedAB) = directiveTokens data16BitDirective
  /\ isDataString (data (dataLine 0 "$16" quotedAB)) = true
  /\ validateDataDirectives [dataLine 0 "$16" quotedAB] = Err (InvalidDataWidth (0 + 1) 16).
Proof.
  split; [reflexivity|]. split; [reflexivity|].
  exact (proj2 (proj2 (string_on_16bit_is_rejected sameCase ∅
                         (dataLine 0 "$16" quotedAB) eq_refl eq_refl))).
Defined.

(** ** Source lines and operands *)

Lemma SplitN2_no_sep x c : ContainsByte x c = false -> SplitN2 x c = [x].
Proof.
  induction x as [|d x IH]; [reflexivity|]. cbn [ContainsByte SplitN2]. intros H.
  apply orb_false_iff in H as [Hd Hx]. rewrite Hd, (IH Hx). reflexivity.
Qed.

Lemma SplitN2_app_sep x c r :
  ContainsByte x c = false -> SplitN2 (x +:+ String c r) c = [x; r].
Proof.
  induction x as [|d x IH]; cbn [append ContainsByte SplitN2].
  - intros _. by rewrite Ascii.eqb_refl.
  - intros H. apply orb_false_iff in H as [Hd Hx]. by rewrite Hd, (IH Hx).
Qed.

(** X16: [splitSrcCodeLine] takes a line apart where it was put together: at
    the first space and, behind it, at the first comma.  A mnemonic without
    a space and a first operand without a comma come back as written; the
    second operand is everything behind the first comma. *)
Theorem splitSrcCodeLine_round_trip (m o1 o2 : string) :
  ContainsByte m mnemonicOpDlm = false ->
  ContainsByte o1 opDlm = false ->
  splitSrcCodeLine (m +:+ " " +:+ o1 +:+ "," +:+ o2) = (m, o1, o2)
  /\ splitSrcCodeLine (m +:+ " " +:+ o1) = (m, o1, EmptyString)
  /\ splitSrcCodeLine m = (m, EmptyString, EmptyString).
Proof.
  intros Hm Ho. unfold splitSrcCodeLine. split_and!.
  - change (m +:+ " " +:+ o1 +:+ "," +:+ o2)
      with (m +:+ String mnemonicOpDlm (o1 +:+ String opDlm o2)).
    by rewrite !SplitN2_app_sep.
  - change (m +:+ " " +:+ o1) with (m +:+ String mnemonicOpDlm o1).
    by rewrite SplitN2_app_sep, SplitN2_no_sep.
  - by rewrite SplitN2_no_sep.
Qed.

Lemma splitSrcCodeLine_round_trip_witness :
  ContainsByte "CO16" mnemonicOpDlm = false
  /\ ContainsByte "$1" opDlm = false
  /\ splitSrcCodeLine ("CO16" +:+ " " +:+ "$1" +:+ "," +:+ "*FFF0")
     = ("CO16", "$1", "*FFF0")%string.
Proof.
  split; [reflexivity|]. split; [reflexivity|].
  exact (proj1 (splitSrcCodeLine_round_trip "CO16" "$1" "*FFF0" eq_refl eq_refl)).
Defined.

Lemma findLabelFrom_short s : forall run,
  (String.length run + String.length s < 5)%nat ->
  findLabelFrom s run = EmptyString.
Proof.
  induction s as [|c s IH]; intros run H; cbn [findLabelFrom].
  - by replace (5 <=? String.length run)%nat with false
      by (symmetry; apply Nat.leb_gt; simpl in H; lia).
  - cbn [String.length] in H.
    replace (5 <=? String.length run)%nat with false
      by (symmetry; apply Nat.leb_gt; lia).
    destruct (isLabelByte c).
    + apply IH. rewrite length_append. simpl. lia.
    + apply IH. simpl. lia.
Qed.

(** X17: A label reference needs five bytes: an operand of at most four bytes,
    as every valid hexadecimal operand is, goes through [expandLabels]
    unchanged, whatever the label table holds. *)
Theorem short_operand_is_no_label unicodeUpper (labelAddresses : gmap string Z)
    (line : Z) (op : string) :
  (String.length op < 5)%nat ->
  expandOp unicodeUpper labelAddresses line op = Ok op.
Proof.
  intros H. unfold expandOp, getOpLabel, findLabel.
  rewrite findLabelFrom_short by (simpl; lia). by destruct (nonEmpty op).
Qed.

Lemma short_operand_is_no_label_witness :
  (String.length "FFF0" < 5)%nat
  /\ expandOp sameCase (<["FFF0"%string := 7]> ∅) 1 "FFF0" = Ok "FFF0"%string.
Proof.
  assert (H : (String.length "FFF0" < 5)%nat) by (simpl; lia).
  split; [exact H|].
  exact (short_operand_is_no_label sameCase (<["FFF0"%string := 7]> ∅) 1 "FFF0" H).
Defined.



(** ** Cleaning lines *)

Lemma allBytes_append p (x y : string) :
  allBytes p (x +:+ y) = allBytes p x && allBytes p y.
Proof.
  induction x as [|c x IH]; [reflexivity|]. cbn [append allBytes].
  by rewrite IH, andb_assoc.
Qed.

Lemma allBytes_dropBytes p n : forall s,
  allBytes p s = true -> allBytes p (dropBytes n s) = true.
Proof.
  induction n as [|n IH]; intros s H; [exact H|]. destruct s as [|c s]; [exact H|].
  cbn [dropBytes]. cbn [allBytes] in H. apply andb_true_iff in H as [_ H]. by apply IH.
Qed.

Lemma allBytes_takeBytes p n : forall s,
  allBytes p s = true -> allBytes p (takeBytes n s) = true.
Proof.
  induction n as [|n IH]; intros s H; [by destruct s|]. destruct s as [|c s]; [exact H|].
  cbn [takeBytes allBytes] in *. apply andb_true_iff in H as [Hc H].
  by rewrite Hc, IH.
Qed.

Lemma allBytes_of_list p l :
  allBytes p (string_of_list_ascii l) = forallb p l.
Proof. induction l as [|c l IH]; [reflexivity|]. simpl. by rewrite IH. Qed.

Lemma allBytes_to_list p s :
  forallb p (list_ascii_of_string s) = allBytes p s.
Proof. induction s as [|c s IH]; [reflexivity|]. simpl. by rewrite IH. Qed.

Lemma allBytes_revString p s : allBytes p s = true -> allBytes p (revString s) = true.
Proof.
  unfold revString. rewrite allBytes_of_list, <- allBytes_to_list.
  rewrite !forallb_forall. intros H c Hc. apply H. by apply in_rev.
Qed.

Lemma allBytes_trimLeft p pats fuel : forall s,
  allBytes p s = true -> allBytes p (trimLeft fuel pats s) = true.
Proof.
  induction fuel as [|f IH]; intros s H; [exact H|]. cbn [trimLeft].
  destruct (matchHead pats s); [exact H|]. by apply IH, allBytes_dropBytes.
Qed.

Lemma allBytes_TrimSpace p s : allBytes p s = true -> allBytes p (TrimSpace s) = true.
Proof.
  intros H. unfold TrimSpace.
  by apply allBytes_revString, allBytes_trimLeft, allBytes_revString, allBytes_trimLeft.
Qed.

Lemma allBytes_spaceRun p fuel : forall s,
  allBytes p s = true -> allBytes p (snd (spaceRun fuel s)) = true.
Proof.
  induction fuel as [|f IH]; intros s H; [exact H|]. cbn [spaceRun].
  destruct (matchHead reSpaces s) as [|k]; [exact H|].
  specialize (IH (dropBytes (S k) s) (allBytes_dropBytes p _ _ H)).
  by destruct (spaceRun f (dropBytes (S k) s)).
Qed.

Lemma allBytes_collapseFrom p fuel : forall s,
  p " "%char = true -> allBytes p s = true -> allBytes p (collapseFrom fuel s) = true.
Proof.
  induction fuel as [|f IH]; intros s Hsp H; [exact H|]. cbn [collapseFrom].
  destruct s as [|c s]; [reflexivity|].
  destruct (matchHead reSpaces (String c s)) as [|k].
  - cbn [allBytes] in *. apply andb_true_iff in H as [Hc H]. by rewrite Hc, IH.
  - pose proof (allBytes_spaceRun p (String.length (String c s)) _ H) as Hr.
    destruct (spaceRun (String.length (String c s)) (String c s)) as [n r].
    cbn [snd] in Hr. destruct (2 <=? n)%nat.
    + cbn [allBytes]. by rewrite Hsp, IH.
    + rewrite allBytes_append, allBytes_takeBytes, IH; auto using allBytes_dropBytes.
Qed.

Lemma allBytes_removeComments s : forall inComment,
  allBytes notHash (removeComments s inComment) = true.
Proof.
  induction s as [|c s IH]; intros inComment; [reflexivity|]. cbn [removeComments].
  destruct inComment.
  - destruct (isNewline c) eqn:En; [|apply IH].
    cbn [allBytes]. rewrite IH, andb_true_r. unfold notHash.
    apply isByte_true in En. by subst c.
  - destruct (isByte 35 c) eqn:Eh; [apply IH|].
    cbn [allBytes]. rewrite IH, andb_true_r. unfold notHash. by rewrite Eh.
Qed.

Lemma removeComments_in_comment x :
  allBytes (fun c => negb (isNewline c)) x = true -> removeComments x true = EmptyString.
Proof.
  induction x as [|c x IH]; [reflexivity|]. cbn [allBytes removeComments]. intros H.
  apply andb_true_iff in H as [Hc H]. apply negb_true_iff in Hc. rewrite Hc. by apply IH.
Qed.

(** X19: No comment sign is left in a cleaned line, and a line that is a
    comment from its first byte on is cleaned to the empty line (it keeps
    its place, so that the line numbers of the others do not change). *)
Theorem comments_are_removed (srcLines : list string) :
  Forall (fun cleaned => allBytes notHash cleaned = true) (cleanSrc srcLines)
  /\ length (cleanSrc srcLines) = length srcLines
  /\ forall i comment,
       srcLines !! i = Some (String "#" comment) ->
       allBytes (fun c => negb (isNewline c)) comment = true ->
       cleanSrc srcLines !! i = Some EmptyString.
Proof.
  unfold cleanSrc. split_and!.
  - apply Forall_map, Forall_forall. intros l _. unfold cleanLine, collapseSpaces.
    apply allBytes_TrimSpace, allBytes_collapseFrom; [reflexivity|].
    apply allBytes_removeComments.
  - apply length_map.
  - intros i comment Hi Hc. rewrite list_lookup_fmap, Hi. cbn [fmap option_fmap option_map].
    f_equal. unfold cleanLine. cbn [removeComments]. change (isByte 35 "#") with true.
    cbv iota. by rewrite removeComments_in_comment.
Qed.

(** ** Namespaces *)

Lemma flushRun_short f run : (String.length run < 5)%nat -> flushRun f run = run.
Proof.
  intros H. unfold flushRun.
  by replace (5 <=? String.length run)%nat with false by (symmetry; apply Nat.leb_gt; lia).
Qed.

Lemma flushRun_long f run : (5 <= String.length run)%nat -> flushRun f run = f run.
Proof.
  intros H. unfold flushRun.
  by replace (5 <=? String.length run)%nat with true by (symmetry; apply Nat.leb_le; lia).
Qed.

Lemma replaceLabelsFrom_bytes f s : forall run,
  allBytes isLabelByte s = true -> replaceLabelsFrom f s run = flushRun f (run +:+ s).
Proof.
  induction s as [|c s IH]; intros run H.
  - cbn [replaceLabelsFrom]. by rewrite append_empty_r.
  - cbn [allBytes] in H. apply andb_true_iff in H as [Hc H].
    cbn [replaceLabelsFrom]. rewrite Hc, IH by done. by rewrite append_assoc.
Qed.

Lemma replaceLabelsFrom_sep f m c rest : forall run,
  allBytes isLabelByte m = true -> isLabelByte c = false ->
  replaceLabelsFrom f (m +:+ String c rest) run
  = flushRun f (run +:+ m) +:+ String c (replaceLabelsFrom f rest EmptyString).
Proof.
  induction m as [|d m IH]; intros run H Hc.
  - change (EmptyString +:+ String c rest) with (String c rest).
    cbn [replaceLabelsFrom]. by rewrite Hc, append_empty_r.
  - cbn [allBytes] in H. apply andb_true_iff in H as [Hd H].
    change (String d m +:+ String c rest) with (String d (m +:+ String c rest)).
    cbn [replaceLabelsFrom]. rewrite Hd, IH by done. by rewrite append_assoc.
Qed.

Lemma labelByte_no_token c s :
  isLabelByte c = true ->
  String.eqb (first1 (String c s)) incToken = false
  /\ String.eqb (first1 (String c s)) dataLineToken = false.
Proof.
  intros H. unfold first1. cbn [takeBytes].
  split; apply String.eqb_neq; intros E; injection E as ->; discriminate H.
Qed.

Lemma namespaced_line (srcName srcLine : string) (c : ascii) (rest : string) :
  srcLine = String c rest -> isLabelByte c = true \/ c = " "%char ->
  addSrcLabelNamespaces [srcLine] srcName
  = [replaceLabels (qualify (namespaceOf srcName)) srcLine].
Proof.
  intros -> Hc. unfold addSrcLabelNamespaces. cbn [map nonEmpty andb].
  destruct Hc as [Hc| ->].
  - destruct (labelByte_no_token c rest Hc) as [-> ->]. reflexivity.
  - reflexivity.
Qed.

Lemma isSrcLabel_bytes l :
  isSrcLabel l = true <-> (5 <= String.length l)%nat /\ allBytes isLabelByte l = true.
Proof.
  unfold isSrcLabel, matchLabelLine, srcLabelMinLen. rewrite !andb_true_iff, Nat.leb_le.
  split; [tauto|]. intros [Hlen H]. split_and!; [done| |done].
  destruct l; [simpl in Hlen; lia|done].
Qed.

Lemma qualify_label (namespace l : string) :
  isSrcLabel l = true ->
  isSrcLabel (qualify namespace l)
  = ContainsByte l namespaceDlm || allBytes isLabelByte namespace.
Proof.
  intros H. unfold qualify. destruct (ContainsByte l namespaceDlm); [exact H|].
  cbn [orb]. apply isSrcLabel_bytes in H as [Hlen H].
  destruct (allBytes isLabelByte namespace) eqn:En.
  - apply isSrcLabel_bytes. rewrite !length_append, !allBytes_append, En, H.
    split; [lia|reflexivity].
  - destruct (isSrcLabel _) eqn:E; [|reflexivity].
    apply isSrcLabel_bytes in E as [_ E]. rewrite allBytes_append, En in E.
    discriminate E.
Qed.

Lemma namespaced_label_line (srcName l : string) :
  isSrcLabel l = true ->
  addSrcLabelNamespaces [l] srcName = [qualify (namespaceOf srcName) l].
Proof.
  intros H. apply isSrcLabel_bytes in H as [Hlen H].
  destruct l as [|c r]; [simpl in Hlen; lia|].
  pose proof H as Hc. cbn [allBytes] in Hc. apply andb_true_iff in Hc as [Hc _].
  rewrite (namespaced_line srcName _ c r eq_refl (or_introl Hc)).
  unfold replaceLabels. rewrite replaceLabelsFrom_bytes by done.
  change (EmptyString +:+ String c r) with (String c r).
  by rewrite flushRun_long.
Qed.

(** X20: A label and a reference to it in the same file get the same qualified
    name: the label line becomes [qualify namespace l], and so does the
    operand [l] of a statement whose mnemonic is too short to be taken
    for a label.  The qualified label line is still a label line exactly
    when the label was qualified already or the namespace, the name of the
    file up to its first dot, is made of bytes of [[\w.]]: with a
    directory separator in it, the line is no label line any more. *)
Theorem label_and_reference_share_namespace (srcName m l : string) :
  isSrcLabel l = true ->
  allBytes isLabelByte m = true -> (String.length m < 5)%nat ->
  addSrcLabelNamespaces [l; m +:+ " " +:+ l] srcName
  = [qualify (namespaceOf srcName) l; m +:+ " " +:+ qualify (namespaceOf srcName) l]
  /\ isSrcLabel (qualify (namespaceOf srcName) l)
     = ContainsByte l namespaceDlm || allBytes isLabelByte (namespaceOf srcName).
Proof.
  intros Hl Hm Hlen. split; [|by apply qualify_label].
  change (addSrcLabelNamespaces [l; m +:+ " " +:+ l] srcName)
    with (addSrcLabelNamespaces [l] srcName
          ++ addSrcLabelNamespaces [m +:+ " " +:+ l] srcName).
  rewrite namespaced_label_line by done. cbn [app]. f_equal.
  change (" " +:+ l)%string with (String " " l).
  assert (Hline : exists c rest, m +:+ String " " l = String c rest
                                 /\ (isLabelByte c = true \/ c = " "%char)).
  { destruct m as [|c m']; [exists " "%char, l; by split; [|right]|].
    exists c, (m' +:+ String " " l). split; [reflexivity|left].
    cbn [allBytes] in Hm. by apply andb_true_iff in Hm as [Hc _]. }
  destruct Hline as (c & rest & Eline & Hc).
  rewrite (namespaced_line srcName _ c rest Eline Hc).
  unfold replaceLabels. rewrite replaceLabelsFrom_sep by done.
  change (EmptyString +:+ m) with m. rewrite flushRun_short by done.
  apply isSrcLabel_bytes in Hl as [Hlen' Hl].
  rewrite replaceLabelsFrom_bytes by done.
  change (EmptyString +:+ l) with l. rewrite flushRun_long by done.
  change (" " +:+ qualify (namespaceOf srcName) l)%string
    with (String " " (qualify (namespaceOf srcName) l)).
  reflexivity.
Qed.

Lemma label_and_reference_share_namespace_witness :
  addSrcLabelNamespaces ["start"; "JM start"]%string "main.rasm"
  = ["main.start"; "JM main.start"]%string
  /\ isSrcLabel "main.start" = true
  /\ isSrcLabel (qualify (namespaceOf "lib/main.rasm") "start") = false.
Proof.
  destruct (label_and_reference_share_namespace "main.rasm" "JM" "start"
              eq_refl eq_refl ltac:(simpl; lia)) as [H1 H2].
  split; [exact H1|]. split; [exact H2|].
  destruct (label_and_reference_share_namespace "lib/main.rasm" "JM" "start"
              eq_refl eq_refl ltac:(simpl; lia)) as [_ H3].
  exact H3.
Defined.

(** ** The opcode table *)

Lemma opcodeClash_table :
  forallb (fun p => forallb (opcodeClash p) mnemonicList) mnemonicList = true.
Proof. vm_compute. reflexivity. Qed.

Lemma mnemonics_in_list (m : string) (d : mnemonicT) :
  mnemonics !! m = Some d -> In (m, d) mnemonicList.
Proof.
  intros H. apply list_elem_of_In. unfold mnemonics in H.
  by apply elem_of_list_to_map_2 in H.
Qed.

(** X21: The opcodes of the instructions are pairwise different, except that
    SR16 and CM8 share the opcode 0x15: the two instructions are encoded
    the same, whatever their operands. *)
Theorem opcodes_differ_but_one (m1 m2 : string) (d1 d2 : mnemonicT) :
  mnemonics !! m1 = Some d1 -> mnemonics !! m2 = Some d2 ->
  instrLength d1 <> 0 -> instrLength d2 <> 0 ->
  (opcode d1 = opcode d2 ->
   m1 = m2 \/ (m1 = "SR16" /\ m2 = "CM8")%string \/ (m1 = "CM8" /\ m2 = "SR16")%string)
  /\ forall s : srcLine,
       bin (buildBinSrcLine (withMnemonic s "SR16"))
       = bin (buildBinSrcLine (withMnemonic s "CM8")).
Proof.
  intros H1 H2 Hn1 Hn2. split; [|reflexivity]. intros Ho.
  apply mnemonics_in_list in H1, H2.
  pose proof opcodeClash_table as Ht. rewrite forallb_forall in Ht.
  specialize (Ht _ H1). rewrite forallb_forall in Ht. specialize (Ht _ H2).
  unfold opcodeClash in Ht. cbn [fst snd] in Ht.
  apply Z.eqb_neq in Hn1, Hn2. rewrite Hn1, Hn2 in Ht.
  apply Z.eqb_eq in Ho. rewrite Ho in Ht. cbn [negb orb] in Ht.
  rewrite !orb_true_iff, !andb_true_iff, !String.eqb_eq in Ht. tauto.
Qed.

Lemma opcodes_differ_but_one_witness :
  mnemonics !! "SR16"%string = Some (mkMnemonic "BITWISE SHIFT RIGHT" 0x15 2 5)
  /\ mnemonics !! "CM8"%string = Some (mkMnemonic "COMPARE" 0x15 2 5)
  /\ bin (buildBinSrcLine (withMnemonic cmLine "SR16"))
     = bin (buildBinSrcLine (withMnemonic cmLine "CM8")).
Proof.
  split; [reflexivity|]. split; [reflexivity|].
  destruct (opcodes_differ_but_one "SR16" "CM8"
              (mkMnemonic "BITWISE SHIFT RIGHT" 0x15 2 5) (mkMnemonic "COMPARE" 0x15 2 5)
              eq_refl eq_refl ltac:(simpl; lia) ltac:(simpl; lia)) as [_ H].
  exact (H cmLine).
Defined.

(** ** Duplicate labels, end to end *)

Section Duplicates.

Variable ReadSrc : string -> result (list string).
Variable rangeOrder : nat -> gmap string string -> list (string * string).
Variable unicodeUpper : string -> string.

Hypothesis rangeOrder_perm : forall n m, rangeOrder n m ≡ₚ map_to_list m.

Lemma addSrcLabelNamespaces_lookup (srcLines : list string) (srcName : string)
    (i : nat) (l : string) :
  srcLines !! i = Some l -> isSrcLabel l = true ->
  addSrcLabelNamespaces srcLines srcName !! i = Some (qualify (namespaceOf srcName) l).
Proof.
  intros Hi Hl. pose proof (namespaced_label_line srcName l Hl) as H.
  unfold addSrcLabelNamespaces in *. rewrite list_lookup_fmap, Hi.
  cbn [map] in H. injection H as H. cbn [fmap option_fmap option_map]. by f_equal.
Qed.

(** X22: A program without constants and includes in which a label line occurs
    twice is rejected with the duplicate-label error, wherever the two
    lines are, when the file name gives a namespace of bytes of [[\w.]]. *)
Theorem repeated_label_is_rejected (srcLines : list string) (srcName : string)
    (programOffset : Z) (i j : nat) (l : string) :
  forallb plain (cleanSrc srcLines) = true ->
  hasInclude (addSrcLabelNamespaces (cleanSrc srcLines) srcName) = false ->
  allBytes isLabelByte (namespaceOf srcName) = true ->
  cleanSrc srcLines !! i = Some l -> cleanSrc srcLines !! j = Some l ->
  isSrcLabel l = true -> i <> j ->
  exists srcLabel lineNum,
    fst (Raw ReadSrc rangeOrder unicodeUpper srcLines srcName programOffset initialWorld)
    = Err (DuplicateLabel lineNum srcLabel).
Proof.
  intros Hp Hinc Hns Hi Hj Hl Hij.
  rewrite (Raw_plain ReadSrc rangeOrder unicodeUpper rangeOrder_perm) by done.
  destruct (hasDupeSrcLabels _) as [[srcLabel lineNum]|] eqn:E; [by eauto|].
  exfalso. apply Hij. unfold hasDupeSrcLabels in E.
  apply hasDupeSrcLabelsFrom_None in E as [_ Hu].
  apply (Hu i j (qualify (namespaceOf srcName) l)).
  - by apply addSrcLabelNamespaces_lookup.
  - by apply addSrcLabelNamespaces_lookup.
  - by rewrite qualify_label, Hns, orb_true_r.
Qed.

End Duplicates.

Lemma repeated_label_is_rejected_witness :
  (forall n m, keyOrder n m ≡ₚ map_to_list m)
  /\ exists srcLabel lineNum,
       fst (Raw noFiles keyOrder sameCase ["start"; "NO"; "start"]%string "main.rasm" 0
              initialWorld)
       = Err (DuplicateLabel lineNum srcLabel).
Proof.
  split; [exact keyOrder_perm|].
  apply (repeated_label_is_rejected noFiles keyOrder sameCase keyOrder_perm
           ["start"; "NO"; "start"]%string "main.rasm" 0 0%nat 2%nat "start");
    [vm_compute; reflexivity ..|lia].
Defined.

(** ** Include files *)

Section Includes.

Variable ReadSrc : string -> result (list string).
Variable rangeOrder : nat -> gmap string string -> list (string * string).

Hypothesis rangeOrder_perm : forall n m, rangeOrder n m ≡ₚ map_to_list m.

Lemma addIncludes_no_include (srcLines : list string) (w : world) :
  hasInclude srcLines = false -> addIncludes ReadSrc rangeOrder srcLines w = (Ok srcLines, w).
Proof.
  unfold hasInclude. induction srcLines as [|l ls IH]; intros Hi; [reflexivity|].
  cbn [existsb] in Hi. apply orb_false_iff in Hi as [Hl Hls].
  cbn [addIncludes]. by rewrite Hl, (IH Hls).
Qed.

Lemma addIncludes_app (pre rest : list string) (w : world) :
  hasInclude pre = false ->
  addIncludes ReadSrc rangeOrder (pre ++ rest) w
  = (l <- fst (addIncludes ReadSrc rangeOrder rest w) ;; Ok (pre ++ l),
     snd (addIncludes ReadSrc rangeOrder rest w)).
Proof.
  unfold hasInclude. induction pre as [|p pre IH]; intros Hi.
  - cbn [app]. destruct (addIncludes ReadSrc rangeOrder rest w) as [[l|e] w']; reflexivity.
  - cbn [existsb] in Hi. apply orb_false_iff in Hi as [Hp Hpre].
    cbn [app addIncludes]. rewrite Hp, (IH Hpre).
    destruct (addIncludes ReadSrc rangeOrder rest w) as [[l|e] w']; reflexivity.
Qed.

(** X23: An include line is replaced, in its place, by the cleaned lines of the
    file it names, their labels qualified by the name of that file; the
    lines around it are kept as they are.  A file that has an include line
    of its own is refused.  (The file defines and uses no constant, and no
    other line of the program is an include line.) *)
Theorem include_is_spliced_in_place (pre post rawIncLines : list string)
    (line : string) (w : world) :
  hasInclude pre = false -> hasInclude post = false ->
  startsWith incToken line = true ->
  ReadSrc (TrimSpace (dropBytes 1 line) +:+ IncExt) = Ok rawIncLines ->
  forallb plain (cleanSrc rawIncLines) = true ->
  keysBracketed (defaultConsts w) ->
  fst (addIncludes ReadSrc rangeOrder (pre ++ line :: post) w)
  = if hasInclude (cleanSrc rawIncLines)
    then Err (NestedInclude (TrimSpace (dropBytes 1 line) +:+ IncExt))
    else Ok (pre
             ++ addSrcLabelNamespaces (cleanSrc rawIncLines)
                  (TrimSpace (dropBytes 1 line) +:+ IncExt)
             ++ post).
Proof.
  intros Hpre Hpost Hline Hread Hplain Hk.
  rewrite addIncludes_app by done. cbn [fst addIncludes]. rewrite Hline, Hread.
  destruct (expandConsts_plain rangeOrder rangeOrder_perm (cleanSrc rawIncLines) w Hk Hplain)
    as [n' ->].
  destruct (hasInclude (cleanSrc rawIncLines)); [reflexivity|].
  by rewrite addIncludes_no_include.
Qed.

End Includes.

Lemma include_is_spliced_in_place_witness :
  (forall n m, keyOrder n m ≡ₚ map_to_list m)
  /\ libFiles "lib._rasm" = Ok ["start"; "NO  # nothing"]%string
  /\ fst (addIncludes libFiles keyOrder ["JM lib.start"; "< lib"; "NO"]%string initialWorld)
     = Ok ["JM lib.start"; "lib.start"; "NO"; "NO"]%string.
Proof.
  split; [exact keyOrder_perm|]. split; [reflexivity|].
  exact (include_is_spliced_in_place libFiles keyOrder keyOrder_perm
           ["JM lib.start"%string] ["NO"%string] ["start"; "NO  # nothing"]%string
           "< lib" initialWorld eq_refl eq_refl eq_refl eq_refl eq_refl
           keysBracketed_initial).
Defined.
